(** * The ETL pipeline of [ETL-Project/etl_script.py]

    A shallow embedding of the extract / transform / load script and the
    properties its specification states about it.

    Conventions of the embedding.
    - A Python [str] is a Rocq [string]; a character stands for the code
      point of the same number (code points below 256).
    - A Python value that may sit in a record is a [value]: [None], a
      [bool], an [int], a [float] (IEEE binary64) or a [str].  The records
      read from the CSV and JSON sources are flat dictionaries with string
      keys: [gmap string value].
    - A dictionary whose iteration order is observed (the [customers] and
      [by_id] accumulators) is an association list in insertion order.
    - A call that can raise returns an [outcome]; a function of the script
      runs in [io], which also carries the lines it logs or prints. *)

From Stdlib Require Import ZArith String Ascii List Floats Permutation.
From stdpp Require Import gmap strings list fin_maps pretty.

Open Scope string_scope.
Open Scope Z_scope.
Open Scope list_scope.

(** ** Python strings *)

Module Py.

(** [str.isspace] on one character, for code points below 256. *)
Definition isspace (a : ascii) : bool :=
  let n := N_of_ascii a in
  (((9 <=? n) && (n <=? 13)) || ((28 <=? n) && (n <=? 32))
   || (n =? 133) || (n =? 160))%N.

Fixpoint lstrip (s : string) : string :=
  match s with
  | EmptyString => EmptyString
  | String a s' => if isspace a then lstrip s' else s
  end.

Fixpoint rstrip (s : string) : string :=
  match s with
  | EmptyString => EmptyString
  | String a s' =>
      match rstrip s' with
      | EmptyString => if isspace a then EmptyString else String a EmptyString
      | r => String a r
      end
  end.

(** [s.strip()] *)
Definition strip (s : string) : string := rstrip (lstrip s).

(** [str.lower] on one character: ASCII and Latin-1 capitals. *)
Definition lower_char (a : ascii) : ascii :=
  let n := N_of_ascii a in
  if (((65 <=? n) && (n <=? 90))
      || ((192 <=? n) && (n <=? 222) && negb (n =? 215)))%N
  then ascii_of_N (n + 32) else a.

Fixpoint lower (s : string) : string :=
  match s with
  | EmptyString => EmptyString
  | String a s' => String (lower_char a) (lower s')
  end.

(** [s.startswith(p)] *)
Definition startswith (s p : string) : bool := String.prefix p s.

(** [s.split(":", 1)[1]]: what follows the first colon; there is no
    element of index 1 when [s] has no colon. *)
Fixpoint after_colon (s : string) : option string :=
  match s with
  | EmptyString => None
  | String a s' => if Ascii.eqb a ":" then Some s' else after_colon s'
  end.

End Py.

(** ** Printing a float

    [repr] of a binary64 float is the shortest decimal that reads back as
    the same float, laid out in fixed or exponent notation. *)

Module PyFloat.

(** Comparison of the decimal [D * 10^k] with the binary [V * 2^e]. *)
Definition cmp_dec_bin (D k V e : Z) : comparison :=
  Z.compare (D * 10 ^ Z.max k 0 * 2 ^ Z.max (- e) 0)
            (V * 2 ^ Z.max e 0 * 10 ^ Z.max (- k) 0).

Definition ndigits (n : Z) : Z := Z.of_nat (String.length (pretty n)).

(** [p] with [10^p <= m * 2^e < 10^(p+1)]. *)
Definition floor_log10 (m e : Z) : Z :=
  let p0 := ndigits (m * 2 ^ Z.max e 0) - ndigits (2 ^ Z.max (- e) 0) - 1 in
  match cmp_dec_bin 1 (p0 + 1) m e with
  | Gt => p0
  | _ => p0 + 1
  end.

(** Does the decimal [D * 10^k] read back as the double [m * 2^e]? *)
Definition reads_back (m e D k : Z) : bool :=
  let lo := if (m =? 2 ^ 52) && (-1074 <? e) then 4 * m - 1 else 4 * m - 2 in
  let hi := 4 * m + 2 in
  match cmp_dec_bin D k lo (e - 2) with
  | Gt => true | Eq => Z.even m | Lt => false
  end &&
  match cmp_dec_bin D k hi (e - 2) with
  | Lt => true | Eq => Z.even m | Gt => false
  end.

(** The shortest decimal [(D, k)] that reads back as [m * 2^e], the
    nearest one when two of that length do; [n] counts the digits tried. *)
Fixpoint shortest (fuel : nat) (n : Z) (m e p : Z) : Z * Z :=
  let k := p - n + 1 in
  let lo := (m * 2 ^ Z.max e 0 * 10 ^ Z.max (- k) 0)
            / (2 ^ Z.max (- e) 0 * 10 ^ Z.max k 0) in
  let hi := lo + 1 in
  let pick :=
    match reads_back m e lo k, reads_back m e hi k with
    | true, false => Some lo
    | false, true => Some hi
    | true, true =>
        match cmp_dec_bin (lo + hi) k (8 * m) (e - 2) with
        | Gt => Some lo
        | Lt => Some hi
        | Eq => Some (if Z.even lo then lo else hi)
        end
    | false, false => None
    end in
  match pick, fuel with
  | Some D, _ => (D, k)
  | None, O => (lo, k)
  | None, S fuel' => shortest fuel' (n + 1) m e p
  end.

Fixpoint strip_zeros (fuel : nat) (D k : Z) : Z * Z :=
  match fuel with
  | O => (D, k)
  | S fuel' => if (D mod 10 =? 0) && negb (D =? 0)
               then strip_zeros fuel' (D / 10) (k + 1) else (D, k)
  end.

Fixpoint zeros (n : nat) : string :=
  match n with O => "" | S n' => "0" +:+ zeros n' end.

Definition two_digits (n : Z) : string :=
  if n <? 10 then "0" +:+ pretty n else pretty n.

(** The digits [ds] with the decimal point after the first [decpt] of
    them, written the way [repr] writes a float. *)
Definition layout (ds : string) (decpt : Z) : string :=
  let n := Z.of_nat (String.length ds) in
  if (decpt <=? -4) || (16 <? decpt) then
    let ex := decpt - 1 in
    let mant := match ds with
                | String d EmptyString => ds
                | String d rest => String d ("." +:+ rest)
                | EmptyString => ds
                end in
    mant +:+ "e" +:+ (if ex <? 0 then "-" else "+") +:+ two_digits (Z.abs ex)
  else if decpt <=? 0 then "0." +:+ zeros (Z.to_nat (- decpt)) +:+ ds
  else if n <=? decpt then ds +:+ zeros (Z.to_nat (decpt - n)) +:+ ".0"
  else substring 0 (Z.to_nat decpt) ds +:+ "."
       +:+ substring (Z.to_nat decpt) (Z.to_nat (n - decpt)) ds.

(** [repr(f)], which is also [str(f)]. *)
Definition repr (f : float) : string :=
  match Prim2SF f with
  | S754_nan => "nan"
  | S754_infinity s => if s then "-inf" else "inf"
  | S754_zero s => if s then "-0.0" else "0.0"
  | S754_finite s m e =>
      let '(D, k) := shortest 17 1 (Zpos m) e (floor_log10 (Zpos m) e) in
      let '(D, k) := strip_zeros 17 D k in
      let ds := pretty D in
      (if s then "-" else "") +:+ layout ds (k + Z.of_nat (String.length ds))
  end.

End PyFloat.

(** ** Exceptions, outcomes and the output of the script *)

Inductive exn : Type :=
| KeyError (key : string)
| IndexError
| AttributeError
| TypeError
| ValueError
| OverflowError
| MultipleObjectsFoundError
| LibraryError (what : string).

Inductive outcome (A : Type) : Type :=
| Return (a : A)
| Raise (e : exn).
Arguments Return {A} a.
Arguments Raise {A} e.

#[global] Instance outcome_ret : MRet outcome := fun A a => Return a.
#[global] Instance outcome_bind : MBind outcome := fun A B f m =>
  match m with
  | Return a => f a
  | Raise e => Raise e
  end.
#[global] Instance outcome_fmap : FMap outcome := fun A B f m =>
  match m with
  | Return a => Return (f a)
  | Raise e => Raise e
  end.

(** ** Python values *)

Inductive value : Type :=
| VNone
| VBool (b : bool)
| VInt (z : Z)
| VFloat (f : float)
| VStr (s : string).

Abbreviation record := (gmap string value).

(** [d.get(k, dflt)] and [d.get(k)] *)
Definition get (d : record) (k : string) (dflt : value) : value :=
  default dflt (d !! k).
Definition get_none (d : record) (k : string) : value := get d k VNone.

(** [d[k]] *)
Definition item (d : record) (k : string) : outcome value :=
  match d !! k with
  | Some v => Return v
  | None => Raise (KeyError k)
  end.

(** Truth value of a Python object: [bool(v)]. *)
Definition truthy (v : value) : bool :=
  match v with
  | VNone => false
  | VBool b => b
  | VInt z => negb (z =? 0)
  | VFloat f => negb (PrimFloat.eqb f 0%float)
  | VStr s => negb (String.eqb s "")
  end.

(** [a or b] *)
Definition py_or (a b : value) : value := if truthy a then a else b.

(** [str(v)], as an f-string formats a field. *)
Definition py_str (v : value) : string :=
  match v with
  | VNone => "None"
  | VBool b => if b then "True" else "False"
  | VInt z => pretty z
  | VFloat f => PyFloat.repr f
  | VStr s => s
  end.

(** ** [int(v)] and [safe_int] (lines 85-89) *)

Module PyInt.

(** The blanks [int] accepts around a number. *)
Definition blank (a : ascii) : bool :=
  let n := N_of_ascii a in
  (((9 <=? n) && (n <=? 13)) || (n =? 32) || (n =? 133) || (n =? 160))%N.

Fixpoint ltrim (s : string) : string :=
  match s with
  | EmptyString => EmptyString
  | String a s' => if blank a then ltrim s' else s
  end.

Fixpoint rtrim (s : string) : string :=
  match s with
  | EmptyString => EmptyString
  | String a s' =>
      match rtrim s' with
      | EmptyString => if blank a then EmptyString else String a EmptyString
      | r => String a r
      end
  end.

Definition digit_of (a : ascii) : option Z :=
  let n := N_of_ascii a in
  if ((48 <=? n) && (n <=? 57))%N then Some (Z.of_N n - 48) else None.

(** Digits, with single underscores allowed between two digits; the
    result is the number read and how many digits it has. *)
Fixpoint digits (s : string) (acc : Z) (cnt : nat) (after_digit : bool)
  : option (Z * nat) :=
  match s with
  | EmptyString => if after_digit then Some (acc, cnt) else None
  | String a s' =>
      match digit_of a with
      | Some d => digits s' (10 * acc + d) (S cnt) true
      | None =>
          if Ascii.eqb a "_" && after_digit then digits s' acc cnt false
          else None
      end
  end.

(** The default limit of CPython on the digits of a decimal literal
    converted by [int]. *)
Definition max_str_digits : nat := 4300.

Definition unsigned (s : string) : option Z :=
  match digits s 0 O false with
  | Some (z, cnt) => if (cnt <=? max_str_digits)%nat then Some z else None
  | None => None
  end.

(** [int(s)] for a string; [None] stands for [ValueError]. *)
Definition of_string (s : string) : option Z :=
  match rtrim (ltrim s) with
  | String "+" r => unsigned r
  | String "-" r => Z.opp <$> unsigned r
  | t => unsigned t
  end.

(** [int(f)] for a float: truncation towards zero. *)
Definition of_float (f : float) : outcome Z :=
  match Prim2SF f with
  | S754_zero _ => Return 0
  | S754_infinity _ => Raise OverflowError
  | S754_nan => Raise ValueError
  | S754_finite s m e =>
      let mag := if 0 <=? e then Zpos m * 2 ^ e else Z.shiftr (Zpos m) (- e) in
      Return (if s then - mag else mag)
  end.

End PyInt.

(** [int(v)] *)
Definition py_int (v : value) : outcome Z :=
  match v with
  | VNone => Raise TypeError
  | VBool b => Return (if b then 1 else 0)
  | VInt z => Return z
  | VFloat f => PyInt.of_float f
  | VStr s => match PyInt.of_string s with
              | Some z => Return z
              | None => Raise ValueError
              end
  end.

(** [safe_int(value, default)]: only [ValueError] and [TypeError] are
    caught. *)
Definition safe_int (v : value) (dflt : Z) : outcome Z :=
  match py_int v with
  | Raise ValueError | Raise TypeError => Return dflt
  | r => r
  end.

(** ** What the script logs and prints *)

Inductive event : Type :=
| LogInfo (msg : string)
| LogWarning (msg : string)
| LogError (msg : string)
| Print (msg : string)
(** [print(f"Skipping employee with missing ID: {emp}")] *)
| PrintSkipping (emp : record).

(** A run of a function of the script: its outcome and what it wrote. *)
Record io (A : Type) : Type := Io { result : outcome A; trace : list event }.
Arguments Io {A} result trace.
Arguments result {A} i.
Arguments trace {A} i.

#[global] Instance io_ret : MRet io := fun A a => Io (Return a) [].
#[global] Instance io_bind : MBind io := fun A B f m =>
  match result m with
  | Return a => Io (result (f a)) (trace m ++ trace (f a))
  | Raise e => Io (Raise e) (trace m)
  end.

#[global] Instance io_fmap : FMap io := fun A B f m =>
  Io (f <$> result m) (trace m).

Definition emit (e : event) : io unit := Io (Return tt) [e].
Definition lift {A} (o : outcome A) : io A := Io o [].

(** ** Insertion-ordered dictionaries *)

Abbreviation odict V := (list (string * V)).

Fixpoint od_lookup {V} (k : string) (d : odict V) : option V :=
  match d with
  | [] => None
  | (k', v) :: d' => if String.eqb k k' then Some v else od_lookup k d'
  end.

(** [d[k] = v]: an existing key keeps its place, a new one goes last. *)
Fixpoint od_set {V} (k : string) (v : V) (d : odict V) : odict V :=
  match d with
  | [] => [(k, v)]
  | (k', v') :: d' =>
      if String.eqb k k' then (k, v) :: d' else (k', v') :: od_set k v d'
  end.

(** [d.setdefault(k, v)]: the dictionary afterwards, and the value at [k]. *)
Definition od_setdefault {V} (k : string) (v : V) (d : odict V) : odict V * V :=
  match od_lookup k d with
  | Some v' => (d, v')
  | None => (od_set k v d, v)
  end.

(** [list(d.values())] *)
Definition od_values {V} (d : odict V) : list V := map snd d.

(** ** The dictionaries the extractors build *)

Module Billing.
Record t : Type := mk {
  name : string;
  phone_number : string;
  payment_method : string;
  street : string;
  city : string;
  postcode : string;
  card_number : string;
  card_cvv : string }.
End Billing.

Module Vehicle.
Record t : Type := mk {
  FullName : string;
  RegistrationNumber : option string;
  Make : option string;
  Model : option string;
  Year : Z }.
End Vehicle.

Module Prompt.
Record t : Type := mk {
  employee_id : string;
  timestamp : string;
  prompt : string }.
End Prompt.

(** ** XML trees, as [xml.etree.ElementTree] gives them *)

#[warnings="-register-all"]
Inductive element : Type :=
| Element (tag : string) (attrib : list (string * string))
          (text : option string) (children : list element).

Module ET.

Definition tag (x : element) : string := let 'Element t _ _ _ := x in t.
Definition attrib (x : element) := let 'Element _ a _ _ := x in a.
Definition text (x : element) : option string := let 'Element _ _ t _ := x in t.
Definition children (x : element) : list element :=
  let 'Element _ _ _ c := x in c.

(** [x.findall(t)]: the children of [x] with tag [t]. *)
Definition findall (x : element) (t : string) : list element :=
  filter (fun c => tag c = t) (children x).

(** [x.find(t)] *)
Definition find (x : element) (t : string) : option element :=
  head (findall x t).

(** The elements a path ["a/b"] selects under [x], in document order. *)
Fixpoint select (path : list string) (x : element) : list element :=
  match path with
  | [] => [x]
  | t :: rest => flat_map (select rest) (findall x t)
  end.

(** [x.findtext(path, dflt)]; without a default, [dflt] is [None]. *)
Definition findtext (x : element) (path : list string) (dflt : option string)
  : option string :=
  match head (select path x) with
  | Some e => Some (default "" (text e))
  | None => dflt
  end.

(** [x.get(attribute, dflt)] *)
Definition get (x : element) (a : string) (dflt : string) : string :=
  default dflt (od_lookup a (attrib x)).

(** Truth value of an element: whether it has children. *)
Definition truthy (x : element) : bool :=
  match children x with [] => false | _ => true end.

End ET.

(** ** Extraction (lines 91-169) *)

(** The files of the run: the text found at each path that exists. *)
Abbreviation filesystem := (gmap string string).

(** The parsers of the Python library, which the script calls on the text
    of a file.  The JSON sources hold an array of flat objects. *)
Class Parsers : Type := {
  csv_DictReader : string → outcome (list record);
  json_load : string → outcome (list record);
  ET_parse : string → outcome element }.

(** What [extract_file] returns: a list of rows, a list of lines, the root
    of an XML tree, or [None]. *)
Inductive extracted : Type :=
| Rows (rows : list record)
| Lines (lines : list string)
| Root (root : element)
| NoData.

Definition newline : ascii := "010"%char.
Definition carriage_return : ascii := "013"%char.

(** [f.readlines()] on a file opened in text mode: every line ends with
    its newline, a carriage return (with or without a line feed after it)
    reading as one. *)
Fixpoint readlines_from (cur : string) (s : string) : list string :=
  match s with
  | EmptyString => if String.eqb cur "" then [] else [cur]
  | String a s' =>
      if Ascii.eqb a newline then
        (cur +:+ String newline "") :: readlines_from "" s'
      else if Ascii.eqb a carriage_return then
        match s' with
        | String b s'' =>
            if Ascii.eqb b newline
            then (cur +:+ String newline "") :: readlines_from "" s''
            else (cur +:+ String newline "") :: readlines_from "" s'
        | EmptyString => [cur +:+ String newline ""]
        end
      else readlines_from (cur +:+ String a "") s'
  end.

Definition readlines (s : string) : list string := readlines_from "" s.

Section Extraction.
Context {parsers : Parsers}.

(** [extract_file(file_path, file_type)]; a path absent from the file
    system makes [open] raise [FileNotFoundError], which is caught. *)
Definition extract_file (fs : filesystem) (file_path file_type : string)
  : io extracted :=
  match fs !! file_path with
  | Some content =>
      if String.eqb file_type "csv" then lift (Rows <$> csv_DictReader content)
      else if String.eqb file_type "json" then lift (Rows <$> json_load content)
      else if String.eqb file_type "xml" then lift (Root <$> ET_parse content)
      else if String.eqb file_type "txt" then mret (Lines (readlines content))
      else mret NoData
  | None =>
      emit (LogWarning ("Missing file: " +:+ file_path));;
      mret (if String.eqb file_type "xml" then NoData
            else if String.eqb file_type "txt" then Lines [] else Rows [])
  end.

(** [x or []], read as a list of rows. *)
Definition rows_or_empty (x : extracted) : list record :=
  match x with Rows l => l | _ => [] end.

(** [x or []], read as a list of lines. *)
Definition lines_or_empty (x : extracted) : list string :=
  match x with Lines l => l | _ => [] end.

Definition extract_customers_csv (fs : filesystem) (path : string)
  : io (list record) :=
  rows_or_empty <$> extract_file fs path "csv".

Definition extract_customers_json (fs : filesystem) (path : string)
  : io (list record) :=
  rows_or_empty <$> extract_file fs path "json".

Definition extract_file_json (fs : filesystem) (path : string)
  : io (list record) :=
  rows_or_empty <$> extract_file fs path "json".

Definition billing_of (cust : element) : Billing.t :=
  let field path := default "" (ET.findtext cust path (Some "")) in
  let composed :=
    Py.strip (field ["FirstName"] +:+ " " +:+ field ["LastName"]) in
  {| Billing.name :=
       if String.eqb composed "" then field ["CompanyName"] else composed;
     Billing.phone_number := field ["PhoneNo"];
     Billing.payment_method := field ["PaymentMethod"];
     Billing.street := field ["BillingAddress"; "Street"];
     Billing.city := field ["BillingAddress"; "City"];
     Billing.postcode := field ["BillingAddress"; "Postcode"];
     Billing.card_number := field ["CardDetails"; "CardNumber"];
     Billing.card_cvv := field ["CardDetails"; "CVV"] |}.

Definition extract_customers_billing (fs : filesystem) (path : string)
  : io (list Billing.t) :=
  root ← extract_file fs path "xml";
  match root with
  | NoData => mret []
  | Root r => mret (billing_of <$> ET.findall r "Customer")
  | _ => lift (Raise AttributeError)
  end.

Definition opt_value (o : option string) : value :=
  match o with Some s => VStr s | None => VNone end.

Fixpoint vehicles_of (employees : list element) : outcome (list Vehicle.t) :=
  match employees with
  | [] => Return []
  | employee :: rest =>
      let first_name := ET.get employee "FirstName" "Unknown" in
      let last_name := ET.get employee "SecondName" "Unknown" in
      let full_name := first_name +:+ " " +:+ last_name in
      match ET.find employee "VehicleInfo" with
      | Some vehicle_info =>
          year ← safe_int (opt_value (ET.findtext vehicle_info ["Year"] None)) 0;
          more ← vehicles_of rest;
          Return ({| Vehicle.FullName := full_name;
                     Vehicle.RegistrationNumber :=
                       ET.findtext vehicle_info ["RegistrationNumber"] None;
                     Vehicle.Make := ET.findtext vehicle_info ["Make"] None;
                     Vehicle.Model := ET.findtext vehicle_info ["Model"] None;
                     Vehicle.Year := year |} :: more)
      | None => vehicles_of rest
      end
  end.

Definition extract_vehicles (fs : filesystem) (file_path : string)
  : io (list Vehicle.t) :=
  root ← extract_file fs file_path "xml";
  match root with
  | Root r =>
      if ET.truthy r then lift (vehicles_of (ET.findall r "Employee"))
      else emit (Print "Failed to parse XML file or file is empty.");; mret []
  | NoData =>
      emit (Print "Failed to parse XML file or file is empty.");; mret []
  | _ => lift (Raise AttributeError)
  end.

(** *** [extract_flagged_prompts] (lines 153-169) *)

(** An entry [{'timestamp': ..., 'prompt': ...}] of [by_id]. *)
Record flagged : Type := Flagged { flagged_timestamp : string; flagged_prompt : string }.

(** The variables of the loop over the lines. *)
Record scan : Type := Scan { by_id : odict (list flagged); current_id : option string }.

(** Truth value of [current_id]: neither [None] nor the empty string. *)
Definition id_truthy (current : option string) : bool :=
  match current with
  | Some s => negb (String.eqb s "")
  | None => false
  end.

(** [items[-1]['prompt'] = p]; there is no last entry in an empty list. *)
Fixpoint set_last_prompt (p : string) (items : list flagged)
  : option (list flagged) :=
  match items with
  | [] => None
  | [it] => Some [Flagged (flagged_timestamp it) p]
  | it :: rest => cons it <$> set_last_prompt p rest
  end.

(** [line.split(":", 1)[1].strip()] *)
Definition field_after_colon (line : string) : outcome string :=
  match Py.after_colon line with
  | Some rest => Return (Py.strip rest)
  | None => Raise IndexError
  end.

(** [by_id[current_id]] *)
Definition entries_of (st : scan) (cid : string) : outcome (list flagged) :=
  match od_lookup cid (by_id st) with
  | Some items => Return items
  | None => Raise (KeyError cid)
  end.

(** One turn of the loop of lines 157-165. *)
Definition scan_line (st : scan) (raw : string) : outcome scan :=
  let line := Py.strip raw in
  if Py.startswith line "Employee ID:" then
    cid ← field_after_colon line;
    Return (Scan (fst (od_setdefault cid [] (by_id st))) (Some cid))
  else if Py.startswith line "Timestamp:" && id_truthy (current_id st) then
    let cid := default "" (current_id st) in
    items ← entries_of st cid;
    ts ← field_after_colon line;
    Return (Scan (od_set cid (items ++ [Flagged ts ""]) (by_id st))
                 (current_id st))
  else if Py.startswith line "Prompt:" && id_truthy (current_id st) then
    let cid := default "" (current_id st) in
    p ← field_after_colon line;
    items ← entries_of st cid;
    match set_last_prompt p items with
    | Some items' => Return (Scan (od_set cid items' (by_id st)) (current_id st))
    | None => Raise IndexError
    end
  else Return st.

Fixpoint scan_lines (st : scan) (lines : list string) : outcome scan :=
  match lines with
  | [] => Return st
  | line :: rest => st' ← scan_line st line; scan_lines st' rest
  end.

(** Lines 166-168: the entries of each id, tagged with it. *)
Definition tagged (d : odict (list flagged)) : list Prompt.t :=
  flat_map (fun '(eid, items) =>
              map (fun p => Prompt.mk eid (flagged_timestamp p) (flagged_prompt p))
                  items) d.

Definition extract_flagged_prompts (fs : filesystem) (path : string)
  : io (list Prompt.t) :=
  lines ← lines_or_empty <$> extract_file fs path "txt";
  st ← lift (scan_lines (Scan [] None) lines);
  mret (tagged (by_id st)).

End Extraction.

(** ** Transformation (lines 172-262) *)

(** *** [transform_customers] (lines 172-190) *)

(** Line 175: the composed first and last name, or else the company
    name. *)
Definition customer_name (c : record) : value :=
  py_or (VStr (Py.strip (py_str (get c "first_name" (VStr "")) +:+ " "
                         +:+ py_str (get c "last_name" (VStr "")))))
        (get c "company_name" (VStr "")).

(** Lines 176-177: no key for a record without a name ([continue]);
    otherwise [name.strip()], which only a string has. *)
Definition customer_key (c : record) : outcome (option string) :=
  let name := customer_name c in
  if negb (truthy name) then Return None
  else match name with
       | VStr s => Return (Some (Py.strip s))
       | _ => Raise AttributeError
       end.

(** The dictionary literal of lines 178-189. *)
Definition customer_defaults (key : string) (c : record) : record :=
  <["name" := VStr key]>
  (<["first_name" := get c "first_name" (VStr "")]>
  (<["last_name" := get c "last_name" (VStr "")]>
  (<["company_name" := get c "company_name" (VStr "")]>
  (<["customer_type" := get c "customer_type" (VStr "")]>
  (<["subscription_type" := get c "subscription_type" (VStr "")]>
  (<["email" := get_none c "email"]>
  (<["phone_number" := get c "phone_number" (VStr "")]>
  (<["dob" := get c "dob" (VStr "")]>
  (<["sex" := get c "sex" (VStr "")]> ∅))))))))).

(** [customers.setdefault(key, {...}).update(c)] *)
Definition customers_merge (key : string) (c : record)
    (customers : odict record) : odict record :=
  let '(customers', r) :=
    od_setdefault key (customer_defaults key c) customers in
  od_set key (c ∪ r) customers'.

(** The loop of lines 174-189. *)
Fixpoint customers_loop (customers : odict record) (cs : list record)
  : outcome (odict record) :=
  match cs with
  | [] => Return customers
  | c :: rest =>
      key ← customer_key c;
      match key with
      | None => customers_loop customers rest
      | Some k => customers_loop (customers_merge k c customers) rest
      end
  end.

(** The dictionary [customers] when the loop ends. *)
Definition customers_dict (csv_data json_data : list record)
  : outcome (odict record) :=
  customers_loop [] (csv_data ++ json_data).

Definition transform_customers (csv_data json_data : list record)
  : io (list record) :=
  lift (od_values <$> customers_dict csv_data json_data).

(** *** [transform_customers_with_billing] (lines 192-205) *)

(** [{b['name']: b for b in billing}]: the last record of a name wins. *)
Definition billing_map (billing : list Billing.t) : gmap string Billing.t :=
  foldl (fun m b => <[Billing.name b := b]> m) ∅ billing.

(** [billing_map.get(name, {})], for any value [name]; the keys are
    strings, which only a string equals. *)
Definition billing_for (m : gmap string Billing.t) (name : value)
  : option Billing.t :=
  match name with
  | VStr s => m !! s
  | _ => None
  end.

(** [b.get(field, '')] on the record found, or on [{}]. *)
Definition bget (b : option Billing.t) (field : Billing.t → string) : value :=
  VStr (default "" (field <$> b)).

(** The dictionary passed to [cust.update] at lines 196-204. *)
Definition billing_update (cust : record) (b : option Billing.t) : record :=
  <["phone_number" := py_or (get_none cust "phone_number")
                            (bget b Billing.phone_number)]>
  (<["payment_method" := bget b Billing.payment_method]>
  (<["street" := bget b Billing.street]>
  (<["city" := bget b Billing.city]>
  (<["postcode" := bget b Billing.postcode]>
  (<["card_number" := bget b Billing.card_number]>
  (<["card_cvv" := bget b Billing.card_cvv]> ∅)))))).

Definition with_billing (m : gmap string Billing.t) (cust : record)
  : outcome record :=
  name ← item cust "name";
  Return (billing_update cust (billing_for m name) ∪ cust).

Fixpoint with_billing_loop (m : gmap string Billing.t) (basic : list record)
  : outcome (list record) :=
  match basic with
  | [] => Return []
  | cust :: rest =>
      cust' ← with_billing m cust;
      rest' ← with_billing_loop m rest;
      Return (cust' :: rest')
  end.

Definition transform_customers_with_billing
    (basic : list record) (billing : list Billing.t) : io (list record) :=
  lift (with_billing_loop (billing_map billing) basic).

(** *** [transform_employees] (lines 207-254) *)

(** [{v['FullName']: v for v in vehicle_data}] *)
Definition vehicle_dict (vehicle_data : list Vehicle.t)
  : gmap string Vehicle.t :=
  foldl (fun m v => <[Vehicle.FullName v := v]> m) ∅ vehicle_data.

(** [{str(s['employee_id']): s for s in salary_data}] *)
Fixpoint salary_dict_from (m : gmap string record) (salary_data : list record)
  : outcome (gmap string record) :=
  match salary_data with
  | [] => Return m
  | s :: rest =>
      eid ← item s "employee_id";
      salary_dict_from (<[py_str eid := s]> m) rest
  end.

Definition salary_dict (salary_data : list record)
  : outcome (gmap string record) :=
  salary_dict_from ∅ salary_data.

(** [salary_dict.get(employee_id, {})]; the keys are strings. *)
Definition salary_for (m : gmap string record) (employee_id : value) : record :=
  match employee_id with
  | VStr s => default ∅ (m !! s)
  | _ => ∅
  end.

(** [emp.get('retired', 'false').lower() == 'true'] *)
Definition retired_flag (emp : record) : outcome value :=
  match get emp "retired" (VStr "false") with
  | VStr s => Return (VBool (String.eqb (Py.lower s) "true"))
  | _ => Raise AttributeError
  end.

(** The record built for one employee at lines 219-250. *)
Definition employee_info (vehicles : gmap string Vehicle.t)
    (salaries : gmap string record) (emp : record) (employee_id : value)
  : outcome record :=
  let first := get emp "first_name" (VStr "Unknown") in
  let last := get emp "last_name" (VStr "Unknown") in
  let full_name := py_str first +:+ " " +:+ py_str last in
  age ← safe_int (get_none emp "age") 0;
  retired ← retired_flag emp;
  dependants ← safe_int (get emp "dependants" (VInt 0)) 0;
  let info : record :=
    <["employee_id" := employee_id]>
    (<["first_name" := first]>
    (<["last_name" := last]>
    (<["role" := get emp "role" (VStr "Unknown")]>
    (<["department" := get emp "department" (VStr "Unknown")]>
    (<["age" := VInt age]>
    (<["retired" := retired]>
    (<["dependants" := VInt dependants]>
    (<["marital_status" := get emp "marital_status" (VStr "")]> ∅)))))))) in
  let vehicle_info := vehicles !! full_name in
  let vget (field : Vehicle.t → option string) : value :=
    match vehicle_info with
    | Some v => opt_value (field v)
    | None => VStr ""
    end in
  let vehicle_part : record :=
    <["vehicle_registration" := vget Vehicle.RegistrationNumber]>
    (<["vehicle_make" := vget Vehicle.Make]>
    (<["vehicle_model" := vget Vehicle.Model]>
    (<["vehicle_year" := VInt (default 0 (Vehicle.Year <$> vehicle_info))]>
     ∅))) in
  let salary_info := salary_for salaries employee_id in
  let salary_part : record :=
    <["salary" := get salary_info "salary" (VInt 0)]>
    (<["pension" := get salary_info "pension" (VInt 0)]>
    (<["commute_distance" := get salary_info "commute_distance" (VInt 0)]>
     ∅)) in
  Return (salary_part ∪ (vehicle_part ∪ info)).

(** The loop of lines 213-252. *)
Fixpoint employees_loop (vehicles : gmap string Vehicle.t)
    (salaries : gmap string record) (employee_csv : list record)
  : io (list record) :=
  match employee_csv with
  | [] => mret []
  | emp :: rest =>
      let employee_id := get emp "employee_id" (VStr "") in
      if negb (truthy employee_id) then
        emit (PrintSkipping emp);;
        employees_loop vehicles salaries rest
      else
        info ← lift (employee_info vehicles salaries emp employee_id);
        more ← employees_loop vehicles salaries rest;
        mret (info :: more)
  end.

Definition transform_employees (employee_csv : list record)
    (vehicle_data : list Vehicle.t) (salary_data : list record)
  : io (list record) :=
  salaries ← lift (salary_dict salary_data);
  employees_loop (vehicle_dict vehicle_data) salaries employee_csv.

(** *** [merge_flagged_prompts] (lines 256-262) *)

Module Json.

Definition quote : ascii := "034"%char.
Definition backslash : ascii := "092"%char.

Definition hex_digit (n : N) : ascii :=
  if (n <? 10)%N then ascii_of_N (48 + n) else ascii_of_N (87 + n).

(** One character of a string, as [json.dumps] writes it with its default
    [ensure_ascii=True]. *)
Definition escape (a : ascii) : string :=
  let n := N_of_ascii a in
  if Ascii.eqb a quote then String backslash (String quote "")
  else if Ascii.eqb a backslash then String backslash (String backslash "")
  else if (n =? 10)%N then String backslash "n"
  else if (n =? 13)%N then String backslash "r"
  else if (n =? 9)%N then String backslash "t"
  else if (n =? 8)%N then String backslash "b"
  else if (n =? 12)%N then String backslash "f"
  else if ((n <? 32) || (126 <? n))%N then
    String backslash
      ("u00" +:+ String (hex_digit (n / 16)) (String (hex_digit (n mod 16)) ""))
  else String a "".

Fixpoint escaped (s : string) : string :=
  match s with
  | EmptyString => EmptyString
  | String a s' => escape a +:+ escaped s'
  end.

Definition str (s : string) : string :=
  String quote (escaped s) +:+ String quote "".

Definition member (k v : string) : string := str k +:+ ": " +:+ str v.

(** A prompt dictionary: its keys in the order they were inserted. *)
Definition object (p : Prompt.t) : string :=
  "{" +:+ member "employee_id" (Prompt.employee_id p) +:+ ", "
      +:+ member "timestamp" (Prompt.timestamp p) +:+ ", "
      +:+ member "prompt" (Prompt.prompt p) +:+ "}".

Fixpoint items (ps : list Prompt.t) : string :=
  match ps with
  | [] => ""
  | [p] => object p
  | p :: rest => object p +:+ ", " +:+ items rest
  end.

(** [json.dumps(ps)] for a list of prompt dictionaries. *)
Definition dumps (ps : list Prompt.t) : string := "[" +:+ items ps +:+ "]".

End Json.

(** Lines 257-259: [by_id.setdefault(p['employee_id'], []).append(p)]. *)
Definition group_prompts (prompts : list Prompt.t) : odict (list Prompt.t) :=
  foldl (fun by_id p =>
           let '(d, ps) := od_setdefault (Prompt.employee_id p) [] by_id in
           od_set (Prompt.employee_id p) (ps ++ [p]) d)
        [] prompts.

(** [by_id.get(emp['employee_id'], [])]; the keys are strings. *)
Definition prompts_for (by_id : odict (list Prompt.t)) (employee_id : value)
  : list Prompt.t :=
  match employee_id with
  | VStr s => default [] (od_lookup s by_id)
  | _ => []
  end.

(** Line 261, for one employee. *)
Definition flag_employee (by_id : odict (list Prompt.t)) (emp : record)
  : outcome record :=
  eid ← item emp "employee_id";
  Return (<["flagged_prompts" := VStr (Json.dumps (prompts_for by_id eid))]> emp).

Fixpoint flag_employees (by_id : odict (list Prompt.t)) (employees : list record)
  : outcome (list record) :=
  match employees with
  | [] => Return []
  | emp :: rest =>
      emp' ← flag_employee by_id emp;
      rest' ← flag_employees by_id rest;
      Return (emp' :: rest')
  end.

Definition merge_flagged_prompts (employees : list record)
    (prompts : list Prompt.t) : io (list record) :=
  lift (flag_employees (group_prompts prompts) employees).

(** ** Loading (lines 265-294)

    The loader calls the ORM (Pony, on the entities declared at lines
    30-66) and, through it, the database.  What the ORM makes of the
    values it is handed (the validation of each keyword argument against
    the declaration of its attribute, with the conversions and the
    stripping of strings that go with it) and how the database compares
    two texts are not of this script: they are the operations of the
    class [Pony], and the statements hold for every ORM.  The tables are
    the rows of the session.  A row holds the values of its attributes;
    the rows of [Customer] are kept in the order of their creation, the
    rows of [Employee] are found by their primary key.

    An error that the database raises when it is sent a row (at the next
    query, or at the [commit] of lines 277 and 293) is an error of the
    operation that made or changed the row.  The loaders log nothing
    before the commit, and no statement depends on which of several
    errors a run raises. *)

Class Pony : Type := {
  (** The validation of the value [v] as the attribute [email] of
      [Customer], for the lookup of line 270: the text that is looked
      for, or the error. *)
  Customer_email : value → outcome string;
  (** The sort key of a text in the collation of the database: it finds
      equal two texts of the same sort key. *)
  collate : string → string;
  (** The constructor [Customer] on the items of [c] as keyword arguments
      (line 275), in a session whose table is [rows]: the new row, or the
      error of the validation. *)
  Customer_new : record → list record → outcome record;
  (** [existing.set] on the items of [c] (line 272): the values it
      assigns to the attributes of the row [existing], or the error of
      the validation. *)
  Customer_values : record → record → outcome record;
  (** The validation of the value [v] as the primary key of [Employee],
      for the lookup of line 285: the key under which the database finds
      the row, or the error. *)
  Employee_key : value → outcome string;
  (** The constructor [Employee] on the items of [e] (line 291): the new
      row, or the error of the validation. *)
  Employee_new : record → outcome record;
  (** The loop of lines 287-288 on the row [existing]: the values it
      assigns, or the error of the validation. *)
  Employee_values : record → record → outcome record }.

Module Customer.

Abbreviation table := (list record).

(** The database finds the row for the text [s]: its email compares
    equal to [s]. *)
Definition has_email {pony : Pony} (s : string) (row : record) : bool :=
  match row !! "email" with
  | Some (VStr s') => String.eqb (collate s) (collate s')
  | _ => false
  end.

(** The positions, counted from [i], of the rows found for [s]. *)
Fixpoint rows_with_email {pony : Pony} (s : string) (i : nat) (rows : table)
  : list nat :=
  match rows with
  | [] => []
  | row :: rest =>
      if has_email s row then i :: rows_with_email s (S i) rest
      else rows_with_email s (S i) rest
  end.

(** [Customer.get(email=v)]: the row found, [None] when there is none;
    an error when [v] is not valid for the attribute, or when several
    rows are found. *)
Definition get {pony : Pony} (email : value) (rows : table)
  : outcome (option nat) :=
  s ← Customer_email email;
  match rows_with_email s 0 rows with
  | [] => Return None
  | [i] => Return (Some i)
  | _ => Raise MultipleObjectsFoundError
  end.

(** [existing.set] on the items of [c], for the row at position [i]: the
    attributes that are assigned take their new values, the others keep
    theirs. *)
Definition set {pony : Pony} (i : nat) (c : record) (rows : table)
  : outcome table :=
  match rows !! i with
  | Some existing =>
      assigned ← Customer_values existing c;
      Return (<[i := assigned ∪ existing]> rows)
  | None => Return rows
  end.

(** The constructor [Customer] on the items of [c]: a new row, after the
    others. *)
Definition create {pony : Pony} (c : record) (rows : table) : outcome table :=
  row ← Customer_new c rows;
  Return (rows ++ [row]).

End Customer.

Module Employee.

Abbreviation table := (gmap string record).

(** [Employee.get(employee_id=v)]: the key looked up and the row
    found. *)
Definition get {pony : Pony} (employee_id : value) (rows : table)
  : outcome (string * option record) :=
  pk ← Employee_key employee_id;
  Return (pk, rows !! pk).

(** [setattr(existing, key, val)] for every item of [e], on the row
    found under [pk]. *)
Definition set {pony : Pony} (pk : string) (e : record) (existing : record)
    (rows : table) : outcome table :=
  assigned ← Employee_values existing e;
  Return (<[pk := assigned ∪ existing]> rows).

(** The constructor [Employee] on the items of [e]: a new row, found
    under [pk]. *)
Definition create {pony : Pony} (pk : string) (e : record) (rows : table)
  : outcome table :=
  row ← Employee_new e;
  Return (<[pk := row]> rows).

End Employee.

(** The counters and the table of the loop of [load_customers]. *)
Record loading (T : Type) : Type :=
  Loading { rows_of : T; loaded : Z; updated : Z }.
Arguments Loading {T} rows_of loaded updated.
Arguments rows_of {T} l.
Arguments loaded {T} l.
Arguments updated {T} l.

Section Loading.
Context {pony : Pony}.

(** Lines 269-276, for one record. *)
Definition load_customer (c : record) (st : loading Customer.table)
  : outcome (loading Customer.table) :=
  if negb (truthy (get_none c "name")) then Return st
  else
    existing ← (if truthy (get_none c "email")
                then Customer.get (get_none c "email") (rows_of st)
                else Return None);
    match existing with
    | Some i =>
        rows ← Customer.set i c (rows_of st);
        Return (Loading rows (loaded st) (updated st + 1))
    | None =>
        rows ← Customer.create c (rows_of st);
        Return (Loading rows (loaded st + 1) (updated st))
    end.

Fixpoint load_customers_loop (customers : list record)
    (st : loading Customer.table) : outcome (loading Customer.table) :=
  match customers with
  | [] => Return st
  | c :: rest => st' ← load_customer c st; load_customers_loop rest st'
  end.

(** [load_customers(customers)] on a table: the table after the commit. *)
Definition load_customers (customers : list record) (rows : Customer.table)
  : io Customer.table :=
  st ← lift (load_customers_loop customers (Loading rows 0 0));
  emit (LogInfo ("Customers: " +:+ pretty (loaded st) +:+ " added, "
                 +:+ pretty (updated st) +:+ " updated."));;
  mret (rows_of st).

(** Lines 284-292, for one record. *)
Definition load_employee (e : record) (st : loading Employee.table)
  : outcome (loading Employee.table) :=
  if negb (truthy (get_none e "employee_id")) then Return st
  else
    employee_id ← item e "employee_id";
    found ← Employee.get employee_id (rows_of st);
    match found with
    | (pk, Some existing) =>
        rows ← Employee.set pk e existing (rows_of st);
        Return (Loading rows (loaded st) (updated st + 1))
    | (pk, None) =>
        rows ← Employee.create pk e (rows_of st);
        Return (Loading rows (loaded st + 1) (updated st))
    end.

Fixpoint load_employees_loop (employees : list record)
    (st : loading Employee.table) : outcome (loading Employee.table) :=
  match employees with
  | [] => Return st
  | e :: rest => st' ← load_employee e st; load_employees_loop rest st'
  end.

Definition load_employees (employees : list record) (rows : Employee.table)
  : io Employee.table :=
  st ← lift (load_employees_loop employees (Loading rows 0 0));
  emit (LogInfo ("Employees: " +:+ pretty (loaded st) +:+ " added, "
                 +:+ pretty (updated st) +:+ " updated."));;
  mret (rows_of st).

End Loading.

(** ** The whole run (lines 297-313) *)

Record database : Type :=
  Database { customer_rows : Customer.table; employee_rows : Employee.table }.

Module FILE_PATHS.
Definition customers_csv := "ETL-Project\customers.csv".
Definition customers_json := "ETL-Project\customers_subscriptions.json".
Definition customers_billing := "ETL-Project\customers_billing.xml".
Definition employee_csv := "ETL-Project\employees.csv".
Definition employees_vehicles := "ETL-Project\employees_vehicles.xml".
Definition employees_salaries := "ETL-Project\employees_salaries.json".
Definition flagged_prompts := "ETL-Project\flagged_prompts.txt".
End FILE_PATHS.

Section Run.
Context {parsers : Parsers} {pony : Pony}.

Definition run_etl (fs : filesystem) (db : database) : io database :=
  emit (LogInfo "Starting ETL process");;
  c_csv ← extract_customers_csv fs FILE_PATHS.customers_csv;
  c_json ← extract_customers_json fs FILE_PATHS.customers_json;
  c_bill ← extract_customers_billing fs FILE_PATHS.customers_billing;
  e_csv ← rows_or_empty <$> extract_file fs FILE_PATHS.employee_csv "csv";
  e_veh ← extract_vehicles fs FILE_PATHS.employees_vehicles;
  e_sal ← extract_file_json fs FILE_PATHS.employees_salaries;
  e_flags ← extract_flagged_prompts fs FILE_PATHS.flagged_prompts;
  basic ← transform_customers c_csv c_json;
  customers ← transform_customers_with_billing basic c_bill;
  unified ← transform_employees e_csv e_veh e_sal;
  employees ← merge_flagged_prompts unified e_flags;
  emit (LogInfo "Loading data to DB...");;
  customer_rows' ← load_customers customers (customer_rows db);
  employee_rows' ← load_employees employees (employee_rows db);
  emit (LogInfo "ETL process completed successfully.");;
  mret (Database customer_rows' employee_rows').

End Run.

(** * Vocabulary of the statements *)

(** Parsers that reject every text; they stand for the library where a
    statement is run on a file system whose texts are never parsed. *)
Definition rejecting_parsers : Parsers :=
  {| csv_DictReader := fun _ => Raise (LibraryError "csv");
     json_load := fun _ => Raise (LibraryError "json");
     ET_parse := fun _ => Raise (LibraryError "xml") |}.

(** A customer record that has a name at line 176. *)
Definition named (c : record) : bool := truthy (customer_name c).

(** The company name of [c] is not a string made of blanks only. *)
Definition company_not_blank (c : record) : Prop :=
  ∀ s, c !! "company_name" = Some (VStr s) → s = "" ∨ Py.strip s ≠ "".

(** An employee record that has an id at line 215. *)
Definition identified (emp : record) : bool :=
  truthy (get emp "employee_id" (VStr "")).

(** A customer with a blank company name and nothing else. *)
Definition blank_company : record := {[ "company_name" := VStr "  " ]}.

(** Every entry of [customers] is filed under a non-empty key, which is
    the [name] of its record. *)
Definition names_kept (d : odict record) : Prop :=
  ∀ k r, (k, r) ∈ d → k ≠ "" ∧ r !! "name" = Some (VStr k).

(** [r] is the record lines 219-250 build for [emp]. *)
Definition built_from (vehicles : gmap string Vehicle.t)
    (salaries : gmap string record) (emp r : record) : Prop :=
  employee_info vehicles salaries emp (get emp "employee_id" (VStr "")) = Return r.

(** Inputs on which the statements are run. *)
Definition ann : record :=
  <["first_name" := VStr "Ann"]> (<["last_name" := VStr "Lee"]> ∅).
Definition nameless : record := {[ "email" := VStr "x@example.org" ]}.
Definition emp_e1 : record :=
  <["employee_id" := VStr "E1"]> (<["first_name" := VStr "Bob"]>
  (<["last_name" := VStr "Ray"]> ∅)).
Definition emp_no_id : record := {[ "first_name" := VStr "Cy" ]}.

(** [c] is accepted by the loop of [transform_customers] and is not filed
    under the key [k]. *)
Definition other_key (k : string) (c : record) : Prop :=
  ∃ o, customer_key c = Return o ∧ o ≠ Some k.

Definition ann_json : record :=
  <["first_name" := VStr "Ann"]> (<["last_name" := VStr "Lee"]>
  (<["email" := VStr "ann@example.org"]> ∅)).

(** A row as [csv.DictReader] gives it for a full line: every cell is a
    string. *)
Definition csv_row (r : record) : Prop :=
  ∀ k v, r !! k = Some v → ∃ s, v = VStr s.

(** Line 221: the name under which a vehicle is looked up. *)
Definition full_name (emp : record) : string :=
  py_str (get emp "first_name" (VStr "Unknown")) +:+ " "
  +:+ py_str (get emp "last_name" (VStr "Unknown")).

(** A salary record of an employee other than [eid]. *)
Definition salary_of_other (eid : string) (s : record) : Prop :=
  ∃ v, s !! "employee_id" = Some v ∧ py_str v ≠ eid.

(** The fields of [r] that come from the vehicle and salary sources hold
    the defaults of lines 238-249. *)
Definition side_defaults (r : record) : Prop :=
  r !! "vehicle_registration" = Some (VStr "")
  ∧ r !! "vehicle_make" = Some (VStr "")
  ∧ r !! "vehicle_model" = Some (VStr "")
  ∧ r !! "vehicle_year" = Some (VInt 0)
  ∧ r !! "salary" = Some (VInt 0)
  ∧ r !! "pension" = Some (VInt 0)
  ∧ r !! "commute_distance" = Some (VInt 0).

Definition other_vehicle : Vehicle.t :=
  Vehicle.mk "Dee Fox" (Some "AB12 CDE") (Some "Ford") None 2019.
Definition other_salary : record :=
  <["employee_id" := VInt 7]> (<["salary" := VFloat 50000.5%float]> ∅).

(** The customer record [cust] carries the six billing fields of [b]. *)
Definition billing_attached (b : Billing.t) (cust : record) : Prop :=
  cust !! "payment_method" = Some (VStr (Billing.payment_method b))
  ∧ cust !! "street" = Some (VStr (Billing.street b))
  ∧ cust !! "city" = Some (VStr (Billing.city b))
  ∧ cust !! "postcode" = Some (VStr (Billing.postcode b))
  ∧ cust !! "card_number" = Some (VStr (Billing.card_number b))
  ∧ cust !! "card_cvv" = Some (VStr (Billing.card_cvv b)).

(** The six billing fields of [cust] are the empty string. *)
Definition billing_blank (cust : record) : Prop :=
  cust !! "payment_method" = Some (VStr "")
  ∧ cust !! "street" = Some (VStr "")
  ∧ cust !! "city" = Some (VStr "")
  ∧ cust !! "postcode" = Some (VStr "")
  ∧ cust !! "card_number" = Some (VStr "")
  ∧ cust !! "card_cvv" = Some (VStr "").

Definition bill_ann_old : Billing.t :=
  Billing.mk "Ann Lee" "" "cash" "1 Old Rd" "Leeds" "LS1" "" "".
Definition bill_ann : Billing.t :=
  Billing.mk "Ann Lee" "0113" "card" "2 New St" "York" "YO1" "4111" "123".
Definition bill_bob : Billing.t :=
  Billing.mk "ann lee" "" "cheque" "" "" "" "" "".
Definition cust_ann : record := {[ "name" := VStr "Ann Lee" ]}.
Definition cust_zed : record := {[ "name" := VStr "Zed" ]}.

(** The prompt [p] carries the employee id [eid]; only a string equals the
    id of a prompt. *)
Definition prompt_of (eid : value) (p : Prompt.t) : bool :=
  match eid with
  | VStr s => String.eqb s (Prompt.employee_id p)
  | _ => false
  end.

Definition prompt_e1 : Prompt.t := Prompt.mk "E1" "2024-01-01 10:00" "hello".
Definition prompt_e9 : Prompt.t := Prompt.mk "E9" "2024-01-02 11:00" "bye".
Definition cust_zed_emp : record := {[ "employee_id" := VStr "E2" ]}.

(** The empty result of [extract_file] for a file type: [None] for XML,
    the empty list otherwise. *)
Definition no_data (file_type : string) : extracted :=
  if String.eqb file_type "xml" then NoData
  else if String.eqb file_type "txt" then Lines [] else Rows [].

Definition missing_file (path : string) : event :=
  LogWarning ("Missing file: " +:+ path).

(** *** The lines of the flagged-prompts file *)

(** What a line is for the loop of lines 157-165, which looks at it after
    the strip. *)
Inductive line_kind : Type := EmployeeLine | TimestampLine | PromptLine | OtherLine.

Definition kind_of (raw : string) : line_kind :=
  let line := Py.strip raw in
  if Py.startswith line "Employee ID:" then EmployeeLine
  else if Py.startswith line "Timestamp:" then TimestampLine
  else if Py.startswith line "Prompt:" then PromptLine
  else OtherLine.

(** The text of a line after its first colon, stripped. *)
Definition field_of (raw : string) : string :=
  Py.strip (default "" (Py.after_colon (Py.strip raw))).

(** Every "Prompt:" line has a "Timestamp:" line before it and after the
    most recent "Employee ID:" line; [seen] tells whether a "Timestamp:"
    line was read since that line. *)
Fixpoint prompts_preceded (seen : bool) (lines : list string) : bool :=
  match lines with
  | [] => true
  | raw :: rest =>
      match kind_of raw with
      | EmployeeLine => prompts_preceded false rest
      | TimestampLine => prompts_preceded true rest
      | PromptLine => seen && prompts_preceded seen rest
      | OtherLine => prompts_preceded seen rest
      end
  end.

(** The employee id in force after a line. *)
Definition next_id (current : option string) (raw : string) : option string :=
  match kind_of raw with
  | EmployeeLine => Some (field_of raw)
  | _ => current
  end.

(** The id and the text of a "Timestamp:" line read under a non-empty
    employee id. *)
Definition stamped (current : option string) (raw : string)
  : list (string * string) :=
  match kind_of raw with
  | TimestampLine =>
      if id_truthy current then [(default "" current, field_of raw)] else []
  | _ => []
  end.

(** The "Timestamp:" lines that come under an "Employee ID:" line with a
    non-empty id, each with this id, in the order of the file. *)
Fixpoint timestamp_lines (current : option string) (lines : list string)
  : list (string * string) :=
  match lines with
  | [] => []
  | raw :: rest => stamped current raw ++ timestamp_lines (next_id current raw) rest
  end.

(** The id and timestamp of a returned record. *)
Definition stamp_of (p : Prompt.t) : string * string :=
  (Prompt.employee_id p, Prompt.timestamp p).

(** The ids and timestamps held by [by_id]. *)
Definition stamps (d : odict (list flagged)) : list (string * string) :=
  flat_map (fun '(eid, items) => map (fun p => (eid, flagged_timestamp p)) items) d.

(** The entry of the current id is there, and is not empty once a
    timestamp was read under a non-empty id. *)
Definition scan_ok (st : scan) (seen : bool) : Prop :=
  ∀ cid, current_id st = Some cid →
    ∃ items, od_lookup cid (by_id st) = Some items
             ∧ (seen = true → cid ≠ "" → items ≠ []).

Definition seen_after (seen : bool) (raw : string) : bool :=
  match kind_of raw with
  | EmployeeLine => false
  | TimestampLine => true
  | _ => seen
  end.

Definition lone_timestamp : filesystem := {[ "flagged.txt" := "Timestamp: 12:00" ]}.
Definition two_blocks : filesystem :=
  {[ "flagged.txt" :=
       "Employee ID: E1" +:+ String newline
         ("Timestamp: 10:00" +:+ String newline
           ("Prompt: hello" +:+ String newline
             ("Timestamp: 11:00" +:+ String newline "Employee ID: E2"))) ]}.

Definition cust_new : record :=
  <["name" := VStr "Ann Lee"]> (<["email" := VStr "ann@example.org"]>
  (<["city" := VStr "York"]> ∅)).
Definition row_ann : record :=
  <["name" := VStr "A. Lee"]> (<["email" := VStr "ann@example.org"]>
  (<["phone_number" := VStr "0113"]> ∅)).
Definition row_bob : record :=
  <["name" := VStr "Bob Ray"]> (<["email" := VStr "bob@example.org"]> ∅).
Definition cust_no_email : record := {[ "name" := VStr "Zed" ]}.
Definition cust_no_name : record := {[ "email" := VStr "" ]}.

(** The record [c] passes the test of line 269. *)
Definition has_name (c : record) : bool := truthy (get_none c "name").

(** The record [e] passes the test of line 284. *)
Definition has_id (e : record) : bool := truthy (get_none e "employee_id").

(** The line of line 278. *)
Definition customers_logged (added updated_ : Z) : event :=
  LogInfo ("Customers: " +:+ pretty added +:+ " added, "
           +:+ pretty updated_ +:+ " updated.").

(** The line of line 294. *)
Definition employees_logged (added updated_ : Z) : event :=
  LogInfo ("Employees: " +:+ pretty added +:+ " added, "
           +:+ pretty updated_ +:+ " updated.").

(** *** Rows that take values in turn *)

Section Assigned.
Context (values : record → record → outcome record) (sel : record → bool).

(** What a record does to a row when it is selected for it: the values it
    assigns come over those of the row. *)
Definition assign (row c : record) : record :=
  if sel c then
    match values row c with Return u => u ∪ row | Raise _ => row end
  else row.

(** The values that the selected records of [cs] assign to the row, the
    later ones over the earlier ones. *)
Definition assigned (cs : list record) (row : record) : record :=
  foldl (λ acc c,
           if sel c then
             match values row c with Return u => u ∪ acc | Raise _ => acc end
           else acc)
        ∅ cs.

(** The row accepts the selected records of [cs] and has the values they
    assign. *)
Definition holds (cs : list record) (row : record) : Prop :=
  (∀ c, c ∈ cs → sel c = true → ∃ u, values row c = Return u)
  ∧ assigned cs row ⊆ row.

End Assigned.

Section Loaded.
Context {pony : Pony}.

(** The text under which line 270 looks the record [c] up: none for a
    record that is skipped, that has no email, or whose email the ORM
    rejects. *)
Definition email_key (c : record) : option string :=
  if has_name c && truthy (get_none c "email") then
    match Customer_email (get_none c "email") with
    | Return s => Some s
    | Raise _ => None
    end
  else None.

(** The lookup of line 270 for the record [c] finds the row. *)
Definition finds (row c : record) : bool :=
  match email_key c with
  | Some s => Customer.has_email s row
  | None => false
  end.

(** After the records [cs] were loaded: each of them that was looked up
    has one row, and the rows hold what was assigned to them. *)
Definition loaded_rows (cs : list record) (rows : Customer.table) : Prop :=
  (∀ c s, c ∈ cs → email_key c = Some s →
          ∃ i, Customer.rows_with_email s 0 rows = [i])
  ∧ (∀ row, row ∈ rows → holds Customer_values (finds row) cs row).

(** The key under which line 285 looks the record [e] up. *)
Definition id_key (e : record) : option string :=
  if has_id e then
    match Employee_key (get_none e "employee_id") with
    | Return k => Some k
    | Raise _ => None
    end
  else None.

(** The record [e] is looked up under the key [k]. *)
Definition has_key (k : string) (e : record) : bool :=
  match id_key e with
  | Some k' => String.eqb k k'
  | None => false
  end.

Definition loaded_ids (es : list record) (rows : Employee.table) : Prop :=
  (∀ e k, e ∈ es → id_key e = Some k → is_Some (rows !! k))
  ∧ (∀ k row, rows !! k = Some row → holds Employee_values (has_key k) es row).

End Loaded.

(** What the statements about a second run assume of the ORM.  It
    validates alike the email that is looked up, the email of a new row
    and the email that is assigned, so that the row made or updated for a
    record is found for the email of the record.  The row that the
    constructor makes of keyword arguments accepts them in [set], and has
    the values they assign.  And whether [set] accepts keyword arguments,
    and what they assign, is not changed by an earlier [set] on the
    row. *)
Record PonyLaws (pony : Pony) : Prop := {
  Customer_new_email : ∀ c rows row s,
    truthy (get_none c "email") = true →
    Customer_email (get_none c "email") = Return s →
    Customer_new c rows = Return row →
    Customer.has_email s row = true;
  Customer_values_email : ∀ c existing u s,
    truthy (get_none c "email") = true →
    Customer_email (get_none c "email") = Return s →
    Customer_values existing c = Return u →
    Customer.has_email s u = true;
  Customer_new_values : ∀ c rows row,
    Customer_new c rows = Return row →
    ∃ u, Customer_values row c = Return u ∧ u ⊆ row;
  Customer_values_stable : ∀ existing c c' u u',
    Customer_values existing c = Return u →
    Customer_values existing c' = Return u' →
    Customer_values (u' ∪ existing) c = Return u;
  Employee_new_values : ∀ e row,
    Employee_new e = Return row →
    ∃ u, Employee_values row e = Return u ∧ u ⊆ row;
  Employee_values_stable : ∀ existing e e' u u',
    Employee_values existing e = Return u →
    Employee_values existing e' = Return u' →
    Employee_values (u' ∪ existing) e = Return u }.

(** An ORM that checks a key to be a string and takes the keyword
    arguments as they are, over a database that compares texts character
    by character: the rows hold what the records give. *)
Definition plain : Pony :=
  {| Customer_email v :=
       match v with VStr s => Return s | _ => Raise TypeError end;
     collate s := s;
     Customer_new c _ := Return c;
     Customer_values _ c := Return c;
     Employee_key v :=
       match v with VStr s => Return s | _ => Raise TypeError end;
     Employee_new e := Return e;
     Employee_values _ e := Return e |}.
Definition cust_newer : record :=
  <["name" := VStr "Ann Lee"]> (<["email" := VStr "ann@example.org"]>
  (<["city" := VStr "Leeds"]> (<["sex" := VStr "F"]> ∅))).

(** The float [f] is one of the two infinities. *)
Definition infinite (f : float) : Prop := ∃ s, Prim2SF f = S754_infinity s.

(** The name under which [extract_vehicles] files an employee element. *)
Definition element_full_name (employee : element) : string :=
  ET.get employee "FirstName" "Unknown" +:+ " "
  +:+ ET.get employee "SecondName" "Unknown".

Definition xml_vehicle_info : element :=
  Element "VehicleInfo" [] None
    [Element "RegistrationNumber" [] (Some "AB12 CDE") [];
     Element "Year" [] (Some "20x9") []].
Definition xml_employees : element :=
  Element "Employees" [] None
    [Element "Employee" [("FirstName", "Dee"); ("SecondName", "Fox")] None
       [xml_vehicle_info];
     Element "Employee" [("FirstName", "Bob")] None []].
Definition xml_customer : element :=
  Element "Customer" [] None
    [Element "FirstName" [] (Some " Ann") [];
     Element "LastName" [] (Some "Lee ") [];
     Element "CompanyName" [] (Some "Acme") []].
(** The library in a run where the XML text read is the text of [root]. *)
Definition xml_reading (root : element) : Parsers :=
  {| csv_DictReader := fun _ => Raise (LibraryError "csv");
     json_load := fun _ => Raise (LibraryError "json");
     ET_parse := fun _ => Return root |}.
Definition ann_spaced : record :=
  <["first_name" := VStr " Ann"]> (<["last_name" := VStr "Lee "]> ∅).
Definition prompt_first : filesystem :=
  {[ "flagged.txt" :=
       "Note" +:+ String newline
         ("Employee ID: E1" +:+ String newline
           ("Prompt: hello" +:+ String newline "Timestamp: 10:00")) ]}.

(** The name of [c] at line 175 is a value other than a string that line
    176 lets through: line 177 cannot strip it. *)
Definition unstrippable (c : record) : Prop :=
  truthy (customer_name c) = true ∧ ∀ s, customer_name c ≠ VStr s.

Definition numbered_company : record := {[ "company_name" := VInt 42 ]}.
Definition ann_late : record :=
  <["first_name" := VStr "Ann"]> (<["last_name" := VStr "Lee"]>
  (<["phone_number" := VStr "0113"]> ∅)).
Definition acme_a : record := {[ "company_name" := VStr "Acme" ]}.

(** The keys of the dictionary literal of lines 178-189. *)
Definition customer_base_fields : list string :=
  ["name"; "first_name"; "last_name"; "company_name"; "customer_type";
   "subscription_type"; "email"; "phone_number"; "dob"; "sex"].

(** The keys that lines 196-204 set. *)
Definition billing_fields : list string :=
  ["phone_number"; "payment_method"; "street"; "city"; "postcode";
   "card_number"; "card_cvv"].

(** The attributes of the entity [Customer] (lines 32-47), the automatic
    [id] apart. *)
Definition customer_attributes : list string :=
  ["first_name"; "last_name"; "customer_type"; "email"; "subscription_type";
   "company_name"; "phone_number"; "dob"; "sex"; "payment_method"; "street";
   "city"; "postcode"; "card_number"; "card_cvv"; "name"].

(** The record [r] has every field of the list. *)
Definition has_fields (fields : list string) (r : record) : Prop :=
  ∀ a, a ∈ fields → is_Some (r !! a).

(** The keys of the record built at lines 223-250. *)
Definition employee_fields : gset string :=
  {[ "salary" ]} ∪ ({[ "pension" ]} ∪ ({[ "commute_distance" ]} ∪ ∅))
  ∪ ({[ "vehicle_registration" ]} ∪ ({[ "vehicle_make" ]}
      ∪ ({[ "vehicle_model" ]} ∪ ({[ "vehicle_year" ]} ∪ ∅)))
     ∪ ({[ "employee_id" ]} ∪ ({[ "first_name" ]} ∪ ({[ "last_name" ]}
         ∪ ({[ "role" ]} ∪ ({[ "department" ]} ∪ ({[ "age" ]}
            ∪ ({[ "retired" ]} ∪ ({[ "dependants" ]}
               ∪ ({[ "marital_status" ]} ∪ ∅)))))))))).

(** The attributes of the entity [Employee] (lines 50-66). *)
Definition employee_attributes : gset string :=
  {[ "flagged_prompts" ]} ∪ employee_fields.

Definition salary_7 : record :=
  <["employee_id" := VInt 7]> (<["salary" := VFloat 50000.5%float]>
  (<["pension" := VInt 1200]> ∅)).
Definition salary_no_id : record := {[ "salary" := VInt 1 ]}.
Definition emp_7 : record :=
  <["employee_id" := VStr "7"]> (<["first_name" := VStr "Dee"]>
  (<["last_name" := VStr "Fox"]> ∅)).
Definition old_vehicle : Vehicle.t :=
  Vehicle.mk "Dee Fox" (Some "OLD 1") (Some "Fiat") (Some "Uno") 1999.
Definition other_salary_9 : record := {[ "employee_id" := VStr "9" ]}.
Definition new_vehicle : Vehicle.t :=
  Vehicle.mk "Dee Fox" (Some "NEW 2") None (Some "Punto") 2021.
Definition other_vehicle_b : Vehicle.t :=
  Vehicle.mk "Bob Ray" None None None 0.

Definition three_blocks : filesystem :=
  {[ "flagged.txt" :=
       "Employee ID: E1" +:+ String newline
         ("Timestamp: 10:00" +:+ String newline
           ("Employee ID: E2" +:+ String newline
             ("Timestamp: 11:00" +:+ String newline
               ("Employee ID: E1" +:+ String newline "Timestamp: 12:00")))) ]}.

(** The library in a run where no text parses: each parser raises the
    error [e]. *)
Definition failing_parsers (e : exn) : Parsers :=
  {| csv_DictReader := fun _ => Raise e;
     json_load := fun _ => Raise e;
     ET_parse := fun _ => Raise e |}.

Definition ann_csv : record :=
  <["first_name" := VStr "Ann"]> (<["last_name" := VStr "Lee"]>
  (<["email" := VStr "ann@old.example"]> ∅)).
Definition ann_moved : record :=
  <["first_name" := VStr "Ann"]> (<["last_name" := VStr "Lee"]>
  (<["email" := VStr "ann@new.example"]> ∅)).

(** A row as [csv.DictReader] gives it for a line of two cells under a
    header of four: the cells that the line lacks are [None]. *)
Definition emp_short : record :=
  <["employee_id" := VStr "E2"]> (<["first_name" := VStr "Cy"]>
  (<["last_name" := VNone]> (<["retired" := VNone]> ∅))).

Section Loaded_one.
Context {pony : Pony}.



End Loaded_one.

Definition row_cat : record :=
  <["name" := VStr "Cat Orr"]> (<["email" := VStr "cat@example.org"]>
  (<["city" := VStr "Hull"]> ∅)).
Definition cust_anon : record := {[ "name" := VStr "Anon" ]}.

Section Loaded_more.
Context {pony : Pony}.



End Loaded_more.

(** An ORM as [plain] that refuses [None] for [email] and for
    [vehicle_make], which lines 35 and 60 declare without
    [nullable=True]. *)
Definition not_null : Pony :=
  {| Customer_email := Customer_email (Pony := plain);
     collate s := s;
     Customer_new c _ :=
       match c !! "email" with
       | Some VNone => Raise ValueError
       | _ => Return c
       end;
     Customer_values _ c := Return c;
     Employee_key := Employee_key (Pony := plain);
     Employee_new e :=
       match e !! "vehicle_make" with
       | Some VNone => Raise ValueError
       | _ => Return e
       end;
     Employee_values _ e :=
       match e !! "vehicle_make" with
       | Some VNone => Raise ValueError
       | _ => Return e
       end |}.

Definition dee_csv : record :=
  <["first_name" := VStr "Dee"]> (<["last_name" := VStr "Fox"]> ∅).

(** * Properties *)

(** ** Strings *)

Lemma rstrip_cons_keep a s :
  Py.isspace a = false → Py.rstrip (String a s) = String a (Py.rstrip s).
Proof. intros Ha. simpl. rewrite Ha. by destruct (Py.rstrip s). Qed.

Lemma rstrip_idemp s : Py.rstrip (Py.rstrip s) = Py.rstrip s.
Proof.
  induction s as [|a s IH]; [done|].
  simpl. destruct (Py.rstrip s) as [|b r] eqn:E.
  - destruct (Py.isspace a) eqn:Ha; [done|]. simpl. by rewrite Ha.
  - change (Py.rstrip (String a (String b r))) with
      (match Py.rstrip (String b r) with
       | EmptyString => if Py.isspace a then EmptyString else String a EmptyString
       | r' => String a r'
       end).
    by rewrite IH.
Qed.

Lemma lstrip_head s :
  Py.lstrip s = "" ∨ ∃ a t, Py.lstrip s = String a t ∧ Py.isspace a = false.
Proof.
  induction s as [|a s IH]; [by left|].
  simpl. destruct (Py.isspace a) eqn:Ha; [done|]. right. eauto.
Qed.

Lemma strip_idemp s : Py.strip (Py.strip s) = Py.strip s.
Proof.
  unfold Py.strip. destruct (lstrip_head s) as [->|(a & t & -> & Ha)]; [done|].
  rewrite (rstrip_cons_keep _ _ Ha). simpl Py.lstrip. rewrite Ha.
  rewrite (rstrip_cons_keep _ _ Ha). by rewrite rstrip_idemp.
Qed.

(** ** Outcomes and runs *)

Lemma outcome_bind_return {A B} (m : outcome A) (f : A → outcome B) b :
  m ≫= f = Return b → ∃ a, m = Return a ∧ f a = Return b.
Proof. destruct m as [a|e]; [by exists a | done]. Qed.

(** ** Insertion-ordered dictionaries *)

Section odict.
Context {V : Type}.
Implicit Types (d : odict V) (k : string) (v : V).

Lemma od_lookup_set_eq k v d : od_lookup k (od_set k v d) = Some v.
Proof.
  induction d as [|[k' v'] d IH]; simpl.
  - by rewrite String.eqb_refl.
  - destruct (String.eqb k k') eqn:E; simpl; rewrite ?String.eqb_refl, ?E; done.
Qed.

Lemma od_lookup_set_ne k k' v d :
  k ≠ k' → od_lookup k' (od_set k v d) = od_lookup k' d.
Proof.
  intros Hne. induction d as [|[k0 v0] d IH]; simpl.
  - destruct (String.eqb_spec k' k); congruence.
  - destruct (String.eqb_spec k k0) as [->|]; simpl.
    + destruct (String.eqb_spec k' k0); congruence.
    + by rewrite IH.
Qed.

Lemma od_lookup_elem_of k v d : od_lookup k d = Some v → (k, v) ∈ d.
Proof.
  induction d as [|[k' v'] d IH]; simpl; [done|].
  destruct (String.eqb_spec k k') as [->|].
  - intros [= ->]. left.
  - intros. right. auto.
Qed.

Lemma od_set_elem_of k v k' v' d :
  (k', v') ∈ od_set k v d → (k', v') = (k, v) ∨ (k', v') ∈ d.
Proof.
  induction d as [|[k0 v0] d IH]; simpl.
  - intros ->%list_elem_of_singleton. by left.
  - destruct (String.eqb k k0).
    + intros [->|?]%elem_of_cons; [by left | right; by right].
    + intros [->|?]%elem_of_cons; [right; left |].
      destruct IH as [?|?]; [done | by left | right; by right].
Qed.

Lemma od_set_keys k v d :
  od_lookup k d ≠ None → map fst (od_set k v d) = map fst d.
Proof.
  induction d as [|[k0 v0] d IH]; simpl; [done|].
  destruct (String.eqb_spec k k0) as [->|]; simpl; [done|].
  intros. by rewrite IH.
Qed.

Lemma od_set_keys_new k v d :
  od_lookup k d = None → map fst (od_set k v d) = map fst d ++ [k].
Proof.
  induction d as [|[k0 v0] d IH]; simpl; [done|].
  destruct (String.eqb_spec k k0) as [->|]; simpl; [done|].
  intros. by rewrite IH.
Qed.

Lemma od_lookup_None k d : od_lookup k d = None ↔ k ∉ map fst d.
Proof.
  induction d as [|[k0 v0] d IH]; simpl.
  - split; [intros _; apply not_elem_of_nil | done].
  - rewrite not_elem_of_cons. destruct (String.eqb_spec k k0) as [->|].
    + split; [done | intros []; done].
    + rewrite IH. tauto.
Qed.

Lemma od_set_NoDup k v d : NoDup (map fst d) → NoDup (map fst (od_set k v d)).
Proof.
  intros Hd. destruct (od_lookup k d) eqn:E.
  - rewrite od_set_keys; [done | congruence].
  - rewrite od_set_keys_new by done.
    apply NoDup_app. split_and!; [done | | apply NoDup_singleton].
    intros x Hx ->%list_elem_of_singleton. by apply od_lookup_None in E.
Qed.

End odict.

Lemma io_bind_Return {A B} (m : io A) (f : A → io B) a :
  result m = Return a → m ≫= f = Io (result (f a)) (trace m ++ trace (f a)).
Proof. unfold mbind, io_bind. by intros ->. Qed.

Lemma io_bind_Raise {A B} (m : io A) (f : A → io B) e :
  result m = Raise e → m ≫= f = Io (Raise e) (trace m).
Proof. unfold mbind, io_bind. by intros ->. Qed.


(** ** Transformation of customers and employees *)

Lemma customer_key_unnamed c : named c = false → customer_key c = Return None.
Proof. unfold named, customer_key. by intros ->. Qed.

Lemma customers_loop_filter d cs :
  customers_loop d (filter named cs) = customers_loop d cs.
Proof.
  revert d. induction cs as [|c cs IH]; intros d; [done|].
  rewrite filter_cons. destruct (decide (named c)) as [Hc|Hc].
  - simpl. destruct (customer_key c) as [[k|]|e]; simpl; auto.
  - simpl. rewrite customer_key_unnamed by (by destruct (named c)). simpl. auto.
Qed.

Lemma customer_key_not_blank c k :
  customer_key c = Return (Some k) → company_not_blank c → k ≠ "".
Proof.
  unfold customer_key, customer_name, py_or, company_not_blank.
  set (composed := Py.strip _).
  change (truthy (VStr composed)) with (negb (String.eqb composed "")).
  destruct (String.eqb composed "") eqn:E; simpl; rewrite ?E; simpl.
  - unfold get. destruct (c !! "company_name") as [v|] eqn:Hv; simpl; [|done].
    destruct v as [|b|z|f|s]; simpl; try (by repeat case_match).
    destruct (String.eqb_spec s ""); simpl; [done|].
    intros [= <-] Hc. destruct (Hc s eq_refl); done.
  - intros [= <-] _. apply String.eqb_neq in E. subst composed.
    by rewrite strip_idemp.
Qed.


Lemma customers_merge_names k c d :
  k ≠ "" → c !! "name" = None → names_kept d → names_kept (customers_merge k c d).
Proof.
  intros Hk Hc Hd k' r'. unfold customers_merge, od_setdefault.
  destruct (od_lookup k d) as [r|] eqn:E.
  - intros [[= -> ->]|?]%od_set_elem_of; [|by apply Hd].
    split; [done|]. rewrite lookup_union_r by done.
    by apply (Hd k r), od_lookup_elem_of.
  - intros [[= -> ->]|[[= -> ->]|?]%od_set_elem_of]%od_set_elem_of;
      [| |by apply Hd]; (split; [done|]); by rewrite ?lookup_union_r.
Qed.

Lemma customers_loop_names d cs d' :
  customers_loop d cs = Return d' →
  (∀ c, c ∈ cs → c !! "name" = None ∧ company_not_blank c) →
  names_kept d → names_kept d'.
Proof.
  revert d. induction cs as [|c cs IH]; intros d; simpl.
  - by intros [= ->].
  - intros Hrun Hcs Hd. apply outcome_bind_return in Hrun as ([k|] & Hk & Hrun).
    + destruct (Hcs c) as [Hname Hblank]; [left|].
      eapply IH; [done | intros; apply Hcs; by right |].
      apply customers_merge_names; [|done..]. by eapply customer_key_not_blank.
    + eapply IH; [done | intros; apply Hcs; by right | done].
Qed.

Lemma employee_info_id vehicles salaries emp employee_id r :
  employee_info vehicles salaries emp employee_id = Return r →
  r !! "employee_id" = Some employee_id.
Proof.
  unfold employee_info.
  intros (age & _ & (retired & _ & (dependants & _ & [= <-])%outcome_bind_return
    )%outcome_bind_return)%outcome_bind_return.
  by simplify_map_eq.
Qed.


Lemma employees_loop_return vehicles salaries emps out :
  result (employees_loop vehicles salaries emps) = Return out →
  Forall2 (built_from vehicles salaries) (filter identified emps) out
  ∧ trace (employees_loop vehicles salaries emps)
    = PrintSkipping <$> filter (λ e, ¬ identified e) emps.
Proof.
  revert out. induction emps as [|emp emps IH]; intros out; simpl.
  - intros [= <-]. by split.
  - change (truthy (get emp "employee_id" (VStr ""))) with (identified emp).
    destruct (result (employees_loop vehicles salaries emps)) as [more|e] eqn:Hmore.
    2: { destruct (identified emp); simpl.
         - destruct (employee_info _ _ _ _); simpl; [|done].
           by rewrite (io_bind_Raise _ _ _ Hmore).
         - by rewrite Hmore. }
    destruct (IH _ eq_refl) as [IH1 IH2].
    destruct (decide (identified emp)) as [Hid|Hid].
    + rewrite filter_cons_True, filter_cons_False by tauto.
      rewrite (Is_true_true_1 _ Hid). simpl.
      destruct (employee_info _ _ _ _) as [info|] eqn:Hinfo; simpl; [|done].
      rewrite (io_bind_Return _ _ _ Hmore). simpl.
      intros [= <-]. split; [by constructor|]. by rewrite app_nil_r.
    + rewrite filter_cons_False, filter_cons_True by tauto.
      apply Is_true_false_1 in Hid. rewrite Hid. simpl. rewrite Hmore.
      intros [= <-]. split; [done|]. by rewrite IH2.
Qed.

Lemma transform_employees_return employee_csv vehicle_data salary_data out :
  result (transform_employees employee_csv vehicle_data salary_data) = Return out →
  ∃ salaries, salary_dict salary_data = Return salaries
  ∧ Forall2 (built_from (vehicle_dict vehicle_data) salaries)
            (filter identified employee_csv) out
  ∧ trace (transform_employees employee_csv vehicle_data salary_data)
    = PrintSkipping <$> filter (λ e, ¬ identified e) employee_csv.
Proof.
  unfold transform_employees.
  destruct (salary_dict salary_data) as [salaries|e] eqn:Hs; simpl; [|done].
  intros [H1 H2]%employees_loop_return. by exists salaries.
Qed.

(** ** C3 and C4: records without a name or an id *)

Lemma identified_lookup (emp : record) :
  identified emp → emp !! "employee_id" = Some (get emp "employee_id" (VStr "")).
Proof. unfold identified, get. by destruct (emp !! "employee_id"). Qed.

(** C4, at the input where it fails.  The record [blank_company] has no
    first or last name, so that the composed name is empty, and a company
    name made of two blanks; it is not excluded: the output holds one
    record for it, whose [name] is the empty string. *)
Theorem C4_blank_company_name_kept :
  Py.strip (py_str (get blank_company "first_name" (VStr "")) +:+ " "
            +:+ py_str (get blank_company "last_name" (VStr ""))) = ""
  ∧ get blank_company "company_name" (VStr "") = VStr "  "
  ∧ Py.strip "  " = ""
  ∧ transform_customers [blank_company] []
    = Io (Return [blank_company ∪ customer_defaults "" blank_company]) []
  ∧ (blank_company ∪ customer_defaults "" blank_company) !! "name"
    = Some (VStr "").
Proof. repeat split; vm_compute; reflexivity. Qed.

(** C3 as stated fails: the customer record [nameless] has neither a
    name nor a company name, it is dropped from the output, and nothing
    is logged or printed for it. *)
Lemma C3_dropped_customer_without_warning :
  named nameless = false
  ∧ result (transform_customers [nameless] []) = Return []
  ∧ ¬ ∃ e, e ∈ trace (transform_customers [nameless] []).
Proof.
  split_and!; [reflexivity..|]. intros [e He]. by apply elem_of_nil in He.
Qed.

(** C3, amended.  When the two transformations return:
    - [transform_customers] logs nothing, and its output is the one it
      gives on the records that have a name at line 176, the others being
      dropped silently;
    - when no input record has a [name] field of its own or a company
      name made of blanks only, every customer record of the output has a
      non-empty [name];
    - every employee record of the output has a non-empty [employee_id],
      the output has one record for each input record with a non-empty
      [employee_id], in order, and [transform_employees] prints one
      "Skipping employee" line for each of the other input records. *)
Theorem C3_transform_invariant
    (csv_data json_data employee_csv : list record)
    (vehicle_data : list Vehicle.t) (salary_data : list record)
    (customers employees : list record) :
  result (transform_customers csv_data json_data) = Return customers →
  result (transform_employees employee_csv vehicle_data salary_data)
    = Return employees →
  transform_customers csv_data json_data = Io (Return customers) []
  ∧ transform_customers (filter named csv_data) (filter named json_data)
    = Io (Return customers) []
  ∧ ((∀ c, c ∈ csv_data ++ json_data →
           c !! "name" = None ∧ company_not_blank c) →
     ∀ r, r ∈ customers → ∃ k, r !! "name" = Some (VStr k) ∧ k ≠ "")
  ∧ (∀ r, r ∈ employees → ∃ v, r !! "employee_id" = Some v ∧ truthy v = true)
  ∧ (λ r : record, r !! "employee_id") <$> employees
    = (λ e : record, e !! "employee_id") <$> filter identified employee_csv
  ∧ trace (transform_employees employee_csv vehicle_data salary_data)
    = PrintSkipping <$> filter (λ e, ¬ identified e) employee_csv.
Proof.
  intros Hc He.
  assert (transform_customers csv_data json_data = Io (Return customers) [])
    as Hrun.
  { unfold transform_customers, lift in *. simpl in Hc. by rewrite Hc. }
  split; [done|]. split.
  { rewrite <- Hrun. unfold transform_customers, customers_dict.
    by rewrite <- filter_app, customers_loop_filter. }
  split.
  { intros Hin r Hr. unfold transform_customers, customers_dict in Hc.
    simpl in Hc.
    destruct (customers_loop [] (csv_data ++ json_data)) as [d|] eqn:Hd;
      [|done].
    injection Hc as <-. unfold od_values in Hr.
    apply list_elem_of_fmap in Hr as ([k r'] & -> & Hr).
    exists k. simpl.
    eapply (customers_loop_names _ _ _ Hd Hin) in Hr as [? ?]; [done|].
    intros ? ? []%elem_of_nil. }
  apply transform_employees_return in He as (salaries & _ & Hbuilt & Htrace).
  split_and!; [| |done].
  - intros r Hr.
    apply list_elem_of_lookup in Hr as [i Hi].
    destruct (Forall2_lookup_r _ _ _ _ _ Hbuilt Hi) as (emp & Hemp & Hb).
    exists (get emp "employee_id" (VStr "")). split.
    + by eapply employee_info_id.
    + apply list_elem_of_lookup_2, list_elem_of_filter in Hemp as [Hid _].
      by apply Is_true_true_1.
  - assert (Forall (λ e, identified e) (filter identified employee_csv)) as Hall.
    { apply Forall_forall. by intros e [? _]%list_elem_of_filter. }
    induction Hbuilt as [|emp r emps rs Hb _ IH]; [done|].
    apply Forall_cons in Hall as [Hid Hall].
    rewrite !fmap_cons. f_equal; [|by apply IH].
    rewrite (employee_info_id _ _ _ _ _ Hb). symmetry.
    by apply identified_lookup.
Qed.

(** C3, amended, on two customers (one without a name) and two employees
    (one without an id). *)
Lemma C3_transform_invariant_witness :
  transform_customers [ann; nameless] [] = Io (Return [ann ∪ customer_defaults "Ann Lee" ann]) []
  ∧ transform_customers [ann] [] = Io (Return [ann ∪ customer_defaults "Ann Lee" ann]) []
  ∧ (∀ r, r ∈ [ann ∪ customer_defaults "Ann Lee" ann] →
          ∃ k, r !! "name" = Some (VStr k) ∧ k ≠ "")
  ∧ trace (transform_employees [emp_e1; emp_no_id] [] [])
    = [PrintSkipping emp_no_id].
Proof.
  destruct (C3_transform_invariant [ann; nameless] [] [emp_e1; emp_no_id] [] []
              [ann ∪ customer_defaults "Ann Lee" ann]
              (default [] (match result (transform_employees [emp_e1; emp_no_id] [] []) with
                           | Return l => Some l | Raise _ => None end)))
    as (H1 & H2 & H3 & _ & _ & H6); [reflexivity..|].
  split_and!; [exact H1 | exact H2 | | exact H6].
  apply H3. intros c Hc.
  apply elem_of_cons in Hc as [->|Hc]; [|apply elem_of_cons in Hc as [->|Hc]].
  - split; [reflexivity|]. intros s Hs. discriminate Hs.
  - split; [reflexivity|]. intros s Hs. discriminate Hs.
  - by apply elem_of_nil in Hc.
Defined.

(** ** C2: two sources, one key *)

Lemma customers_merge_lookup_eq k c (d : odict record) :
  od_lookup k (customers_merge k c d)
  = Some (c ∪ default (customer_defaults k c) (od_lookup k d)).
Proof.
  unfold customers_merge, od_setdefault.
  destruct (od_lookup k d); simpl; apply od_lookup_set_eq.
Qed.

Lemma customers_merge_lookup_ne k k' c (d : odict record) :
  k ≠ k' → od_lookup k' (customers_merge k c d) = od_lookup k' d.
Proof.
  intros Hne. unfold customers_merge, od_setdefault.
  destruct (od_lookup k d); simpl; by rewrite !od_lookup_set_ne.
Qed.

Lemma customers_merge_NoDup k c (d : odict record) :
  NoDup (map fst d) → NoDup (map fst (customers_merge k c d)).
Proof.
  intros Hd. unfold customers_merge, od_setdefault.
  destruct (od_lookup k d); simpl; by repeat apply od_set_NoDup.
Qed.

Lemma customers_loop_app d l1 l2 :
  customers_loop d (l1 ++ l2) = customers_loop d l1 ≫= λ d', customers_loop d' l2.
Proof.
  revert d. induction l1 as [|c l1 IH]; intros d; simpl; [done|].
  destruct (customer_key c) as [[k|]|e]; simpl; auto.
Qed.

Lemma customers_loop_other_keys k d l :
  Forall (other_key k) l → NoDup (map fst d) →
  ∃ d', customers_loop d l = Return d'
        ∧ od_lookup k d' = od_lookup k d ∧ NoDup (map fst d').
Proof.
  intros Hl. revert d. induction Hl as [|c l (o & Ho & Hne) _ IH]; intros d Hd.
  - by exists d.
  - simpl. rewrite Ho. simpl. destruct o as [k'|].
    + destruct (IH (customers_merge k' c d)) as (d' & -> & Hk & Hd').
      { by apply customers_merge_NoDup. }
      exists d'. split_and!; [done | | done].
      rewrite Hk. apply customers_merge_lookup_ne. congruence.
    + by apply IH.
Qed.

Lemma od_filter_absent {V} k (d : odict V) :
  k ∉ map fst d → filter (λ e, e.1 = k) d = [].
Proof.
  induction d as [|[k' v'] d IH]; simpl; [done|].
  intros [Hne Hd]%not_elem_of_cons. rewrite filter_cons. simpl.
  rewrite decide_False by congruence. by apply IH.
Qed.

Lemma od_filter_key {V} k (v : V) (d : odict V) :
  NoDup (map fst d) → od_lookup k d = Some v →
  filter (λ e, e.1 = k) d = [(k, v)].
Proof.
  induction d as [|[k' v'] d IH]; simpl; [done|].
  intros [Hk' Hd]%NoDup_cons. rewrite filter_cons. simpl.
  destruct (String.eqb_spec k k') as [->|Hne].
  - intros [= ->]. rewrite decide_True by done. f_equal.
    by apply od_filter_absent.
  - intros Hv. rewrite decide_False by congruence. by apply IH.
Qed.

(** C2, amended.  Let [c1] be a record of the CSV source and [c2] a
    record of the JSON source with the same key [k], every other record of
    the two sources having another key or no name.  Then
    [transform_customers] returns the records of the entries of its
    dictionary, one for each entry and in their order; the dictionary has
    exactly one entry for [k]; the record of this entry has every field of
    [c1] and of [c2], and where [c2] defines a field, it has the value of
    [c2]. *)
Theorem C2_same_key_merged (pre1 post1 pre2 post2 : list record)
    (c1 c2 : record) (k : string) :
  customer_key c1 = Return (Some k) →
  customer_key c2 = Return (Some k) →
  Forall (other_key k) (pre1 ++ post1 ++ pre2 ++ post2) →
  let merged := c2 ∪ (c1 ∪ customer_defaults k c1) in
  ∃ d out,
    customers_dict (pre1 ++ c1 :: post1) (pre2 ++ c2 :: post2) = Return d
    ∧ transform_customers (pre1 ++ c1 :: post1) (pre2 ++ c2 :: post2)
      = Io (Return out) []
    ∧ Forall2 (λ e r, r = e.2) d out
    ∧ filter (λ e, e.1 = k) d = [(k, merged)]
    ∧ (∀ f v, c2 !! f = Some v → merged !! f = Some v)
    ∧ (∀ f v, c1 !! f = Some v → c2 !! f = None → merged !! f = Some v).
Proof.
  intros H1 H2 Hothers merged.
  apply Forall_app in Hothers as [Hpre1 Hothers].
  apply Forall_app in Hothers as [Hpost1 Hothers].
  apply Forall_app in Hothers as [Hpre2 Hpost2].
  unfold transform_customers, customers_dict.
  destruct (customers_loop_other_keys k [] pre1 Hpre1) as (d1 & E1 & K1 & N1);
    [constructor|].
  destruct (customers_loop_other_keys k (customers_merge k c1 d1) post1 Hpost1)
    as (d2 & E2 & K2 & N2); [by apply customers_merge_NoDup|].
  destruct (customers_loop_other_keys k d2 pre2 Hpre2) as (d3 & E3 & K3 & N3);
    [done|].
  destruct (customers_loop_other_keys k (customers_merge k c2 d3) post2 Hpost2)
    as (d4 & E4 & K4 & N4); [by apply customers_merge_NoDup|].
  assert (customers_loop [] ((pre1 ++ c1 :: post1) ++ pre2 ++ c2 :: post2)
          = Return d4) as Hrun.
  { rewrite customers_loop_app, customers_loop_app, E1. simpl.
    rewrite H1. simpl. rewrite E2. simpl.
    rewrite customers_loop_app, E3. simpl. by rewrite H2. }
  exists d4, (od_values d4). rewrite Hrun. split_and!; [done | done | | | |].
  - unfold od_values. clear. induction d4; by constructor.
  - apply od_filter_key; [done|].
    rewrite K4, customers_merge_lookup_eq, K3, K2, customers_merge_lookup_eq, K1.
    done.
  - intros f v Hf. by apply lookup_union_Some_l.
  - intros f v Hf Hnone. unfold merged.
    rewrite lookup_union_r by done. by apply lookup_union_Some_l.
Qed.

(** C2 as stated fails for a pair that a third record of the key follows:
    the CSV record [ann_csv] and the JSON record [ann_json] have the key
    of the later JSON record [ann_moved]; the one record returned has the
    email of [ann_moved], not the one of [ann_json]. *)
Lemma C2_third_record_overrides :
  customer_key ann_csv = Return (Some "Ann Lee")
  ∧ customer_key ann_json = Return (Some "Ann Lee")
  ∧ ann_csv !! "email" = Some (VStr "ann@old.example")
  ∧ ann_json !! "email" = Some (VStr "ann@example.org")
  ∧ transform_customers [ann_csv] [ann_json; ann_moved]
    = Io (Return [ann_moved
                  ∪ (ann_json
                     ∪ (ann_csv ∪ customer_defaults "Ann Lee" ann_csv))]) []
  ∧ (ann_moved
     ∪ (ann_json ∪ (ann_csv ∪ customer_defaults "Ann Lee" ann_csv)))
    !! "email" = Some (VStr "ann@new.example").
Proof. split_and!; reflexivity. Qed.

(** C2, amended, on one CSV record and one JSON record of the same name,
    between records of another name and without name. *)
Lemma C2_same_key_merged_witness :
  ∃ d out,
    customers_dict [cust_zed; ann_csv] [nameless; ann_json] = Return d
    ∧ transform_customers [cust_zed; ann_csv] [nameless; ann_json]
      = Io (Return out) []
    ∧ Forall2 (λ e r, r = e.2) d out
    ∧ filter (λ e, e.1 = "Ann Lee") d
      = [("Ann Lee",
          ann_json ∪ (ann_csv ∪ customer_defaults "Ann Lee" ann_csv))]
    ∧ (ann_json ∪ (ann_csv ∪ customer_defaults "Ann Lee" ann_csv))
      !! "email" = Some (VStr "ann@example.org").
Proof.
  destruct (C2_same_key_merged [cust_zed] [] [nameless] []
              ann_csv ann_json "Ann Lee")
    as (d & out & H1 & H2 & H3 & H4 & H5 & _).
  - reflexivity.
  - reflexivity.
  - repeat apply Forall_cons_2; try apply Forall_nil_2.
    + exists None. by split.
    + exists None. by split.
  - exists d, out. split_and!; [exact H1 | exact H2 | exact H3 | exact H4 |].
    by apply H5.
Defined.

(** ** C5: an employee without vehicle or salary *)

Lemma safe_int_str s dflt : ∃ z, safe_int (VStr s) dflt = Return z.
Proof.
  unfold safe_int, py_int. destruct (PyInt.of_string s); eauto.
Qed.

Lemma csv_row_get (emp : record) k s :
  csv_row emp → ∃ s', get emp k (VStr s) = VStr s'.
Proof.
  intros Hrow. unfold get. destruct (emp !! k) as [v|] eqn:E; simpl; [|eauto].
  destruct (Hrow k v E) as [s' ->]. eauto.
Qed.

Lemma employee_info_csv_row vehicles salaries emp employee_id :
  csv_row emp → ∃ r, employee_info vehicles salaries emp employee_id = Return r.
Proof.
  intros Hrow. unfold employee_info.
  assert (∃ age, safe_int (get_none emp "age") 0 = Return age) as [age ->].
  { unfold get_none, get. destruct (emp !! "age") as [v|] eqn:E; simpl.
    - destruct (Hrow _ _ E) as [s ->]. apply safe_int_str.
    - by exists 0. }
  assert (∃ flag, retired_flag emp = Return flag) as [flag ->].
  { unfold retired_flag.
    destruct (csv_row_get emp "retired" "false" Hrow) as [s ->]. eauto. }
  assert (∃ n, safe_int (get emp "dependants" (VInt 0)) 0 = Return n) as [n ->].
  { unfold get. destruct (emp !! "dependants") as [v|] eqn:E; simpl.
    - destruct (Hrow _ _ E) as [s ->]. apply safe_int_str.
    - by exists 0. }
  simpl. eauto.
Qed.

Lemma employees_loop_csv_rows vehicles salaries emps :
  Forall csv_row emps →
  ∃ out, result (employees_loop vehicles salaries emps) = Return out.
Proof.
  induction 1 as [|emp emps Hrow _ [out IH]]; simpl; [by exists []|].
  destruct (truthy _); simpl.
  - destruct (employee_info_csv_row vehicles salaries emp
                (get emp "employee_id" (VStr "")) Hrow) as [r ->].
    simpl. rewrite (io_bind_Return _ _ _ IH). simpl. eauto.
  - rewrite IH. eauto.
Qed.

Section keyed.
Context {V : Type} (key : V → string).

(** A dictionary comprehension [{key(v): v for v in l}], from [m]. *)
Lemma foldl_insert_absent n (l : list V) (m : gmap string V) :
  Forall (λ v, key v ≠ n) l → m !! n = None →
  foldl (λ m v, <[key v := v]> m) m l !! n = None.
Proof.
  intros Hall. revert m. induction Hall as [|v l Hv _ IH]; intros m Hm; [done|].
  simpl. apply IH. by rewrite lookup_insert_ne.
Qed.

Lemma foldl_insert_last (pre post : list V) (v : V) (m : gmap string V) :
  Forall (λ v', key v' ≠ key v) post →
  foldl (λ m v, <[key v := v]> m) m (pre ++ v :: post) !! key v = Some v.
Proof.
  intros Hpost. rewrite foldl_app. simpl.
  generalize (foldl (λ m v, <[key v := v]> m) m pre) as m'. intros m'.
  assert (<[key v := v]> m' !! key v = Some v) as Hm by apply lookup_insert_eq.
  revert Hm. generalize (<[key v := v]> m') as m''.
  induction Hpost as [|v' l Hv' _ IH]; intros m'' Hm; [done|].
  simpl. apply IH. by rewrite lookup_insert_ne.
Qed.

End keyed.

Lemma vehicle_dict_absent n (vehicle_data : list Vehicle.t) :
  Forall (λ v, Vehicle.FullName v ≠ n) vehicle_data →
  vehicle_dict vehicle_data !! n = None.
Proof. intros. by apply foldl_insert_absent. Qed.

Lemma salary_dict_from_absent eid (salary_data : list record) m :
  Forall (salary_of_other eid) salary_data → m !! eid = None →
  ∃ m', salary_dict_from m salary_data = Return m' ∧ m' !! eid = None.
Proof.
  intros Hall. revert m.
  induction Hall as [|s l (v & Hv & Hne) _ IH]; intros m Hm; simpl.
  - by exists m.
  - unfold item. rewrite Hv. simpl. apply IH. by rewrite lookup_insert_ne.
Qed.

Lemma employee_info_defaults vehicles salaries emp eid r :
  employee_info vehicles salaries emp (VStr eid) = Return r →
  vehicles !! full_name emp = None → salaries !! eid = None →
  r !! "employee_id" = Some (VStr eid)
  ∧ r !! "first_name" = Some (get emp "first_name" (VStr "Unknown"))
  ∧ r !! "last_name" = Some (get emp "last_name" (VStr "Unknown"))
  ∧ side_defaults r.
Proof.
  unfold employee_info. fold (full_name emp).
  intros (age & _ & (retired & _ & (dependants & _ & [= <-])%outcome_bind_return
    )%outcome_bind_return)%outcome_bind_return Hv Hs.
  unfold salary_for, side_defaults. rewrite Hv, Hs. simpl.
  split_and!; by simplify_map_eq.
Qed.

(** C5.  Let [emp] be a row of the employee CSV, all of whose rows have
    strings in their cells, with a non-empty [employee_id]; let no vehicle
    record carry its full name and no salary record its id.  Then
    [transform_employees] returns, and its output has a record for [emp]
    (same id, first and last name) whose vehicle registration, make and
    model are the empty string and whose vehicle year, salary, pension and
    commute distance are 0. *)
Theorem C5_unmatched_employee_defaults (employee_csv : list record)
    (vehicle_data : list Vehicle.t) (salary_data : list record)
    (emp : record) (eid : string) :
  Forall csv_row employee_csv →
  emp ∈ employee_csv →
  emp !! "employee_id" = Some (VStr eid) → eid ≠ "" →
  Forall (λ v, Vehicle.FullName v ≠ full_name emp) vehicle_data →
  Forall (salary_of_other eid) salary_data →
  ∃ out r,
    result (transform_employees employee_csv vehicle_data salary_data)
      = Return out
    ∧ r ∈ out
    ∧ r !! "employee_id" = Some (VStr eid)
    ∧ r !! "first_name" = Some (get emp "first_name" (VStr "Unknown"))
    ∧ r !! "last_name" = Some (get emp "last_name" (VStr "Unknown"))
    ∧ side_defaults r.
Proof.
  intros Hrows Hin Hid Hne Hveh Hsal.
  destruct (salary_dict_from_absent eid salary_data ∅ Hsal)
    as (salaries & Hdict & Hnone); [done|].
  destruct (employees_loop_csv_rows (vehicle_dict vehicle_data) salaries
              employee_csv Hrows) as [out Hout].
  assert (result (transform_employees employee_csv vehicle_data salary_data)
          = Return out) as Hrun.
  { unfold transform_employees, salary_dict. rewrite Hdict. simpl. done. }
  apply employees_loop_return in Hout as [Hbuilt _].
  assert (get emp "employee_id" (VStr "") = VStr eid) as Hget.
  { unfold get. by rewrite Hid. }
  assert (emp ∈ filter identified employee_csv) as Hin'.
  { apply list_elem_of_filter. split; [|done].
    unfold identified. rewrite Hget. simpl.
    by destruct (String.eqb_spec eid ""). }
  apply list_elem_of_lookup in Hin' as [i Hi].
  destruct (Forall2_lookup_l _ _ _ _ _ Hbuilt Hi) as (r & Hr & Hb).
  exists out, r. split; [done|]. split; [by eapply list_elem_of_lookup_2|].
  unfold built_from in Hb. rewrite Hget in Hb.
  apply (employee_info_defaults _ _ _ _ _ Hb); [|done].
  by apply vehicle_dict_absent.
Qed.

(** C5 on one employee, with a vehicle and a salary of other people. *)
Lemma C5_unmatched_employee_defaults_witness :
  ∃ out r,
    result (transform_employees [emp_e1; emp_no_id] [other_vehicle] [other_salary])
      = Return out
    ∧ r ∈ out
    ∧ r !! "employee_id" = Some (VStr "E1")
    ∧ r !! "first_name" = Some (VStr "Bob")
    ∧ r !! "last_name" = Some (VStr "Ray")
    ∧ side_defaults r.
Proof.
  apply (C5_unmatched_employee_defaults [emp_e1; emp_no_id] [other_vehicle]
           [other_salary] emp_e1 "E1").
  - repeat constructor; intros k v Hkv; unfold emp_e1, emp_no_id in Hkv.
    + apply lookup_insert_Some in Hkv as [[_ <-]|[_ Hkv]]; [eauto|].
      apply lookup_insert_Some in Hkv as [[_ <-]|[_ Hkv]]; [eauto|].
      apply lookup_insert_Some in Hkv as [[_ <-]|[_ Hkv]]; [eauto|].
      discriminate Hkv.
    + apply lookup_singleton_Some in Hkv as [_ <-]. eauto.
  - left.
  - reflexivity.
  - discriminate.
  - repeat constructor. discriminate.
  - repeat constructor. exists (VInt 7). split; [reflexivity | discriminate].
Defined.

(** C5 as stated fails on a row of a short line: [emp_short] has a
    non-empty id, and there is no vehicle and no salary record; its cell
    [retired] is [None], and line 230 raises.  No record is returned then,
    for no employee. *)
Lemma C5_short_row_raises :
  emp_short !! "employee_id" = Some (VStr "E2")
  ∧ transform_employees [emp_short] [] [] = Io (Raise AttributeError) []
  ∧ transform_employees [emp_e1; emp_short] [] []
    = Io (Raise AttributeError) [].
Proof. split_and!; reflexivity. Qed.

(** ** C8: the billing join *)

Lemma with_billing_loop_total m (basic : list record) :
  Forall (λ c : record, is_Some (c !! "name")) basic →
  ∃ out, with_billing_loop m basic = Return out
         ∧ Forall2 (λ cust cust', with_billing m cust = Return cust') basic out.
Proof.
  induction 1 as [|cust basic [n Hn] _ (out & IH & Hall)]; simpl.
  - exists []. by split.
  - unfold with_billing at 1, item. rewrite Hn. simpl. rewrite IH. simpl.
    eexists. split; [done|]. constructor; [|done].
    unfold with_billing, item. by rewrite Hn.
Qed.

Lemma billing_update_attached cust b (r : record) :
  billing_attached b (billing_update cust (Some b) ∪ r).
Proof.
  unfold billing_attached, billing_update, bget.
  split_and!; (erewrite lookup_union_Some_l; [done|]); by simplify_map_eq.
Qed.

Lemma billing_update_blank cust (r : record) :
  billing_blank (billing_update cust None ∪ r).
Proof.
  unfold billing_blank, billing_update, bget.
  split_and!; (erewrite lookup_union_Some_l; [done|]); by simplify_map_eq.
Qed.

Lemma last_occurrence {A} (P : A → Prop) `{∀ x, Decision (P x)} (l : list A) :
  (∃ x, x ∈ l ∧ P x) →
  ∃ pre x post, l = pre ++ x :: post ∧ P x ∧ Forall (λ y, ¬ P y) post.
Proof.
  induction l as [|y l IH]; intros (x & Hx & HP).
  - by apply elem_of_nil in Hx.
  - destruct (decide (Exists P l)) as [Hl|Hl].
    + apply Exists_exists in Hl.
      destruct (IH Hl) as (pre & x' & post & -> & HP' & Hpost).
      by exists (y :: pre), x', post.
    + apply not_Exists_Forall in Hl; [|done].
      apply elem_of_cons in Hx as [->|Hx].
      * exists [], y, l. by split.
      * exfalso. rewrite Forall_forall in Hl. naive_solver.
Qed.

(** C8.  For customer records that have a [name] (as those of
    [transform_customers] do), the join returns one record per customer,
    in order.  The billing fields of a customer are those of the billing
    record of exactly the same name, the last one when several have it, so
    that they are those of some billing record of that name whenever there
    is one; they are the empty string when no billing record has exactly
    that name. *)
Theorem C8_billing_join (basic : list record) (billing : list Billing.t) :
  Forall (λ c : record, is_Some (c !! "name")) basic →
  ∃ out,
    transform_customers_with_billing basic billing = Io (Return out) []
    ∧ length out = length basic
    ∧ ∀ i cust n, basic !! i = Some cust → cust !! "name" = Some n →
        ∃ cust', out !! i = Some cust'
          ∧ (∀ pre b post, billing = pre ++ b :: post →
               VStr (Billing.name b) = n →
               Forall (λ b', Billing.name b' ≠ Billing.name b) post →
               billing_attached b cust')
          ∧ ((∃ b, b ∈ billing ∧ VStr (Billing.name b) = n) →
             ∃ b, b ∈ billing ∧ VStr (Billing.name b) = n
                  ∧ billing_attached b cust')
          ∧ (Forall (λ b, VStr (Billing.name b) ≠ n) billing →
             billing_blank cust').
Proof.
  intros Hnames.
  destruct (with_billing_loop_total (billing_map billing) basic Hnames)
    as (out & Hrun & Hall).
  exists out. unfold transform_customers_with_billing, lift. rewrite Hrun.
  split; [done|]. split; [symmetry; by eapply Forall2_length|].
  intros i cust n Hi Hn.
  destruct (Forall2_lookup_l _ _ _ _ _ Hall Hi) as (cust' & Hi' & Hc).
  exists cust'. split; [done|].
  unfold with_billing, item in Hc. rewrite Hn in Hc. simpl in Hc.
  injection Hc as <-.
  assert (∀ pre b post, billing = pre ++ b :: post →
            VStr (Billing.name b) = n →
            Forall (λ b', Billing.name b' ≠ Billing.name b) post →
            billing_attached b
              (billing_update cust (billing_for (billing_map billing) n) ∪ cust))
    as Hlast.
  { intros pre b post -> <- Hpost. simpl. unfold billing_map.
    rewrite (foldl_insert_last Billing.name pre post b ∅ Hpost).
    apply billing_update_attached. }
  split; [done|]. split.
  - intros (b0 & Hin0 & Hname0).
    destruct (last_occurrence (λ b, Billing.name b = Billing.name b0) billing)
      as (pre & b & post & Hb & Hname & Hpost).
    { by exists b0. }
    exists b. split; [rewrite Hb; apply elem_of_app; right; left|].
    assert (VStr (Billing.name b) = n) as Hbn by congruence.
    split; [done|]. apply (Hlast pre b post Hb Hbn).
    eapply Forall_impl; [exact Hpost|]. simpl. intros b' Hb'. congruence.
  - intros Hnone.
    assert (billing_for (billing_map billing) n = None) as ->;
      [|apply billing_update_blank].
    unfold billing_for. destruct n as [| | | |s]; try reflexivity.
    apply foldl_insert_absent; [|done].
    eapply Forall_impl; [exact Hnone|]. cbv beta. intros b' Hb'. congruence.
Qed.

(** C8 on two customers and three billing records, two of them of the
    name of the first customer and one of a name that differs by case. *)
Lemma C8_billing_join_witness :
  ∃ out c1 c2,
    transform_customers_with_billing [cust_ann; cust_zed]
      [bill_ann_old; bill_ann; bill_bob] = Io (Return out) []
    ∧ out !! 0%nat = Some c1 ∧ billing_attached bill_ann c1
    ∧ out !! 1%nat = Some c2 ∧ billing_blank c2.
Proof.
  destruct (C8_billing_join [cust_ann; cust_zed]
              [bill_ann_old; bill_ann; bill_bob]) as (out & Hrun & _ & Hout).
  { repeat constructor; eexists; reflexivity. }
  destruct (Hout 0%nat cust_ann (VStr "Ann Lee") eq_refl eq_refl)
    as (c1 & Hc1 & Hlast & _ & _).
  destruct (Hout 1%nat cust_zed (VStr "Zed") eq_refl eq_refl)
    as (c2 & Hc2 & _ & _ & Hnone).
  exists out, c1, c2. split_and!; [exact Hrun | exact Hc1 | | exact Hc2 |].
  - apply (Hlast [bill_ann_old] bill_ann [bill_bob] eq_refl eq_refl).
    repeat constructor. discriminate.
  - apply Hnone. repeat constructor; discriminate.
Defined.

(** ** C9: attaching the flagged prompts *)

Lemma group_prompts_step s (acc : odict (list Prompt.t)) (p : Prompt.t) :
  default [] (od_lookup s
    (let '(d, ps) := od_setdefault (Prompt.employee_id p) [] acc in
     od_set (Prompt.employee_id p) (ps ++ [p]) d))
  = default [] (od_lookup s acc)
    ++ (if String.eqb s (Prompt.employee_id p) then [p] else []).
Proof.
  unfold od_setdefault.
  destruct (String.eqb_spec s (Prompt.employee_id p)) as [->|Hne].
  - destruct (od_lookup (Prompt.employee_id p) acc) eqn:E;
      by rewrite od_lookup_set_eq.
  - rewrite app_nil_r.
    destruct (od_lookup (Prompt.employee_id p) acc) eqn:E;
      by rewrite !od_lookup_set_ne.
Qed.

Lemma group_prompts_lookup s (prompts : list Prompt.t) :
  default [] (od_lookup s (group_prompts prompts))
  = filter (prompt_of (VStr s)) prompts.
Proof.
  unfold group_prompts.
  change (filter (prompt_of (VStr s)) prompts)
    with (default [] (od_lookup s ([] : odict (list Prompt.t)))
          ++ filter (prompt_of (VStr s)) prompts).
  generalize ([] : odict (list Prompt.t)) as acc.
  induction prompts as [|p prompts IH]; intros acc; simpl.
  - by rewrite app_nil_r.
  - rewrite IH, group_prompts_step, filter_cons. simpl.
    destruct (String.eqb s (Prompt.employee_id p)); simpl.
    + by rewrite <- app_assoc.
    + by rewrite app_nil_r.
Qed.

Lemma prompts_for_filter (prompts : list Prompt.t) eid :
  prompts_for (group_prompts prompts) eid = filter (prompt_of eid) prompts.
Proof.
  destruct eid as [| | | |s]; simpl; try (by induction prompts).
  apply group_prompts_lookup.
Qed.

Lemma filter_prompt_of_none (prompts : list Prompt.t) eid :
  Forall (λ p, VStr (Prompt.employee_id p) ≠ eid) prompts →
  filter (prompt_of eid) prompts = [].
Proof.
  induction 1 as [|p ps Hp _ IH]; [done|].
  rewrite filter_cons, decide_False; [done|].
  destruct eid as [| | | |s]; simpl; try (by intros []).
  destruct (String.eqb_spec s (Prompt.employee_id p)); [congruence | by intros []].
Qed.

Lemma flag_employees_total by_id (employees : list record) :
  Forall (λ e : record, is_Some (e !! "employee_id")) employees →
  ∃ out, flag_employees by_id employees = Return out
         ∧ Forall2 (λ emp emp', flag_employee by_id emp = Return emp')
                   employees out.
Proof.
  induction 1 as [|emp employees [eid Heid] _ (out & IH & Hall)]; simpl.
  - exists []. by split.
  - unfold flag_employee at 1, item. rewrite Heid. simpl. rewrite IH. simpl.
    eexists. split; [done|]. constructor; [|done].
    unfold flag_employee, item. by rewrite Heid.
Qed.

(** C9.  For employee records that have an [employee_id] (line 261
    indexes it), [merge_flagged_prompts] returns one record per employee,
    in order; its [flagged_prompts] field is the JSON text of the list of
    the prompts that carry the id of the employee, in their order, which
    is the text ["[]"] when no prompt carries it; every other field is the
    one of the input record. *)
Theorem C9_flagged_prompts_frame (employees : list record)
    (prompts : list Prompt.t) :
  Forall (λ e : record, is_Some (e !! "employee_id")) employees →
  ∃ out,
    merge_flagged_prompts employees prompts = Io (Return out) []
    ∧ length out = length employees
    ∧ ∀ i emp eid, employees !! i = Some emp → emp !! "employee_id" = Some eid →
        ∃ emp', out !! i = Some emp'
          ∧ emp' !! "flagged_prompts"
            = Some (VStr (Json.dumps (filter (prompt_of eid) prompts)))
          ∧ (Forall (λ p, VStr (Prompt.employee_id p) ≠ eid) prompts →
             emp' !! "flagged_prompts" = Some (VStr "[]"))
          ∧ (∀ k, k ≠ "flagged_prompts" → emp' !! k = emp !! k).
Proof.
  intros Hids.
  destruct (flag_employees_total (group_prompts prompts) employees Hids)
    as (out & Hrun & Hall).
  exists out. unfold merge_flagged_prompts, lift. rewrite Hrun.
  split; [done|]. split; [symmetry; by eapply Forall2_length|].
  intros i emp eid Hi Heid.
  destruct (Forall2_lookup_l _ _ _ _ _ Hall Hi) as (emp' & Hi' & Hemp).
  exists emp'. split; [done|].
  unfold flag_employee, item in Hemp. rewrite Heid in Hemp. simpl in Hemp.
  injection Hemp as <-. rewrite prompts_for_filter.
  split; [apply lookup_insert_eq|]. split.
  - intros Hnone. by rewrite lookup_insert_eq, filter_prompt_of_none.
  - intros k Hk. by rewrite lookup_insert_ne.
Qed.

(** C9 on an employee with one prompt and an employee with none. *)
Lemma C9_flagged_prompts_frame_witness :
  ∃ out e1 e2,
    merge_flagged_prompts [emp_e1; cust_zed_emp] [prompt_e9; prompt_e1]
      = Io (Return out) []
    ∧ out !! 0%nat = Some e1
    ∧ e1 !! "flagged_prompts" = Some (VStr (Json.dumps [prompt_e1]))
    ∧ e1 !! "first_name" = Some (VStr "Bob")
    ∧ out !! 1%nat = Some e2
    ∧ e2 !! "flagged_prompts" = Some (VStr "[]").
Proof.
  destruct (C9_flagged_prompts_frame [emp_e1; cust_zed_emp]
              [prompt_e9; prompt_e1]) as (out & Hrun & _ & Hout).
  { repeat constructor; eexists; reflexivity. }
  destruct (Hout 0%nat emp_e1 (VStr "E1") eq_refl eq_refl)
    as (e1 & He1 & Hflag & _ & Hframe).
  destruct (Hout 1%nat cust_zed_emp (VStr "E2") eq_refl eq_refl)
    as (e2 & He2 & _ & Hnone & _).
  exists out, e1, e2.
  split_and!; [exact Hrun | exact He1 | exact Hflag | | exact He2 |].
  - rewrite Hframe; [reflexivity | discriminate].
  - apply Hnone. repeat constructor; discriminate.
Defined.

(** ** C6: missing files *)

Section Missing_files.
Context {parsers : Parsers} {pony : Pony}.

(** C6.  For a path that does not exist, [extract_file] returns the empty
    result of the file type and logs one warning, without raising; so do
    the extractors of the sources, each returning the empty list
    ([extract_vehicles] also prints a line).  When no file exists, the
    whole run goes to its end and leaves the database as it was. *)
Theorem C6_missing_file (fs : filesystem) (path : string) :
  fs !! path = None →
  (∀ file_type,
     extract_file fs path file_type
     = Io (Return (no_data file_type)) [missing_file path])
  ∧ extract_customers_csv fs path = Io (Return []) [missing_file path]
  ∧ extract_customers_json fs path = Io (Return []) [missing_file path]
  ∧ extract_file_json fs path = Io (Return []) [missing_file path]
  ∧ extract_customers_billing fs path = Io (Return []) [missing_file path]
  ∧ extract_vehicles fs path
    = Io (Return []) [missing_file path;
                      Print "Failed to parse XML file or file is empty."]
  ∧ extract_flagged_prompts fs path = Io (Return []) [missing_file path]
  ∧ ∀ db, result (run_etl ∅ db) = Return db.
Proof.
  intros Hmissing.
  assert (∀ file_type, extract_file fs path file_type
            = Io (Return (no_data file_type)) [missing_file path]) as Hx.
  { intros file_type. unfold extract_file. rewrite Hmissing. unfold no_data.
    by repeat case_match. }
  split; [done|].
  unfold extract_customers_csv, extract_customers_json, extract_file_json,
    extract_customers_billing, extract_vehicles, extract_flagged_prompts.
  rewrite !Hx. split_and!; try reflexivity.
  by intros [rows1 rows2].
Qed.

End Missing_files.

(** C6 on the empty file system. *)
Lemma C6_missing_file_witness :
  extract_file (parsers := rejecting_parsers) ∅ "customers.csv" "csv"
  = Io (Return (Rows [])) [LogWarning "Missing file: customers.csv"]
  ∧ extract_file (parsers := rejecting_parsers) ∅ "customers.csv" "xml"
    = Io (Return NoData) [LogWarning "Missing file: customers.csv"].
Proof.
  destruct (C6_missing_file (parsers := rejecting_parsers) (pony := plain)
              ∅ "customers.csv") as [Hx _]; [reflexivity|].
  split; [exact (Hx "csv") | exact (Hx "xml")].
Defined.

(** ** C10: the flagged prompts *)

Lemma after_colon_prefix p q line :
  String.prefix p line = true → Py.after_colon p = Some q →
  ∃ r, Py.after_colon line = Some r.
Proof.
  revert q line. induction p as [|a p IH]; intros q line.
  - intros _ Hq. discriminate Hq.
  - destruct line as [|b line]; [intros Hp; discriminate Hp|]. simpl.
    destruct (ascii_dec a b) as [->|]; [|intros Hp; discriminate Hp].
    destruct (Ascii.eqb b ":"); [eauto|]. apply IH.
Qed.

Lemma set_last_prompt_Some p items :
  items ≠ [] →
  ∃ items', set_last_prompt p items = Some items'
            ∧ map flagged_timestamp items' = map flagged_timestamp items
            ∧ items' ≠ [].
Proof.
  induction items as [|it items IH]; [done|]. intros _.
  destruct items as [|it' items].
  - simpl. eauto.
  - destruct IH as (items' & Hset & Hmap & Hne); [done|].
    exists (it :: items').
    change (set_last_prompt p (it :: it' :: items))
      with (cons it <$> set_last_prompt p (it' :: items)).
    rewrite Hset. simpl. split_and!; [done | | done].
    f_equal. exact Hmap.
Qed.

Lemma stamps_set_append k x items (d : odict (list flagged)) :
  od_lookup k d = Some items →
  stamps (od_set k (items ++ [x]) d) ≡ₚ stamps d ++ [(k, flagged_timestamp x)].
Proof.
  induction d as [|[k' v'] d IH]; simpl; [done|].
  destruct (String.eqb_spec k k') as [->|Hne].
  - intros [= ->]. simpl. rewrite map_app. simpl.
    rewrite <- !app_assoc. apply Permutation_app_head.
    apply Permutation_app_comm.
  - intros Hl. simpl. rewrite <- app_assoc. apply Permutation_app_head. by apply IH.
Qed.

Lemma stamps_set_same k items items' (d : odict (list flagged)) :
  od_lookup k d = Some items →
  map flagged_timestamp items' = map flagged_timestamp items →
  stamps (od_set k items' d) = stamps d.
Proof.
  induction d as [|[k' v'] d IH]; simpl; [done|].
  destruct (String.eqb_spec k k') as [->|Hne].
  - intros [= ->] Hmap. simpl. f_equal.
    rewrite <- !(map_map flagged_timestamp (λ t, (k', t))). by rewrite Hmap.
  - intros Hl Hmap. simpl. f_equal. by apply IH.
Qed.

Lemma stamps_set_new k (d : odict (list flagged)) :
  stamps (od_set k [] d) = stamps d ∨ od_lookup k d ≠ None.
Proof.
  induction d as [|[k' v'] d IH]; simpl; [by left|].
  destruct (String.eqb_spec k k') as [->|Hne]; [by right|].
  destruct IH as [IH|IH]; [left | by right]. simpl. by rewrite IH.
Qed.

Lemma stamps_tagged (d : odict (list flagged)) : stamp_of <$> tagged d = stamps d.
Proof.
  unfold tagged, stamps. induction d as [|[k items] d IH]; [done|].
  simpl. rewrite fmap_app, IH. f_equal.
  rewrite <- list_fmap_compose. done.
Qed.

Lemma scan_line_step st seen raw :
  scan_ok st seen → (kind_of raw = PromptLine → seen = true) →
  ∃ st', scan_line st raw = Return st'
         ∧ current_id st' = next_id (current_id st) raw
         ∧ scan_ok st' (seen_after seen raw)
         ∧ stamps (by_id st') ≡ₚ stamps (by_id st) ++ stamped (current_id st) raw.
Proof.
  intros Hok Hseen. destruct st as [d cur].
  unfold scan_ok, scan_line, next_id, stamped, seen_after, field_of, kind_of in *.
  cbn [by_id current_id] in *.
  set (line := Py.strip raw) in *.
  destruct (Py.startswith line "Employee ID:") eqn:E1.
  { destruct (after_colon_prefix "Employee ID:" "" line E1 eq_refl) as [r Hr].
    unfold field_after_colon. rewrite Hr. simpl.
    eexists. split; [done|]. split; [done|]. rewrite app_nil_r. split.
    - intros cid [= <-]. unfold od_setdefault.
      destruct (od_lookup (Py.strip r) d) as [items|] eqn:El; simpl.
      + exists items. by split.
      + exists []. split; [apply od_lookup_set_eq | done].
    - unfold od_setdefault.
      destruct (od_lookup (Py.strip r) d) as [items|] eqn:El; simpl; [done|].
      destruct (stamps_set_new (Py.strip r) d) as [->|]; done. }
  destruct (Py.startswith line "Timestamp:") eqn:E2.
  { destruct (id_truthy cur) eqn:Hid; simpl.
    - destruct cur as [cid|]; [|done]. simpl in Hid.
      destruct (Hok cid eq_refl) as (items & Hitems & _).
      destruct (after_colon_prefix "Timestamp:" "" line E2 eq_refl) as [r Hr].
      unfold entries_of, field_after_colon. simpl. rewrite Hitems, Hr. simpl.
      eexists. split; [done|]. split; [done|]. split.
      + intros cid' [= <-]. eexists. split; [apply od_lookup_set_eq|].
        intros _ _. by destruct items.
      + by apply stamps_set_append.
    - exists (Scan d cur). rewrite app_nil_r.
      split; [by destruct (Py.startswith line "Prompt:")|].
      split; [done|]. split; [|done].
      intros cid Hc. simpl in Hc. subst cur.
      destruct (Hok cid eq_refl) as (items & Hitems & _).
      exists items. split; [done|]. intros _ Hne. simpl in Hid.
      by destruct (String.eqb_spec cid ""). }
  destruct (Py.startswith line "Prompt:") eqn:E3; rewrite app_nil_r;
    [|by exists (Scan d cur)].
  destruct (id_truthy cur) eqn:Hid; simpl; [|by exists (Scan d cur)].
  destruct cur as [cid|]; [|done]. simpl in Hid.
  destruct (Hok cid eq_refl) as (items & Hitems & Hne).
  destruct (after_colon_prefix "Prompt:" "" line E3 eq_refl) as [r Hr].
  destruct (set_last_prompt_Some (Py.strip r) items) as (items' & Hset & Hmap & Hne').
  { apply Hne; [by apply Hseen|]. by destruct (String.eqb_spec cid ""). }
  unfold entries_of, field_after_colon. simpl. rewrite Hr. simpl.
  rewrite Hitems. simpl. rewrite Hset.
  eexists. split; [done|]. split; [done|]. split.
  - intros cid' [= <-]. eexists. split; [apply od_lookup_set_eq | done].
  - simpl. by rewrite (stamps_set_same cid items items' d).
Qed.

Lemma scan_lines_safe lines st seen :
  scan_ok st seen → prompts_preceded seen lines = true →
  ∃ st', scan_lines st lines = Return st'
         ∧ stamps (by_id st')
           ≡ₚ stamps (by_id st) ++ timestamp_lines (current_id st) lines.
Proof.
  revert st seen. induction lines as [|raw lines IH]; intros st seen Hok Hpre.
  - exists st. simpl. by rewrite app_nil_r.
  - simpl in Hpre.
    destruct (scan_line_step st seen raw Hok) as (st1 & Hstep & Hcur & Hok1 & Hperm).
    { intros Hk. rewrite Hk in Hpre. by destruct seen. }
    destruct (IH st1 (seen_after seen raw) Hok1) as (st' & Hrun & Hperm').
    { unfold seen_after. destruct (kind_of raw); try done.
      by apply andb_prop in Hpre as [_ ?]. }
    exists st'. simpl. rewrite Hstep. simpl. split; [done|].
    rewrite Hperm', Hperm, Hcur. by rewrite <- app_assoc.
Qed.

Section Flagged_prompts.
Context {parsers : Parsers}.

(** C10, amended.  Let the file at [path] be such that every "Prompt:"
    line has a "Timestamp:" line before it and after the most recent
    "Employee ID:" line (the lines being read after the strip, as the code
    reads them).  Then [extract_flagged_prompts] returns without an error
    and logs nothing, and the records it returns are, up to their order,
    one per "Timestamp:" line that comes under an "Employee ID:" line with
    a non-empty id, tagged with this id. *)
Theorem C10_flagged_prompts_safe (fs : filesystem) (path content : string) :
  fs !! path = Some content →
  prompts_preceded false (readlines content) = true →
  ∃ prompts,
    extract_flagged_prompts fs path = Io (Return prompts) []
    ∧ stamp_of <$> prompts ≡ₚ timestamp_lines None (readlines content).
Proof.
  intros Hfile Hpre.
  destruct (scan_lines_safe (readlines content) (Scan [] None) false)
    as (st & Hrun & Hperm); [by intros cid | done |].
  exists (tagged (by_id st)). split.
  - unfold extract_flagged_prompts, extract_file. rewrite Hfile. simpl.
    unfold lift. unfold mbind, io_bind. simpl. by rewrite Hrun.
  - by rewrite stamps_tagged, Hperm.
Qed.

End Flagged_prompts.

(** C10 as stated fails: the file has no "Prompt:" line and one
    "Timestamp:" line, which no "Employee ID:" line precedes; no record is
    returned for it. *)
Lemma C10_timestamp_without_employee_id :
  prompts_preceded false (readlines "Timestamp: 12:00") = true
  ∧ kind_of <$> readlines "Timestamp: 12:00" = [TimestampLine]
  ∧ extract_flagged_prompts (parsers := rejecting_parsers)
      lone_timestamp "flagged.txt" = Io (Return []) [].
Proof. split_and!; reflexivity. Qed.

(** C10, amended, on a file of two employees. *)
Lemma C10_flagged_prompts_safe_witness :
  ∃ prompts,
    extract_flagged_prompts (parsers := rejecting_parsers)
      two_blocks "flagged.txt" = Io (Return prompts) []
    ∧ stamp_of <$> prompts ≡ₚ [("E1", "10:00"); ("E1", "11:00")].
Proof.
  destruct (C10_flagged_prompts_safe (parsers := rejecting_parsers) two_blocks
              "flagged.txt" _ eq_refl eq_refl) as (prompts & Hrun & Hperm).
  exists prompts. split; [exact Hrun | exact Hperm].
Defined.

(** ** C7 and C1: the loader *)

Section Loader.
Context {pony : Pony}.

Lemma rows_with_email_none s k (rows : Customer.table) :
  (∀ row, row ∈ rows → Customer.has_email s row = false) ↔
  Customer.rows_with_email s k rows = [].
Proof.
  revert k. induction rows as [|row rows IH]; intros k; simpl.
  - split; [done|]. intros _ row []%elem_of_nil.
  - destruct (Customer.has_email s row) eqn:E.
    + split; [|done]. intros Hall. specialize (Hall row). rewrite E in Hall.
      discriminate Hall. left.
    + rewrite <- IH. split.
      * intros Hall row' Hin. apply Hall. by right.
      * intros Hall row' [->|Hin]%elem_of_cons; [done | by apply Hall].
Qed.


Lemma rows_with_email_lookup s k (rows : Customer.table) i row :
  rows !! i = Some row → Customer.has_email s row = true →
  (k + i)%nat ∈ Customer.rows_with_email s k rows.
Proof.
  revert k i. induction rows as [|row0 rows IH]; intros k i Hi Hrow; [done|].
  simpl. destruct i as [|i]; simpl in Hi.
  - injection Hi as ->. rewrite Hrow, Nat.add_0_r. left.
  - replace (k + S i)%nat with (S k + i)%nat by lia.
    destruct (Customer.has_email s row0); [right|]; by apply IH.
Qed.

Lemma rows_with_email_elem s k (rows : Customer.table) j :
  j ∈ Customer.rows_with_email s k rows →
  ∃ i row, j = (k + i)%nat ∧ rows !! i = Some row
           ∧ Customer.has_email s row = true.
Proof.
  revert k. induction rows as [|row rows IH]; intros k; simpl.
  - by intros ?%elem_of_nil.
  - destruct (Customer.has_email s row) eqn:Hrow.
    + intros [->|Hin]%elem_of_cons.
      * exists 0%nat, row. split; [lia|done].
      * destruct (IH _ Hin) as (i & row' & -> & Hi & Hrow').
        exists (S i), row'. split; [lia|done].
    + intros Hin. destruct (IH _ Hin) as (i & row' & -> & Hi & Hrow').
      exists (S i), row'. split; [lia|done].
Qed.

(** The row that is found alone is there, and no other row is found. *)
Lemma rows_with_email_single s (rows : Customer.table) i :
  Customer.rows_with_email s 0 rows = [i] →
  ∃ existing, rows !! i = Some existing
    ∧ Customer.has_email s existing = true
    ∧ ∀ j row, rows !! j = Some row → Customer.has_email s row = true → j = i.
Proof.
  intros Hrows.
  assert (i ∈ Customer.rows_with_email s 0 rows) as Hin by (rewrite Hrows; left).
  apply rows_with_email_elem in Hin as (i' & existing & -> & Hi & Hrow).
  exists existing. split; [done|]. split; [done|]. intros j row Hj Hj'.
  pose proof (rows_with_email_lookup s 0 rows j row Hj Hj') as Hin.
  rewrite Hrows in Hin. by apply list_elem_of_singleton in Hin.
Qed.




End Loader.



(** *** Rows that take values in turn *)

Section Assigned_rows.
Context (values : record → record → outcome record) (sel : record → bool).
Hypothesis stable : ∀ row c c' u u',
  values row c = Return u → values row c' = Return u' →
  values (u' ∪ row) c = Return u.

Lemma assigned_snoc cs c row :
  assigned values sel (cs ++ [c]) row
  = if sel c then
      match values row c with
      | Return u => u ∪ assigned values sel cs row
      | Raise _ => assigned values sel cs row
      end
    else assigned values sel cs row.
Proof. unfold assigned. by rewrite foldl_app. Qed.

Lemma assigned_none cs row :
  (∀ c, c ∈ cs → sel c = false) → assigned values sel cs row = ∅.
Proof.
  induction cs as [|c cs IH] using rev_ind; intros Hcs; [done|].
  rewrite assigned_snoc, (Hcs c) by (apply elem_of_app; right; left).
  apply IH. intros c' Hin. apply Hcs, elem_of_app. by left.
Qed.

Lemma assigned_stable cs row c' u' :
  (∀ c, c ∈ cs → sel c = true → ∃ u, values row c = Return u) →
  values row c' = Return u' →
  assigned values sel cs (u' ∪ row) = assigned values sel cs row.
Proof.
  intros Hcs Hc'. induction cs as [|c cs IH] using rev_ind; [done|].
  rewrite !assigned_snoc, IH
    by (intros c0 Hin; apply Hcs, elem_of_app; by left).
  destruct (sel c) eqn:Hsel; [|done].
  destruct (Hcs c) as [u Hu]; [apply elem_of_app; right; left | done |].
  by rewrite Hu, (stable _ _ _ _ _ Hu Hc').
Qed.

Lemma holds_nil row : holds values sel [] row.
Proof.
  split; [by intros c ?%elem_of_nil|]. apply map_empty_subseteq.
Qed.

Lemma holds_skip cs c row :
  sel c = false → holds values sel cs row → holds values sel (cs ++ [c]) row.
Proof.
  intros Hsel [Hcs Hsub]. split.
  - intros c' [Hin | ->%list_elem_of_singleton]%elem_of_app Hc';
      [by apply Hcs | congruence].
  - by rewrite assigned_snoc, Hsel.
Qed.

Lemma holds_assign cs c row u :
  sel c = true → values row c = Return u →
  holds values sel cs row → holds values sel (cs ++ [c]) (u ∪ row).
Proof.
  intros Hsel Hu [Hcs Hsub]. split.
  - intros c' [Hin | ->%list_elem_of_singleton]%elem_of_app Hc'.
    + destruct (Hcs c' Hin Hc') as [u' Hu']. exists u'. by eapply stable.
    + exists u. by eapply stable.
  - rewrite assigned_snoc, Hsel, (stable _ _ _ _ _ Hu Hu).
    rewrite (assigned_stable cs row c u Hcs Hu).
    by apply map_union_mono_l.
Qed.

Lemma holds_new cs c row u :
  (∀ c', c' ∈ cs → sel c' = false) →
  values row c = Return u → u ⊆ row →
  holds values sel (cs ++ [c]) row.
Proof.
  intros Hcs Hu Hsub. split.
  - intros c' [Hin | ->%list_elem_of_singleton]%elem_of_app Hc';
      [by rewrite Hcs in Hc' | eauto].
  - rewrite assigned_snoc, Hu, (assigned_none cs row Hcs), (right_id_L ∅ (∪)).
    destruct (sel c); [done | apply map_empty_subseteq].
Qed.

Lemma assign_all cs (acc row : record) :
  (∀ c, c ∈ cs → sel c = true →
        ∃ u, values row c = Return u ∧ values (acc ∪ row) c = Return u) →
  foldl (assign values sel) (acc ∪ row) cs
  = foldl (λ acc c,
             if sel c then
               match values row c with Return u => u ∪ acc | Raise _ => acc end
             else acc)
          acc cs ∪ row.
Proof.
  revert acc. induction cs as [|c cs IH]; intros acc Hcs; [done|].
  simpl. unfold assign at 2. destruct (sel c) eqn:Hsel.
  - destruct (Hcs c) as (u & Hu & Hu'); [left | done |].
    rewrite Hu, Hu', (assoc_L (∪)). apply IH.
    intros c' Hin Hc'. destruct (Hcs c') as (u' & Hrow & Hacc); [by right | done |].
    exists u'. split; [done|]. rewrite <- (assoc_L (∪)). by eapply stable.
  - apply IH. intros c' Hin. apply Hcs. by right.
Qed.

(** A row that has what the records assign is left as it is when they
    are set on it again. *)
Lemma holds_fixed cs row :
  holds values sel cs row → foldl (assign values sel) row cs = row.
Proof.
  intros [Hcs Hsub].
  rewrite <- (left_id_L ∅ (∪) row) at 1. rewrite assign_all.
  - by apply map_subseteq_union.
  - intros c Hin Hc. destruct (Hcs c Hin Hc) as [u Hu]. exists u.
    by rewrite (left_id_L ∅ (∪)).
Qed.

End Assigned_rows.

Lemma holds_ext values sel sel' cs row :
  (∀ c, sel c = sel' c) → holds values sel cs row → holds values sel' cs row.
Proof.
  intros Hext [Hcs Hsub]. split.
  - intros c Hin Hc. apply Hcs; [done|]. by rewrite Hext.
  - replace (assigned values sel' cs row) with (assigned values sel cs row);
      [done|].
    unfold assigned. clear Hcs Hsub. generalize (∅ : record) as acc.
    induction cs as [|c cs IH]; intros acc; [done|]. simpl.
    by rewrite IH, Hext.
Qed.

Lemma assign_ext values sel sel' cs row :
  (∀ c, sel c = sel' c) →
  foldl (assign values sel) row cs = foldl (assign values sel') row cs.
Proof.
  intros Hext. revert row. induction cs as [|c cs IH]; intros row; [done|].
  simpl. rewrite IH. unfold assign. by rewrite Hext.
Qed.

Section Customers_twice.
Context {pony : Pony}.

(** *** Rows and emails *)

Lemma has_email_same s s' (row : record) :
  Customer.has_email s row = true → Customer.has_email s' row = true →
  collate s = collate s'.
Proof.
  unfold Customer.has_email. destruct (row !! "email") as [[| | | |e]|]; try done.
  intros ->%String.eqb_eq ->%String.eqb_eq. done.
Qed.

Lemma has_email_collate s s' (row : record) :
  collate s = collate s' → Customer.has_email s row = Customer.has_email s' row.
Proof. unfold Customer.has_email. by intros ->. Qed.

(** The email of the values assigned is the email of the row afterwards. *)
Lemma has_email_union s s' (u row : record) :
  Customer.has_email s u = true →
  Customer.has_email s' (u ∪ row) = Customer.has_email s' u.
Proof.
  unfold Customer.has_email.
  destruct (u !! "email") as [v|] eqn:Hu; [|done].
  by rewrite (lookup_union_Some_l _ _ _ _ Hu).
Qed.

Lemma has_email_set s (u row : record) :
  Customer.has_email s u = true → Customer.has_email s row = true →
  ∀ s', Customer.has_email s' (u ∪ row) = Customer.has_email s' row.
Proof.
  intros Hu Hrow s'. rewrite (has_email_union s) by done.
  destruct (Customer.has_email s' u) eqn:E.
  - rewrite (has_email_collate s' s); [done|].
    by apply (has_email_same s' s u).
  - destruct (Customer.has_email s' row) eqn:E'; [|done].
    rewrite (has_email_collate s' s) in E; [congruence|].
    by apply (has_email_same s' s row).
Qed.

Lemma rows_with_email_insert s k (rows : Customer.table) i existing row :
  rows !! i = Some existing →
  Customer.has_email s row = Customer.has_email s existing →
  Customer.rows_with_email s k (<[i := row]> rows)
  = Customer.rows_with_email s k rows.
Proof.
  revert k i. induction rows as [|row0 rows IH]; intros k [|i]; simpl; try done.
  - intros [= ->] ->. done.
  - intros Hi Hrow. by rewrite (IH _ _ Hi Hrow).
Qed.

Lemma rows_with_email_app s k (rows rows' : Customer.table) :
  Customer.rows_with_email s k (rows ++ rows')
  = Customer.rows_with_email s k rows
    ++ Customer.rows_with_email s (k + length rows) rows'.
Proof.
  revert k. induction rows as [|row rows IH]; intros k; simpl.
  - by rewrite Nat.add_0_r.
  - rewrite IH. replace (S k + length rows)%nat with (k + S (length rows))%nat by lia.
    by destruct (Customer.has_email s row).
Qed.

(** *** The records that are looked up *)

Lemma email_key_Some (c : record) s :
  email_key c = Some s ↔
  has_name c = true ∧ truthy (get_none c "email") = true
  ∧ Customer_email (get_none c "email") = Return s.
Proof.
  unfold email_key. destruct (has_name c), (truthy (get_none c "email")); simpl;
    try (split; [done | by intros (? & ? & ?)]).
  destruct (Customer_email (get_none c "email")); split; try done.
  - by intros [= ->].
  - by intros (_ & _ & [= ->]).
  - by intros (_ & _ & ?).
Qed.

Lemma finds_skipped (row c : record) : has_name c = false → finds row c = false.
Proof. unfold finds, email_key. by intros ->. Qed.

Lemma finds_key (row c : record) s :
  email_key c = Some s → finds row c = Customer.has_email s row.
Proof. unfold finds. by intros ->. Qed.

Context (laws : PonyLaws pony).

(** Setting the items of a record on the row found for it does not change
    for which emails the row is found. *)
Lemma has_email_assigned (existing c u : record) s :
  email_key c = Some s → Customer.has_email s existing = true →
  Customer_values existing c = Return u →
  ∀ s', Customer.has_email s' (u ∪ existing) = Customer.has_email s' existing.
Proof.
  intros (_ & Htruthy & Hkey)%email_key_Some Hrow Hu.
  apply (has_email_set s); [|done].
  by apply (Customer_values_email pony laws c existing u s).
Qed.

Lemma finds_assigned (existing c u : record) s :
  email_key c = Some s → Customer.has_email s existing = true →
  Customer_values existing c = Return u →
  ∀ c', finds (u ∪ existing) c' = finds existing c'.
Proof.
  intros Hkey Hrow Hu c'. unfold finds.
  destruct (email_key c'); [|done].
  by apply (has_email_assigned existing c u s).
Qed.

(** *** The cases of [load_customer] *)

Lemma load_customer_skip (c : record) st :
  has_name c = false → load_customer c st = Return st.
Proof. unfold load_customer, has_name. by intros ->. Qed.

Lemma load_customer_cases (c : record) st st' :
  has_name c = true → truthy (get_none c "email") = true →
  load_customer c st = Return st' →
  ∃ s, email_key c = Some s
    ∧ ((∃ i existing u,
          Customer.rows_with_email s 0 (rows_of st) = [i]
          ∧ rows_of st !! i = Some existing
          ∧ Customer_values existing c = Return u
          ∧ st' = Loading (<[i := u ∪ existing]> (rows_of st))
                          (loaded st) (updated st + 1))
       ∨ (∃ row,
            Customer.rows_with_email s 0 (rows_of st) = []
            ∧ Customer_new c (rows_of st) = Return row
            ∧ st' = Loading (rows_of st ++ [row])
                            (loaded st + 1) (updated st))).
Proof.
  intros Hname Hemail. unfold load_customer. fold (has_name c).
  rewrite Hname, Hemail. simpl. unfold Customer.get.
  destruct (Customer_email (get_none c "email")) as [s|] eqn:Hkey; [|done].
  simpl. intros H. exists s. split; [apply email_key_Some; by split_and!|].
  destruct (Customer.rows_with_email s 0 (rows_of st)) as [|i [|j l]] eqn:Hrows;
    simpl in H; [| |done].
  - right. unfold Customer.create in H.
    destruct (Customer_new c (rows_of st)) as [row|]; [|done].
    exists row. by injection H as <-.
  - left. destruct (rows_with_email_single s (rows_of st) i Hrows)
      as (existing & Hi & _).
    unfold Customer.set in H. rewrite Hi in H.
    destruct (Customer_values existing c) as [u|] eqn:Hu; [|done].
    exists i, existing, u. by injection H as <-.
Qed.

(** *** The first run establishes [loaded_rows] *)

Lemma loaded_rows_step (done_ : list record) (c : record) st st' :
  (has_name c = true → truthy (get_none c "email") = true) →
  load_customer c st = Return st' →
  loaded_rows done_ (rows_of st) → loaded_rows (done_ ++ [c]) (rows_of st').
Proof.
  intros Hemail Hstep [Hfound Hheld].
  destruct (has_name c) eqn:Hname.
  2: { rewrite load_customer_skip in Hstep by done. injection Hstep as <-.
       split.
       - intros c' s [Hin | ->%list_elem_of_singleton]%elem_of_app Hc';
           [by eapply Hfound|].
         apply email_key_Some in Hc' as [? _]. congruence.
       - intros row Hrow. apply holds_skip; [by apply finds_skipped|].
         by apply Hheld. }
  specialize (Hemail eq_refl).
  destruct (load_customer_cases c st st' Hname Hemail Hstep)
    as (s & Hkey & [(i & existing & u & Hi & Hex & Hu & ->)
                   |(row & Hnone & Hnew & ->)]); simpl.
  - destruct (rows_with_email_single s (rows_of st) i Hi)
      as (existing' & Hex' & Hrow & Huniq).
    assert (existing' = existing) as -> by congruence.
    split.
    + intros c' s' Hin Hc'.
      rewrite (rows_with_email_insert s' 0 _ i existing);
        [|done|by apply (has_email_assigned existing c u s)].
      apply elem_of_app in Hin as [Hin | ->%list_elem_of_singleton];
        [by eapply Hfound|].
      assert (s' = s) as -> by congruence. eauto.
    + intros row' Hin. apply list_elem_of_lookup in Hin as [j Hj].
      destruct (decide (j = i)) as [->|Hne].
      * rewrite list_lookup_insert_eq in Hj
          by (by eapply lookup_lt_Some).
        injection Hj as <-.
        apply (holds_ext _ (finds existing));
          [intros c'; symmetry; by apply (finds_assigned existing c u s)|].
        apply holds_assign.
        -- apply (Customer_values_stable pony laws).
        -- by rewrite (finds_key _ _ s).
        -- done.
        -- apply Hheld. by eapply list_elem_of_lookup_2.
      * rewrite list_lookup_insert_ne in Hj by done.
        apply holds_skip; [|apply Hheld; by eapply list_elem_of_lookup_2].
        rewrite (finds_key _ _ s) by done.
        destruct (Customer.has_email s row') eqn:E; [|done].
        by destruct (Hne (Huniq j row' Hj E)).
  - assert (∀ row', row' ∈ rows_of st → Customer.has_email s row' = false)
      as Hrows by (eapply rows_with_email_none; exact Hnone).
    assert (Customer.has_email s row = true) as Hrow.
    { apply email_key_Some in Hkey as (_ & ? & ?).
      by eapply (Customer_new_email pony laws). }
    assert (∀ c' s', c' ∈ done_ → email_key c' = Some s' →
                     Customer.has_email s' row = false) as Hother.
    { intros c' s' Hin Hc'. destruct (Customer.has_email s' row) eqn:E; [|done].
      destruct (Hfound c' s' Hin Hc') as [j Hj].
      destruct (rows_with_email_single s' (rows_of st) j Hj)
        as (row' & Hj' & Hrow' & _).
      rewrite (has_email_collate s' s) in Hrow'
        by (by apply (has_email_same s' s row)).
      rewrite Hrows in Hrow' by (by eapply list_elem_of_lookup_2).
      discriminate Hrow'. }
    split.
    + intros c' s' Hin Hc'. rewrite rows_with_email_app. simpl.
      apply elem_of_app in Hin as [Hin | ->%list_elem_of_singleton].
      * destruct (Hfound c' s' Hin Hc') as [j ->].
        rewrite (Hother c' s') by done. eauto.
      * assert (s' = s) as -> by congruence. rewrite Hnone, Hrow. eauto.
    + intros row' [Hin | ->%list_elem_of_singleton]%elem_of_app.
      * apply holds_skip; [|by apply Hheld].
        rewrite (finds_key _ _ s) by done. by apply Hrows.
      * destruct (Customer_new_values pony laws c _ _ Hnew) as (u & Hu & Hsub).
        apply (holds_new _ _ _ _ _ u); [|done..].
        intros c' Hin. unfold finds.
        destruct (email_key c') as [s'|] eqn:Hc'; [|done]. by eapply Hother.
Qed.

Lemma loaded_rows_loop (cs done_ : list record) st st' :
  (∀ c, c ∈ cs → has_name c = true → truthy (get_none c "email") = true) →
  load_customers_loop cs st = Return st' →
  loaded_rows done_ (rows_of st) → loaded_rows (done_ ++ cs) (rows_of st').
Proof.
  revert done_ st. induction cs as [|c cs IH]; intros done_ st Hcs; simpl.
  - intros [= <-]. by rewrite app_nil_r.
  - intros (st1 & Hstep & Hrest)%outcome_bind_return Hinv.
    rewrite (cons_middle c done_ cs), app_assoc.
    apply (IH _ st1); [intros c' Hin; apply Hcs; by right | done |].
    eapply loaded_rows_step; [|done..]. apply Hcs. left.
Qed.

(** *** The second run *)

(** Setting on the row found is setting on every row that is found. *)
Lemma set_found_assign (c : record) s i (rows : Customer.table) existing u :
  email_key c = Some s →
  Customer.rows_with_email s 0 rows = [i] →
  rows !! i = Some existing → Customer_values existing c = Return u →
  <[i := u ∪ existing]> rows
  = (λ row, assign Customer_values (finds row) row c) <$> rows.
Proof.
  intros Hkey Hrows Hi Hu.
  destruct (rows_with_email_single s rows i Hrows)
    as (existing' & Hex' & Hrow & Huniq).
  assert (existing' = existing) as -> by congruence.
  apply list_eq. intros j. rewrite list_lookup_fmap.
  destruct (decide (j = i)) as [->|Hne].
  - rewrite list_lookup_insert_eq by (by eapply lookup_lt_Some).
    rewrite Hi. simpl. unfold assign.
    by rewrite (finds_key _ _ s), Hrow, Hu.
  - rewrite list_lookup_insert_ne by done.
    destruct (rows !! j) as [row|] eqn:Hj; [|done]. simpl. f_equal.
    unfold assign. rewrite (finds_key _ _ s) by done.
    destruct (Customer.has_email s row) eqn:E; [|done].
    by destruct (Hne (Huniq j row Hj E)).
Qed.

Lemma load_customers_loop_found (cs : list record) st :
  (∀ c, c ∈ cs → has_name c = true →
        ∃ s i, email_key c = Some s
               ∧ Customer.rows_with_email s 0 (rows_of st) = [i]) →
  (∀ row c, row ∈ rows_of st → c ∈ cs → finds row c = true →
            ∃ u, Customer_values row c = Return u) →
  ∃ st', load_customers_loop cs st = Return st'
         ∧ loaded st' = loaded st
         ∧ rows_of st'
           = (λ row, foldl (assign Customer_values (finds row)) row cs)
             <$> rows_of st.
Proof.
  revert st. induction cs as [|c cs IH]; intros st Hcs Hvalues; simpl.
  - exists st. split; [done|]. split; [done|]. by rewrite list_fmap_id.
  - destruct (has_name c) eqn:Hname.
    + destruct (Hcs c) as (s & i & Hkey & Hi); [left | done |].
      destruct (rows_with_email_single s (rows_of st) i Hi)
        as (existing & Hex & Hrow & Huniq).
      destruct (Hvalues existing c) as [u Hu];
        [by eapply list_elem_of_lookup_2 | left | by rewrite (finds_key _ _ s) |].
      assert (load_customer c st
              = Return (Loading (<[i := u ∪ existing]> (rows_of st))
                                (loaded st) (updated st + 1))) as ->.
      { apply email_key_Some in Hkey as (_ & Hemail & Hkey).
        unfold load_customer. fold (has_name c). rewrite Hname, Hemail. simpl.
        unfold Customer.get. rewrite Hkey. simpl. rewrite Hi. simpl.
        unfold Customer.set. by rewrite Hex, Hu. }
      simpl.
      rewrite (set_found_assign c s i (rows_of st) existing u) by done.
      destruct (IH (Loading ((λ row, assign Customer_values (finds row) row c)
                               <$> rows_of st) (loaded st) (updated st + 1)))
        as (st' & -> & Hloaded & Hrows).
      { intros c' Hin Hc'. destruct (Hcs c') as (s' & i' & Hkey' & Hi');
          [by right | done |].
        exists s', i'. split; [done|]. simpl.
        rewrite <- (set_found_assign c s i (rows_of st) existing u) by done.
        rewrite (rows_with_email_insert s' 0 _ i existing);
          [done | done | by apply (has_email_assigned existing c u s)]. }
      { simpl. intros row1 c' (row & -> & Hin)%list_elem_of_fmap Hc'.
        unfold assign. rewrite (finds_key row c s) by done.
        destruct (Customer.has_email s row) eqn:E; [|apply Hvalues; by try right].
        destruct (Hvalues row c) as [u' Hu'];
          [done | left | by rewrite (finds_key _ _ s) |].
        rewrite Hu'. intros Hfinds.
        rewrite (finds_assigned row c u' s) in Hfinds by done.
        destruct (Hvalues row c') as [v Hv]; [done | by right | done |].
        exists v. by apply (Customer_values_stable pony laws row c' c v u'). }
      exists st'. split; [done|]. split; [done|]. rewrite Hrows. simpl.
      rewrite <- list_fmap_compose. apply list_fmap_ext. intros j row Hj. simpl.
      apply assign_ext. intros c'. unfold assign at 1.
      rewrite (finds_key row c s) by done.
      destruct (Customer.has_email s row) eqn:E; [|done].
      destruct (Hvalues row c) as [u' Hu'];
        [by eapply list_elem_of_lookup_2 | left
        | by rewrite (finds_key _ _ s) |].
      rewrite Hu'. by apply (finds_assigned row c u' s).
    + rewrite load_customer_skip by done. simpl.
      destruct (IH st) as (st' & -> & Hloaded & Hrows).
      { intros c' Hin. apply Hcs. by right. }
      { intros row c' Hrow Hin. apply Hvalues; [done | by right]. }
      exists st'. split; [done|]. split; [done|]. rewrite Hrows.
      apply list_fmap_ext. intros _ row _. simpl.
      replace (assign Customer_values (finds row) row c) with row; [done|].
      unfold assign. by rewrite finds_skipped.
Qed.

Lemma load_customers_loop_keys (cs : list record) st st' :
  load_customers_loop cs st = Return st' →
  ∀ c, c ∈ cs → has_name c = true → truthy (get_none c "email") = true →
       ∃ s, email_key c = Some s.
Proof.
  revert st. induction cs as [|c0 cs IH]; intros st; simpl.
  - by intros _ c ?%elem_of_nil.
  - intros (st1 & Hstep & Hrest)%outcome_bind_return c [->|Hin]%elem_of_cons
      Hname Hemail.
    + destruct (load_customer_cases c0 st st1 Hname Hemail Hstep)
        as (s & Hs & _). eauto.
    + by apply (IH st1).
Qed.

Lemma load_customers_twice (customers : list record)
    (rows rows1 : Customer.table) :
  (∀ c, c ∈ customers → truthy (get_none c "name") = true →
        truthy (get_none c "email") = true) →
  result (load_customers customers rows) = Return rows1 →
  ∃ n : Z, load_customers customers rows1
       = Io (Return rows1)
            [LogInfo ("Customers: 0 added, " +:+ pretty n +:+ " updated.")].
Proof.
  intros Hemail Hfirst.
  assert (∃ st, load_customers_loop customers (Loading rows 0 0) = Return st
                ∧ rows_of st = rows1) as (st & Hrun & <-).
  { unfold load_customers in Hfirst.
    destruct (load_customers_loop customers (Loading rows 0 0)) as [st|];
      [|done].
    exists st. split; [done|]. simpl in Hfirst. by injection Hfirst. }
  destruct (loaded_rows_loop customers [] _ _ Hemail Hrun) as [Hfound Hheld].
  { split; [by intros c s ?%elem_of_nil | intros row _; apply holds_nil]. }
  simpl in Hfound, Hheld.
  destruct (load_customers_loop_found customers (Loading (rows_of st) 0 0))
    as (st' & Hrun' & Hloaded & Hrows).
  { intros c Hin Hc. simpl.
    destruct (load_customers_loop_keys _ _ _ Hrun c Hin Hc) as [s Hs];
      [by apply Hemail|].
    destruct (Hfound c s Hin Hs) as [i Hi]. eauto. }
  { simpl. intros row c Hrow Hin. by apply (proj1 (Hheld row Hrow)). }
  assert (rows_of st' = rows_of st) as Hsame.
  { rewrite Hrows. simpl. rewrite <- (list_fmap_id (rows_of st)) at 2.
    apply list_fmap_ext. intros i row Hi.
    apply holds_fixed; [apply (Customer_values_stable pony laws)|].
    apply Hheld. by eapply list_elem_of_lookup_2. }
  exists (updated st'). unfold load_customers. rewrite Hrun'.
  unfold lift, emit, mbind, io_bind, mret, io_ret. simpl.
  rewrite Hsame, Hloaded. reflexivity.
Qed.

End Customers_twice.

Section Employees_twice.
Context {pony : Pony}.

(** *** Employees *)

Lemma id_key_Some (e : record) k :
  id_key e = Some k ↔
  has_id e = true ∧ Employee_key (get_none e "employee_id") = Return k.
Proof.
  unfold id_key. destruct (has_id e); [|split; [done | by intros [? _]]].
  destruct (Employee_key (get_none e "employee_id")); split; try done.
  - by intros [= ->].
  - by intros [_ [= ->]].
  - by intros [_ ?].
Qed.

Lemma has_key_skipped k (e : record) : has_id e = false → has_key k e = false.
Proof. unfold has_key, id_key. by intros ->. Qed.

Lemma has_key_eq k (e : record) : id_key e = Some k → has_key k e = true.
Proof. unfold has_key. intros ->. apply String.eqb_refl. Qed.

Lemma has_key_ne k k' (e : record) :
  id_key e = Some k → k' ≠ k → has_key k' e = false.
Proof.
  unfold has_key. intros -> Hne. by destruct (String.eqb_spec k' k).
Qed.

Lemma has_key_Some k (e : record) : has_key k e = true → id_key e = Some k.
Proof.
  unfold has_key. destruct (id_key e) as [k'|]; [|done].
  by intros ->%String.eqb_eq.
Qed.

Lemma load_employee_skip (e : record) st :
  has_id e = false → load_employee e st = Return st.
Proof. unfold load_employee, has_id. by intros ->. Qed.

Lemma load_employee_cases (e : record) st st' :
  has_id e = true → load_employee e st = Return st' →
  ∃ k, id_key e = Some k
    ∧ ((∃ existing u,
          rows_of st !! k = Some existing
          ∧ Employee_values existing e = Return u
          ∧ st' = Loading (<[k := u ∪ existing]> (rows_of st))
                          (loaded st) (updated st + 1))
       ∨ (∃ row,
            rows_of st !! k = None
            ∧ Employee_new e = Return row
            ∧ st' = Loading (<[k := row]> (rows_of st))
                            (loaded st + 1) (updated st))).
Proof.
  intros Hid. unfold load_employee. fold (has_id e). rewrite Hid. simpl.
  assert (item e "employee_id" = Return (get_none e "employee_id")) as ->.
  { unfold has_id, get_none, get, item in *.
    by destruct (e !! "employee_id"). }
  simpl. unfold Employee.get.
  destruct (Employee_key (get_none e "employee_id")) as [k|] eqn:Hkey; [|done].
  simpl. intros H. exists k. split; [by apply id_key_Some|].
  destruct (rows_of st !! k) as [existing|] eqn:Hk.
  - left. unfold Employee.set in H.
    destruct (Employee_values existing e) as [u|] eqn:Hu; [|done].
    exists existing, u. by injection H as <-.
  - right. unfold Employee.create in H.
    destruct (Employee_new e) as [row|] eqn:Hnew; [|done].
    exists row. by injection H as <-.
Qed.

Context (laws : PonyLaws pony).

Lemma loaded_ids_step (done_ : list record) (e : record) st st' :
  load_employee e st = Return st' →
  loaded_ids done_ (rows_of st) → loaded_ids (done_ ++ [e]) (rows_of st').
Proof.
  intros Hstep [Hthere Hheld].
  destruct (has_id e) eqn:Hid.
  2: { rewrite load_employee_skip in Hstep by done. injection Hstep as <-.
       split.
       - intros e' k [Hin | ->%list_elem_of_singleton]%elem_of_app He';
           [by eapply Hthere|].
         apply id_key_Some in He' as [? _]. congruence.
       - intros k row Hk. apply holds_skip; [by apply has_key_skipped|].
         by apply Hheld. }
  destruct (load_employee_cases e st st' Hid Hstep)
    as (k & Hkey & [(existing & u & Hk & Hu & ->)|(row & Hk & Hnew & ->)]);
    simpl.
  - split.
    + intros e' k' Hin He'. rewrite lookup_insert_is_Some.
      destruct (decide (k = k')) as [|Hne]; [by left|]. right. split; [done|].
      apply elem_of_app in Hin as [Hin | ->%list_elem_of_singleton];
        [by eapply Hthere | congruence].
    + intros k' row'. destruct (decide (k' = k)) as [->|Hne].
      * rewrite lookup_insert_eq. intros [= <-].
        apply holds_assign;
          [apply (Employee_values_stable pony laws) | by apply has_key_eq
          | done | by apply Hheld].
      * rewrite lookup_insert_ne by done. intros Hk'.
        apply holds_skip; [by eapply has_key_ne | by apply Hheld].
  - split.
    + intros e' k' Hin He'. rewrite lookup_insert_is_Some.
      destruct (decide (k = k')) as [|Hne]; [by left|]. right. split; [done|].
      apply elem_of_app in Hin as [Hin | ->%list_elem_of_singleton];
        [by eapply Hthere | congruence].
    + intros k' row'. destruct (decide (k' = k)) as [->|Hne].
      * rewrite lookup_insert_eq. intros [= <-].
        destruct (Employee_new_values pony laws e row Hnew) as (u & Hu & Hsub).
        apply (holds_new _ _ _ _ _ u); [|done..].
        intros e' Hin. destruct (has_key k e') eqn:E; [|done].
        apply has_key_Some in E. destruct (Hthere e' k Hin E) as [? ?].
        congruence.
      * rewrite lookup_insert_ne by done. intros Hk'.
        apply holds_skip; [by eapply has_key_ne | by apply Hheld].
Qed.

Lemma loaded_ids_loop (es done_ : list record) st st' :
  load_employees_loop es st = Return st' →
  loaded_ids done_ (rows_of st) → loaded_ids (done_ ++ es) (rows_of st').
Proof.
  revert done_ st. induction es as [|e es IH]; intros done_ st; simpl.
  - intros [= <-]. by rewrite app_nil_r.
  - intros (st1 & Hstep & Hrest)%outcome_bind_return Hinv.
    rewrite (cons_middle e done_ es), app_assoc.
    apply (IH _ st1); [done|]. by eapply loaded_ids_step.
Qed.

Lemma load_employees_loop_keys (es : list record) st st' :
  load_employees_loop es st = Return st' →
  ∀ e, e ∈ es → has_id e = true → ∃ k, id_key e = Some k.
Proof.
  revert st. induction es as [|e0 es IH]; intros st; simpl.
  - by intros _ e ?%elem_of_nil.
  - intros (st1 & Hstep & Hrest)%outcome_bind_return e [->|Hin]%elem_of_cons Hid.
    + destruct (load_employee_cases e0 st st1 Hid Hstep) as (k & Hk & _). eauto.
    + by apply (IH st1).
Qed.

Lemma load_employees_loop_found (es : list record) st :
  (∀ e, e ∈ es → has_id e = true →
        ∃ k, id_key e = Some k ∧ is_Some (rows_of st !! k)) →
  (∀ k row e, rows_of st !! k = Some row → e ∈ es → has_key k e = true →
              ∃ u, Employee_values row e = Return u) →
  ∃ st', load_employees_loop es st = Return st'
         ∧ loaded st' = loaded st
         ∧ ∀ k, rows_of st' !! k
                = (λ row, foldl (assign Employee_values (has_key k)) row es)
                  <$> rows_of st !! k.
Proof.
  revert st. induction es as [|e es IH]; intros st Hes Hvalues; simpl.
  - exists st. split; [done|]. split; [done|]. intros k.
    by destruct (rows_of st !! k).
  - destruct (has_id e) eqn:Hid.
    + destruct (Hes e) as (k & Hkey & existing & Hk); [left | done |].
      destruct (Hvalues k existing e) as [u Hu];
        [done | left | by apply has_key_eq |].
      assert (load_employee e st
              = Return (Loading (<[k := u ∪ existing]> (rows_of st))
                                (loaded st) (updated st + 1))) as ->.
      { apply id_key_Some in Hkey as [_ Hkey].
        unfold load_employee. fold (has_id e). rewrite Hid. simpl.
        assert (item e "employee_id" = Return (get_none e "employee_id")) as ->.
        { unfold has_id, get_none, get, item in *.
          by destruct (e !! "employee_id"). }
        simpl. unfold Employee.get. rewrite Hkey. simpl. rewrite Hk.
        unfold Employee.set. by rewrite Hu. }
      simpl.
      destruct (IH (Loading (<[k := u ∪ existing]> (rows_of st))
                            (loaded st) (updated st + 1)))
        as (st' & -> & Hloaded & Hrows).
      { intros e' Hin He'. destruct (Hes e') as (k' & Hkey' & Hsome);
          [by right | done |].
        exists k'. split; [done|]. simpl. rewrite lookup_insert_is_Some.
        destruct (decide (k = k')); auto. }
      { simpl. intros k' row e' Hk' Hin He'.
        destruct (decide (k' = k)) as [->|Hne].
        - rewrite lookup_insert_eq in Hk'. injection Hk' as <-.
          destruct (Hvalues k existing e') as [v Hv]; [done | by right | done |].
          exists v. by apply (Employee_values_stable pony laws existing e' e v u).
        - rewrite lookup_insert_ne in Hk' by done.
          apply (Hvalues k' row e'); [done | by right | done]. }
      exists st'. split; [done|]. split; [done|]. intros k'. rewrite Hrows. simpl.
      destruct (decide (k' = k)) as [->|Hne].
      * rewrite lookup_insert_eq, Hk. simpl. f_equal. f_equal.
        unfold assign. by rewrite (has_key_eq k e), Hu.
      * rewrite lookup_insert_ne by done.
        destruct (rows_of st !! k') as [row|]; [|done]. simpl. f_equal. f_equal.
        unfold assign. by rewrite (has_key_ne k k' e).
    + rewrite load_employee_skip by done. simpl.
      destruct (IH st) as (st' & -> & Hloaded & Hrows).
      { intros e' Hin. apply Hes. by right. }
      { intros k row e' Hk Hin. apply (Hvalues k row e'); [done | by right]. }
      exists st'. split; [done|]. split; [done|]. intros k. rewrite Hrows.
      destruct (rows_of st !! k) as [row|]; [|done]. simpl. f_equal. f_equal.
      unfold assign. by rewrite has_key_skipped.
Qed.

Lemma load_employees_twice (employees : list record)
    (rows rows1 : Employee.table) :
  result (load_employees employees rows) = Return rows1 →
  ∃ n : Z, load_employees employees rows1
       = Io (Return rows1)
            [LogInfo ("Employees: 0 added, " +:+ pretty n +:+ " updated.")].
Proof.
  intros Hfirst.
  assert (∃ st, load_employees_loop employees (Loading rows 0 0) = Return st
                ∧ rows_of st = rows1) as (st & Hrun & <-).
  { unfold load_employees in Hfirst.
    destruct (load_employees_loop employees (Loading rows 0 0)) as [st|];
      [|done].
    exists st. split; [done|]. simpl in Hfirst. by injection Hfirst. }
  destruct (loaded_ids_loop employees [] _ _ Hrun) as [Hthere Hheld].
  { split; [by intros e k ?%elem_of_nil | intros k row _; apply holds_nil]. }
  simpl in Hthere, Hheld.
  destruct (load_employees_loop_found employees (Loading (rows_of st) 0 0))
    as (st' & Hrun' & Hloaded & Hrows).
  { intros e Hin He. simpl.
    destruct (load_employees_loop_keys _ _ _ Hrun e Hin He) as [k Hk].
    exists k. split; [done|]. by eapply Hthere. }
  { simpl. intros k row e Hk Hin. by apply (proj1 (Hheld k row Hk)). }
  assert (rows_of st' = rows_of st) as Hsame.
  { apply map_eq. intros k. rewrite Hrows. simpl.
    destruct (rows_of st !! k) as [row|] eqn:Hk; [|done]. simpl. f_equal.
    apply holds_fixed; [apply (Employee_values_stable pony laws)|].
    by apply Hheld. }
  exists (updated st'). unfold load_employees. rewrite Hrun'.
  unfold lift, emit, mbind, io_bind, mret, io_ret. simpl.
  rewrite Hsame, Hloaded. reflexivity.
Qed.

(** C1, amended.  Let the ORM validate an email alike in the lookup, in
    the constructor and in [set]; let the row it makes of keyword
    arguments accept them in [set] and have the values they assign; and
    let what [set] accepts and assigns not depend on an earlier [set] on
    the row ([PonyLaws]).  Let every customer record that has a name have
    a truthy email.  If a run of the two loaders returns, a second run on
    the same records and on the tables the first one left returns too,
    leaves the same rows and adds none: it logs "0 added".  For
    employees, found by their primary key, this needs no assumption on
    the records. *)
Theorem C1_reload_idempotent (customers employees : list record)
    (rows rows1 : Customer.table) (staff staff1 : Employee.table) :
  (∀ c, c ∈ customers → truthy (get_none c "name") = true →
        truthy (get_none c "email") = true) →
  result (load_customers customers rows) = Return rows1 →
  result (load_employees employees staff) = Return staff1 →
  (∃ n : Z, load_customers customers rows1
            = Io (Return rows1)
                 [LogInfo ("Customers: 0 added, " +:+ pretty n +:+ " updated.")])
  ∧ (∃ n : Z, load_employees employees staff1
              = Io (Return staff1)
                   [LogInfo ("Employees: 0 added, " +:+ pretty n +:+ " updated.")]).
Proof.
  intros Hemail Hc He. split.
  - by eapply load_customers_twice.
  - by eapply load_employees_twice.
Qed.

End Employees_twice.

Lemma plain_laws : PonyLaws plain.
Proof.
  split; simpl.
  - intros c rows row s _ Hs [= <-]. unfold Customer.has_email, get_none, get in *.
    destruct (c !! "email") as [[| | | |s']|]; simpl in *; try done.
    injection Hs as ->. apply String.eqb_refl.
  - intros c existing u s _ Hs [= <-].
    unfold Customer.has_email, get_none, get in *.
    destruct (c !! "email") as [[| | | |s']|]; simpl in *; try done.
    injection Hs as ->. apply String.eqb_refl.
  - intros c rows row [= <-]. by exists c.
  - by intros existing c c' u u' [= <-] _.
  - intros e row [= <-]. by exists e.
  - by intros existing e e' u u' [= <-] _.
Qed.

(** C1 as stated fails: a customer record without email is inserted again
    by the second run. *)
Lemma C1_customer_without_email_duplicated :
  result (load_customers (pony := plain) [cust_no_email] [])
  = Return [cust_no_email]
  ∧ result (load_customers (pony := plain) [cust_no_email] [cust_no_email])
    = Return [cust_no_email; cust_no_email].
Proof. split; reflexivity. Qed.

(** C1, amended, on two customers of the same email, one record without
    a name, and one employee, loaded in tables that hold other rows. *)
Lemma C1_reload_idempotent_witness :
  result (load_customers (pony := plain)
            [cust_new; cust_no_name; cust_newer] [row_bob])
  = Return [row_bob; cust_newer ∪ cust_new]
  ∧ result (load_customers (pony := plain)
              [cust_new; cust_no_name; cust_newer]
              [row_bob; cust_newer ∪ cust_new])
    = Return [row_bob; cust_newer ∪ cust_new]
  ∧ result (load_employees (pony := plain) [emp_e1] ∅)
    = Return {[ "E1" := emp_e1 ]}
  ∧ result (load_employees (pony := plain) [emp_e1] {[ "E1" := emp_e1 ]})
    = Return {[ "E1" := emp_e1 ]}.
Proof.
  destruct (C1_reload_idempotent (pony := plain) plain_laws
              [cust_new; cust_no_name; cust_newer] [emp_e1]
              [row_bob] [row_bob; cust_newer ∪ cust_new]
              ∅ {[ "E1" := emp_e1 ]}) as [[n Hc] [m He]].
  - intros c Hin Hname.
    apply elem_of_cons in Hin as [->|Hin];
      [|apply elem_of_cons in Hin as [->|Hin];
        [|apply elem_of_cons in Hin as [->|Hin]]].
    + reflexivity.
    + discriminate Hname.
    + reflexivity.
    + by apply elem_of_nil in Hin.
  - reflexivity.
  - reflexivity.
  - split_and!; [reflexivity | by rewrite Hc | reflexivity | by rewrite He].
Defined.

(** ** More on the helpers and the extractors *)

(** X1.  [safe_int] is not safe for every value: it raises exactly on an
    infinite float, and then [OverflowError], which line 88 does not
    catch; on [None] and on any string it returns, the default when the
    string is no integer literal. *)
Theorem X1_safe_int_raises_only_overflow (v : value) (dflt : Z) (e : exn) :
  (safe_int v dflt = Raise e ↔
   e = OverflowError ∧ ∃ f, v = VFloat f ∧ infinite f)
  ∧ safe_int VNone dflt = Return dflt
  ∧ (∀ s, safe_int (VStr s) dflt
          = Return (default dflt (PyInt.of_string s))).
Proof.
  split; [|split; [done|]].
  - unfold safe_int, py_int, infinite. split.
    + destruct v as [|b|z|f|s]; try done.
      * unfold PyInt.of_float. destruct (Prim2SF f) eqn:E; try done.
        intros [= <-]. eauto.
      * by destruct (PyInt.of_string s).
    + intros (-> & f & -> & s & Hf). unfold PyInt.of_float. by rewrite Hf.
  - intros s. unfold safe_int, py_int. by destruct (PyInt.of_string s).
Qed.

Lemma X1_safe_int_raises_only_overflow_witness :
  safe_int (VFloat infinity) 0 = Raise OverflowError.
Proof.
  apply (X1_safe_int_raises_only_overflow (VFloat infinity) 0 OverflowError).
  split; [reflexivity|]. exists infinity. split; [reflexivity|].
  exists false. reflexivity.
Defined.

Lemma safe_int_opt_value o dflt : ∃ z, safe_int (opt_value o) dflt = Return z.
Proof. destruct o as [s|]; [apply safe_int_str | by exists dflt]. Qed.

Lemma vehicles_of_total (employees : list element) :
  ∃ vs, vehicles_of employees = Return vs
        ∧ Vehicle.FullName <$> vs
          = element_full_name
            <$> filter (λ e, is_Some (ET.find e "VehicleInfo")) employees.
Proof.
  induction employees as [|employee employees (vs & IH & Hnames)].
  - by exists [].
  - rewrite filter_cons. simpl vehicles_of.
    destruct (decide (is_Some (ET.find employee "VehicleInfo"))) as [[info E]|Hn].
    + rewrite E.
      destruct (safe_int_opt_value (ET.findtext info ["Year"] None) 0) as [year ->].
      simpl. rewrite IH. simpl. eexists. split; [done|].
      rewrite !fmap_cons. by f_equal.
    + destruct (ET.find employee "VehicleInfo") eqn:E; [by destruct Hn|].
      by exists vs.
Qed.

Section More_extraction.
Context {parsers : Parsers}.

(** X2.  When the vehicles file parses, [extract_vehicles] never raises.
    A root without children is handled like a missing file: one printed
    line and the empty list.  Otherwise nothing is logged and the result
    holds one vehicle per [Employee] child that has a [VehicleInfo]
    child, in order, under the name made of its [FirstName] and
    [SecondName] attributes; employees without [VehicleInfo] are left
    out. *)
Theorem X2_extract_vehicles_parsed (fs : filesystem) (path content : string)
    (root : element) :
  fs !! path = Some content → ET_parse content = Return root →
  (ET.children root = [] →
   extract_vehicles fs path
   = Io (Return []) [Print "Failed to parse XML file or file is empty."])
  ∧ (ET.children root ≠ [] →
     ∃ vs, extract_vehicles fs path = Io (Return vs) []
           ∧ Vehicle.FullName <$> vs
             = element_full_name
               <$> filter (λ e, is_Some (ET.find e "VehicleInfo"))
                          (ET.findall root "Employee")).
Proof.
  intros Hfile Hparse. unfold extract_vehicles, extract_file.
  rewrite Hfile. simpl. rewrite Hparse. unfold lift. simpl.
  unfold mbind, io_bind. simpl. unfold ET.truthy. split.
  - by intros ->.
  - intros Hne. destruct (ET.children root) eqn:E; [done|].
    destruct (vehicles_of_total (ET.findall root "Employee")) as (vs & -> & Hvs).
    by exists vs.
Qed.

End More_extraction.

Lemma X2_extract_vehicles_parsed_witness :
  ∃ vs, extract_vehicles (parsers := xml_reading xml_employees)
          {[ "vehicles.xml" := "(the text of xml_employees)" ]} "vehicles.xml"
        = Io (Return vs) []
        ∧ Vehicle.FullName <$> vs = ["Dee Fox"].
Proof.
  destruct (X2_extract_vehicles_parsed (parsers := xml_reading xml_employees)
              {[ "vehicles.xml" := "(the text of xml_employees)" ]}
              "vehicles.xml" "(the text of xml_employees)" xml_employees)
    as [_ H]; [reflexivity | reflexivity |].
  destruct H as (vs & Hrun & Hnames); [discriminate|].
  exists vs. split; [exact Hrun | exact Hnames].
Defined.

(** X3.  The billing extractor and the customer transformation derive the
    same name from the same first and last name: for a customer record
    and a billing element with the strings [f] and [l] as first and last
    name, not both blank, the key of the record (line 177) is the name of
    the billing record (line 115), so that the join of line 195 finds
    it. *)
Theorem X3_billing_name_is_customer_key (cust : element) (c : record)
    (f l : string) :
  ET.findtext cust ["FirstName"] (Some "") = Some f →
  ET.findtext cust ["LastName"] (Some "") = Some l →
  c !! "first_name" = Some (VStr f) →
  c !! "last_name" = Some (VStr l) →
  Py.strip (f +:+ " " +:+ l) ≠ "" →
  customer_key c = Return (Some (Billing.name (billing_of cust)))
  ∧ Billing.name (billing_of cust) = Py.strip (f +:+ " " +:+ l).
Proof.
  intros Hf Hl Hcf Hcl Hne.
  assert (Billing.name (billing_of cust) = Py.strip (f +:+ " " +:+ l)) as Hname.
  { unfold billing_of. simpl. rewrite Hf, Hl. simpl.
    by destruct (String.eqb_spec (Py.strip (f +:+ " " +:+ l)) ""). }
  split; [|done]. rewrite Hname.
  unfold customer_key, customer_name, get. rewrite Hcf, Hcl. simpl.
  unfold py_or. simpl.
  destruct (String.eqb_spec (Py.strip (f +:+ " " +:+ l)) ""); [done|].
  simpl. destruct (String.eqb_spec (Py.strip (f +:+ " " +:+ l)) ""); [done|].
  simpl. by rewrite strip_idemp.
Qed.

Lemma X3_billing_name_is_customer_key_witness :
  customer_key ann_spaced = Return (Some (Billing.name (billing_of xml_customer)))
  ∧ Billing.name (billing_of xml_customer) = "Ann Lee".
Proof.
  apply (X3_billing_name_is_customer_key xml_customer ann_spaced " Ann" "Lee ");
    [reflexivity | reflexivity | reflexivity | reflexivity | discriminate].
Defined.

Lemma kind_of_employee raw :
  kind_of raw = EmployeeLine → Py.startswith (Py.strip raw) "Employee ID:" = true.
Proof. unfold kind_of. by repeat case_match. Qed.

Lemma kind_of_prompt raw :
  kind_of raw = PromptLine →
  Py.startswith (Py.strip raw) "Employee ID:" = false
  ∧ Py.startswith (Py.strip raw) "Timestamp:" = false
  ∧ Py.startswith (Py.strip raw) "Prompt:" = true.
Proof. unfold kind_of. by repeat case_match. Qed.

Lemma scan_line_no_employee st raw :
  kind_of raw ≠ EmployeeLine → id_truthy (current_id st) = false →
  scan_line st raw = Return st.
Proof.
  unfold kind_of, scan_line. intros Hkind ->.
  destruct (Py.startswith (Py.strip raw) "Employee ID:"); [done|].
  by rewrite !andb_false_r.
Qed.

Lemma scan_lines_no_employee st lines :
  Forall (λ l, kind_of l ≠ EmployeeLine) lines →
  id_truthy (current_id st) = false →
  scan_lines st lines = Return st.
Proof.
  induction 1 as [|raw lines Hraw _ IH]; intros Hid; [done|].
  simpl. rewrite scan_line_no_employee by done. simpl. by apply IH.
Qed.

Lemma scan_lines_Raise st lines1 lines2 e :
  scan_lines st lines1 = Raise e → scan_lines st (lines1 ++ lines2) = Raise e.
Proof.
  revert st. induction lines1 as [|raw lines1 IH]; intros st; simpl; [done|].
  destruct (scan_line st raw) as [st'|]; simpl; [apply IH | done].
Qed.

Section More_flagged_prompts.
Context {parsers : Parsers}.

(** X4.  Timestamps and prompts that no "Employee ID:" line precedes are
    ignored: a file without any "Employee ID:" line gives the empty list,
    without error or log. *)
Theorem X4_flagged_prompts_without_employee (fs : filesystem)
    (path content : string) :
  fs !! path = Some content →
  Forall (λ l, kind_of l ≠ EmployeeLine) (readlines content) →
  extract_flagged_prompts fs path = Io (Return []) [].
Proof.
  intros Hfile Hlines. unfold extract_flagged_prompts, extract_file.
  rewrite Hfile. simpl. unfold lift, mbind, io_bind. simpl.
  by rewrite scan_lines_no_employee.
Qed.

(** X5.  A "Prompt:" line that comes right after the first
    "Employee ID:" line, whose id is not empty, makes
    [extract_flagged_prompts] raise [IndexError] (line 165 takes the last
    of an empty list), whatever follows. *)
Theorem X5_prompt_without_timestamp_raises (fs : filesystem)
    (path content : string) (before : list string) (l1 l2 : string)
    (rest : list string) :
  fs !! path = Some content →
  readlines content = before ++ l1 :: l2 :: rest →
  Forall (λ l, kind_of l ≠ EmployeeLine) before →
  kind_of l1 = EmployeeLine → field_of l1 ≠ "" →
  kind_of l2 = PromptLine →
  extract_flagged_prompts fs path = Io (Raise IndexError) [].
Proof.
  intros Hfile Hlines Hbefore H1 Hid H2.
  assert (scan_lines (Scan [] None) (before ++ [l1; l2]) = Raise IndexError)
    as Hraise.
  { clear Hfile Hlines. apply kind_of_employee in H1 as E1.
    apply kind_of_prompt in H2 as (E2 & E3 & E4). unfold field_of in Hid.
    assert (∀ st, by_id st = [] → id_truthy (current_id st) = false →
              scan_lines st (before ++ [l1; l2]) = Raise IndexError) as Hgen.
    { intros st Hempty Hcur. induction Hbefore as [|raw before Hraw _ IH]; simpl.
      - unfold scan_line. cbv zeta. rewrite E1.
        destruct (after_colon_prefix "Employee ID:" "" _ E1 eq_refl) as [r Hr].
        unfold field_after_colon. rewrite Hr in *. simpl in *.
        rewrite Hempty, E2, E3, E4.
        destruct (after_colon_prefix "Prompt:" "" _ E4 eq_refl) as [p Hp].
        simpl. destruct (String.eqb_spec (Py.strip r) ""); [done|]. simpl.
        unfold entries_of. rewrite Hp. simpl.
        by rewrite String.eqb_refl.
      - rewrite scan_line_no_employee by done. simpl. apply IH. }
    by apply Hgen. }
  unfold extract_flagged_prompts, extract_file. rewrite Hfile. simpl.
  unfold lift, mbind, io_bind. simpl. rewrite Hlines.
  replace (before ++ l1 :: l2 :: rest) with ((before ++ [l1; l2]) ++ rest)
    by (by rewrite <- app_assoc).
  by rewrite (scan_lines_Raise _ _ _ _ Hraise).
Qed.

End More_flagged_prompts.

Lemma X4_flagged_prompts_without_employee_witness :
  extract_flagged_prompts (parsers := rejecting_parsers)
    lone_timestamp "flagged.txt" = Io (Return []) [].
Proof.
  apply (X4_flagged_prompts_without_employee (parsers := rejecting_parsers)
           lone_timestamp "flagged.txt" "Timestamp: 12:00"); [reflexivity|].
  repeat constructor. discriminate.
Defined.

Lemma X5_prompt_without_timestamp_raises_witness :
  extract_flagged_prompts (parsers := rejecting_parsers)
    prompt_first "flagged.txt" = Io (Raise IndexError) [].
Proof.
  eapply (X5_prompt_without_timestamp_raises (parsers := rejecting_parsers)
            prompt_first "flagged.txt" _ [_] _ _ [_]);
    [reflexivity | reflexivity | | reflexivity | discriminate | reflexivity].
  repeat constructor. discriminate.
Defined.

(** ** More on the transformation of customers *)

Lemma customer_key_Raise (c : record) e :
  customer_key c = Raise e ↔ e = AttributeError ∧ unstrippable c.
Proof.
  unfold customer_key, unstrippable.
  destruct (truthy (customer_name c)) eqn:Ht; simpl.
  - destruct (customer_name c) as [|b|z|f|s] eqn:Hn;
      try (split; [by intros [= <-] | by intros [-> _]]).
    split; [done|]. intros (_ & _ & Hs). by destruct (Hs s).
  - split; [done|]. by intros (_ & ? & _).
Qed.

Lemma customers_loop_Raise d cs e :
  customers_loop d cs = Raise e ↔
  e = AttributeError ∧ ∃ c, c ∈ cs ∧ unstrippable c.
Proof.
  revert d. induction cs as [|c cs IH]; intros d; simpl.
  - split; [done|]. by intros (_ & c & ?%elem_of_nil & _).
  - destruct (customer_key c) as [o|e'] eqn:Hkey; simpl.
    + assert (¬ unstrippable c) as Hok.
      { intros Hbad.
        assert (customer_key c = Raise AttributeError) as Hr
          by (by apply customer_key_Raise).
        congruence. }
      assert (customers_loop
                (match o with Some k => customers_merge k c d | None => d end) cs
              = Raise e ↔ e = AttributeError ∧ ∃ c0, c0 ∈ c :: cs ∧ unstrippable c0)
        as Hgoal.
      { rewrite IH. split.
        - intros (-> & c' & Hin & Hbad). split; [done|]. exists c'.
          split; [by right | done].
        - intros (-> & c' & [->|Hin]%elem_of_cons & Hbad); [done|]. eauto. }
      by destruct o.
    + apply customer_key_Raise in Hkey as [-> Hbad]. split.
      * intros [= <-]. split; [done|]. exists c. split; [left | done].
      * by intros [-> _].
Qed.

(** X6.  [transform_customers] never logs, and it raises exactly when
    some input record has, for name at line 175, a truthy value that is
    not a string (a number for company name, with no first and last
    name); the error is the [AttributeError] of [name.strip()]. *)
Theorem X6_transform_customers_raises (csv_data json_data : list record)
    (e : exn) :
  (result (transform_customers csv_data json_data) = Raise e ↔
   e = AttributeError ∧ ∃ c, c ∈ csv_data ++ json_data ∧ unstrippable c)
  ∧ trace (transform_customers csv_data json_data) = [].
Proof.
  split; [|done]. rewrite <- (customers_loop_Raise []).
  unfold transform_customers, customers_dict. simpl.
  destruct (customers_loop [] (csv_data ++ json_data)); simpl.
  - split; intros H; discriminate H.
  - split; intros [= <-]; reflexivity.
Qed.

Lemma X6_transform_customers_raises_witness :
  result (transform_customers [ann] [numbered_company]) = Raise AttributeError.
Proof.
  apply (X6_transform_customers_raises [ann] [numbered_company] AttributeError).
  split; [reflexivity|]. exists numbered_company. split.
  - apply elem_of_cons. right. apply elem_of_cons. left. reflexivity.
  - split; [reflexivity | discriminate].
Defined.

Lemma customers_merge_keys k c (d : odict record) :
  map fst (customers_merge k c d)
  = match od_lookup k d with
    | Some _ => map fst d
    | None => map fst d ++ [k]
    end.
Proof.
  unfold customers_merge, od_setdefault.
  destruct (od_lookup k d) eqn:E.
  - rewrite od_set_keys; [done | congruence].
  - rewrite od_set_keys, od_set_keys_new; [done..|].
    by rewrite od_lookup_set_eq.
Qed.

Lemma customers_loop_keys d0 cs d :
  customers_loop d0 cs = Return d → NoDup (map fst d0) →
  NoDup (map fst d)
  ∧ (∀ k, k ∈ map fst d ↔
          k ∈ map fst d0 ∨ ∃ c, c ∈ cs ∧ customer_key c = Return (Some k))
  ∧ (length d ≤ length d0 + length cs)%nat.
Proof.
  revert d0. induction cs as [|c cs IH]; intros d0; simpl.
  - intros [= <-] Hd. split_and!; [done | | lia].
    intros k. split; [by left|]. by intros [?|(c & ?%elem_of_nil & _)].
  - intros (o & Hkey & Hrun)%outcome_bind_return Hd. destruct o as [k0|].
    + destruct (IH _ Hrun) as (Hnd & Hkeys & Hlen);
        [by apply customers_merge_NoDup|].
      split; [done|]. split.
      * intros k. rewrite Hkeys, customers_merge_keys.
        assert (k ∈ (match od_lookup k0 d0 with
                     | Some _ => map fst d0
                     | None => map fst d0 ++ [k0]
                     end) ↔ k ∈ map fst d0 ∨ k = k0) as ->.
        { destruct (od_lookup k0 d0) eqn:E.
          - split; [by left|]. intros [?| ->]; [done|].
            apply dec_stable. intros Hn. apply od_lookup_None in Hn. congruence.
          - rewrite elem_of_app, list_elem_of_singleton. done. }
        split.
        -- intros [[?| ->]|(c' & Hin & Hc')]; [by left | |].
           ++ right. exists c. split; [left | done].
           ++ right. exists c'. split; [by right | done].
        -- intros [?|(c' & [->|Hin]%elem_of_cons & Hc')].
           ++ by left; left.
           ++ left. right. congruence.
           ++ right. eauto.
      * assert (length (customers_merge k0 c d0) ≤ S (length d0))%nat as Hm.
        { rewrite <- !(length_map fst), customers_merge_keys.
          destruct (od_lookup k0 d0); [lia|]. rewrite length_app. simpl. lia. }
        lia.
    + destruct (IH _ Hrun Hd) as (Hnd & Hkeys & Hlen).
      split; [done|]. split; [|lia].
      intros k. rewrite Hkeys. split.
      * intros [?|(c' & Hin & Hc')]; [by left|]. right. exists c'.
        split; [by right | done].
      * intros [?|(c' & [->|Hin]%elem_of_cons & Hc')]; [by left | congruence |].
        right. eauto.
Qed.

(** X7.  When [transform_customers] returns, its dictionary has no key
    twice, its keys are exactly the keys (line 177) of the input records,
    and the output has at most as many records as the two sources
    together: records of the same key are merged, never duplicated. *)
Theorem X7_customers_keys (csv_data json_data : list record)
    (d : odict record) :
  customers_dict csv_data json_data = Return d →
  NoDup (map fst d)
  ∧ (∀ k, k ∈ map fst d ↔
          ∃ c, c ∈ csv_data ++ json_data ∧ customer_key c = Return (Some k))
  ∧ (length (od_values d) ≤ length csv_data + length json_data)%nat.
Proof.
  intros Hrun. unfold customers_dict in Hrun.
  destruct (customers_loop_keys [] _ d Hrun) as (Hnd & Hkeys & Hlen);
    [constructor|].
  split; [done|]. split.
  - intros k. rewrite Hkeys. split; [|by right].
    by intros [?%elem_of_nil|?].
  - unfold od_values. rewrite length_map. rewrite length_app in Hlen. simpl in Hlen. lia.
Qed.

Lemma X7_customers_keys_witness :
  ∃ d, customers_dict [ann; nameless; acme_a] [ann_json] = Return d
       ∧ NoDup (map fst d) ∧ length (od_values d) = 2%nat.
Proof.
  eexists. split; [reflexivity|].
  destruct (X7_customers_keys [ann; nameless; acme_a] [ann_json] _ eq_refl)
    as (Hnd & _ & _).
  split; [exact Hnd | reflexivity].
Defined.

Lemma customers_loop_Return_app d l1 l2 d' :
  customers_loop d (l1 ++ l2) = Return d' →
  ∃ d1, customers_loop d l1 = Return d1 ∧ customers_loop d1 l2 = Return d'.
Proof.
  rewrite customers_loop_app.
  destruct (customers_loop d l1) as [d1|]; simpl; [eauto | done].
Qed.

Lemma customers_loop_field d cs d' k f v r :
  customers_loop d cs = Return d' →
  od_lookup k d = Some r → r !! f = Some v →
  (∀ c', c' ∈ cs → customer_key c' = Return (Some k) → c' !! f = None) →
  ∃ r', od_lookup k d' = Some r' ∧ r' !! f = Some v.
Proof.
  revert d r. induction cs as [|c cs IH]; intros d r; simpl.
  - intros [= <-]. eauto.
  - intros (o & Hkey & Hrun)%outcome_bind_return Hr Hv Hlater.
    assert (∀ c', c' ∈ cs → customer_key c' = Return (Some k) → c' !! f = None)
      as Hlater' by (intros c' Hin; apply Hlater; by right).
    destruct o as [k0|]; [|by eapply IH].
    destruct (decide (k0 = k)) as [->|Hne].
    + eapply (IH _ _ Hrun); [|  | done].
      * rewrite customers_merge_lookup_eq, Hr. done.
      * rewrite lookup_union_r; [done|]. apply Hlater; [left | done].
    + eapply (IH _ _ Hrun); [|done..].
      by rewrite customers_merge_lookup_ne.
Qed.

(** X8.  The last record that defines a field wins: when
    [transform_customers] returns, for a record [c] of key [k] that gives
    the field [f] the value [v], no later record of key [k] having the
    field, the record filed under [k] has [f] equal to [v]. *)
Theorem X8_last_write_wins (csv_data json_data before after : list record)
    (c : record) (k f : string) (v : value) (d : odict record) :
  customers_dict csv_data json_data = Return d →
  csv_data ++ json_data = before ++ c :: after →
  customer_key c = Return (Some k) →
  c !! f = Some v →
  (∀ c', c' ∈ after → customer_key c' = Return (Some k) → c' !! f = None) →
  ∃ r, od_lookup k d = Some r ∧ r ∈ od_values d ∧ r !! f = Some v.
Proof.
  unfold customers_dict. intros Hrun Heq Hkey Hv Hlater. rewrite Heq in Hrun.
  apply customers_loop_Return_app in Hrun as (d1 & _ & Hrun).
  simpl in Hrun. rewrite Hkey in Hrun. simpl in Hrun.
  destruct (customers_loop_field _ _ _ k f v
              (c ∪ default (customer_defaults k c) (od_lookup k d1)) Hrun)
    as (r & Hr & Hf); [apply customers_merge_lookup_eq | | done |].
  { by apply lookup_union_Some_l. }
  exists r. split; [done|]. split; [|done].
  apply od_lookup_elem_of in Hr. unfold od_values.
  apply list_elem_of_fmap. by exists (k, r).
Qed.

Lemma X8_last_write_wins_witness :
  ∃ d r, customers_dict [ann; ann_late] [ann_json] = Return d
         ∧ od_lookup "Ann Lee" d = Some r
         ∧ r !! "phone_number" = Some (VStr "0113").
Proof.
  eexists.
  destruct (X8_last_write_wins [ann; ann_late] [ann_json] [ann] [ann_json]
              ann_late "Ann Lee" "phone_number" (VStr "0113") _ eq_refl)
    as (r & Hr & _ & Hf); [reflexivity | reflexivity | reflexivity | |].
  - intros c' ->%list_elem_of_singleton _. reflexivity.
  - exists r. split; [reflexivity|]. split; [exact Hr | exact Hf].
Defined.

Ltac each_field Ha :=
  repeat (apply elem_of_cons in Ha as [->|Ha]); [..|by apply elem_of_nil in Ha].

Lemma customer_defaults_fields k c :
  has_fields customer_base_fields (customer_defaults k c).
Proof.
  intros a Ha. unfold customer_base_fields in Ha. unfold customer_defaults.
  each_field Ha; eexists; by simplify_map_eq.
Qed.

Lemma has_fields_union fields (c r : record) :
  has_fields fields r → has_fields fields (c ∪ r).
Proof.
  intros Hr a Ha. apply lookup_union_is_Some. right. by apply Hr.
Qed.

Lemma customers_loop_fields d cs d' :
  customers_loop d cs = Return d' →
  Forall (λ e, has_fields customer_base_fields e.2) d →
  Forall (λ e, has_fields customer_base_fields e.2) d'.
Proof.
  revert d. induction cs as [|c cs IH]; intros d; simpl.
  - by intros [= <-].
  - intros (o & _ & Hrun)%outcome_bind_return Hd. destruct o as [k|]; [|eauto].
    apply (IH _ Hrun). apply Forall_forall. intros [k' r'].
    rewrite Forall_forall in Hd. unfold customers_merge, od_setdefault.
    destruct (od_lookup k d) as [r|] eqn:E.
    + intros [[= -> ->]|Hin]%od_set_elem_of; [|by apply Hd].
      apply has_fields_union. apply (Hd (k, r)). by apply od_lookup_elem_of.
    + intros [[= -> ->]|[[= -> ->]|Hin]%od_set_elem_of]%od_set_elem_of;
        [| |by apply Hd]; simpl.
      * apply has_fields_union, customer_defaults_fields.
      * apply customer_defaults_fields.
Qed.

Lemma billing_update_fields cust b :
  has_fields billing_fields (billing_update cust b).
Proof.
  intros a Ha. unfold billing_fields in Ha. unfold billing_update.
  each_field Ha; eexists; by simplify_map_eq.
Qed.

Lemma with_billing_fields m (cust cust' : record) :
  with_billing m cust = Return cust' →
  has_fields customer_base_fields cust →
  has_fields customer_attributes cust'.
Proof.
  unfold with_billing. intros (n & _ & [= <-])%outcome_bind_return Hbase a Ha.
  apply lookup_union_is_Some. unfold customer_attributes in Ha.
  each_field Ha;
    first [ solve [ right; apply Hbase; unfold customer_base_fields;
                    repeat (first [left | right]) ]
          | solve [ left; apply billing_update_fields; unfold billing_fields;
                    repeat (first [left | right]) ] ].
Qed.

(** X9.  The two transformations of customers compose: whatever
    [transform_customers] returns, [transform_customers_with_billing]
    accepts (every record has a [name], so that line 195 raises no
    [KeyError]), returns as many records, and each of them has a value
    for every attribute of the entity [Customer]. *)
Theorem X9_customers_ready_to_load (csv_data json_data basic : list record)
    (billing : list Billing.t) :
  result (transform_customers csv_data json_data) = Return basic →
  ∃ out, transform_customers_with_billing basic billing = Io (Return out) []
         ∧ length out = length basic
         ∧ Forall (has_fields customer_attributes) out.
Proof.
  unfold transform_customers, customers_dict. simpl.
  destruct (customers_loop [] (csv_data ++ json_data)) as [d|] eqn:Hrun;
    [|done].
  simpl. intros [= <-].
  pose proof (customers_loop_fields _ _ _ Hrun (Forall_nil_2 _)) as Hbase.
  assert (Forall (has_fields customer_base_fields) (od_values d)) as Hbase'.
  { unfold od_values. by apply Forall_fmap. }
  destruct (with_billing_loop_total (billing_map billing) (od_values d))
    as (out & Hout & Hall).
  { eapply Forall_impl; [exact Hbase'|]. intros r Hr. apply Hr. left. }
  exists out. unfold transform_customers_with_billing, lift. rewrite Hout.
  split; [done|]. split; [symmetry; by eapply Forall2_length|].
  clear Hout Hbase Hrun. induction Hall as [|r r' rs rs' Hr _ IH]; [done|].
  apply Forall_cons in Hbase' as [Hr0 Hrs]. constructor; [|by apply IH].
  by eapply with_billing_fields.
Qed.

Lemma X9_customers_ready_to_load_witness :
  ∃ out, transform_customers_with_billing
           [ann_json ∪ (ann ∪ customer_defaults "Ann Lee" ann)] [bill_ann]
         = Io (Return out) []
         ∧ Forall (has_fields customer_attributes) out.
Proof.
  destruct (X9_customers_ready_to_load [ann] [ann_json]
              [ann_json ∪ (ann ∪ customer_defaults "Ann Lee" ann)] [bill_ann])
    as (out & Hrun & _ & Hall); [reflexivity|].
  exists out. split; [exact Hrun | exact Hall].
Defined.

(** ** More on the billing join *)

Lemma billing_update_other cust b k :
  k ∉ billing_fields → billing_update cust b !! k = None.
Proof.
  unfold billing_fields, billing_update. intros Hk.
  repeat (rewrite lookup_insert_ne;
          [|intros <-; apply Hk; repeat (first [left | right])]).
  apply lookup_empty.
Qed.

Lemma billing_update_phone cust b :
  billing_update cust b !! "phone_number"
  = Some (py_or (get_none cust "phone_number") (bget b Billing.phone_number)).
Proof. unfold billing_update. by simplify_map_eq. Qed.

(** X10.  The join keeps the telephone number of the customer when it
    has a non-empty one, and otherwise takes the one of the billing
    record of its name (the empty string when there is none); the fields
    other than the seven of lines 197-203 are unchanged. *)
Theorem X10_billing_phone_and_frame (basic : list record)
    (billing : list Billing.t) :
  Forall (λ c : record, is_Some (c !! "name")) basic →
  ∃ out,
    transform_customers_with_billing basic billing = Io (Return out) []
    ∧ ∀ i cust n, basic !! i = Some cust → cust !! "name" = Some n →
        ∃ cust', out !! i = Some cust'
          ∧ (truthy (get_none cust "phone_number") = true →
             cust' !! "phone_number" = cust !! "phone_number")
          ∧ (truthy (get_none cust "phone_number") = false →
             (∀ pre b post, billing = pre ++ b :: post →
                VStr (Billing.name b) = n →
                Forall (λ b', Billing.name b' ≠ Billing.name b) post →
                cust' !! "phone_number" = Some (VStr (Billing.phone_number b)))
             ∧ (Forall (λ b, VStr (Billing.name b) ≠ n) billing →
                cust' !! "phone_number" = Some (VStr "")))
          ∧ (∀ k, k ∉ billing_fields → cust' !! k = cust !! k).
Proof.
  intros Hnames.
  destruct (with_billing_loop_total (billing_map billing) basic Hnames)
    as (out & Hrun & Hall).
  exists out. unfold transform_customers_with_billing, lift. rewrite Hrun.
  split; [done|]. intros i cust n Hi Hn.
  destruct (Forall2_lookup_l _ _ _ _ _ Hall Hi) as (cust' & Hi' & Hc).
  exists cust'. split; [done|].
  unfold with_billing, item in Hc. rewrite Hn in Hc. simpl in Hc.
  injection Hc as <-.
  assert (∀ v, billing_update cust (billing_for (billing_map billing) n)
               !! "phone_number" = Some v →
               (billing_update cust (billing_for (billing_map billing) n) ∪ cust)
               !! "phone_number" = Some v) as Hphone.
  { intros v Hv. by apply lookup_union_Some_l. }
  split_and!.
  - intros Htruthy. rewrite (Hphone _ (billing_update_phone _ _)).
    unfold py_or. rewrite Htruthy. unfold get_none, get in *.
    destruct (cust !! "phone_number"); [done|]. discriminate Htruthy.
  - intros Hfalsy. split.
    + intros pre b post -> <- Hpost.
      rewrite (Hphone _ (billing_update_phone _ _)).
      unfold py_or. rewrite Hfalsy. simpl. unfold billing_map.
      by rewrite (foldl_insert_last Billing.name pre post b ∅ Hpost).
    + intros Hnone. rewrite (Hphone _ (billing_update_phone _ _)).
      unfold py_or. rewrite Hfalsy.
      assert (billing_for (billing_map billing) n = None) as ->; [|done].
      unfold billing_for. destruct n as [| | | |s]; try reflexivity.
      apply foldl_insert_absent; [|done].
      eapply Forall_impl; [exact Hnone|]. cbv beta. intros b' Hb'. congruence.
  - intros k Hk. rewrite lookup_union_r; [done|]. by apply billing_update_other.
Qed.

Lemma X10_billing_phone_and_frame_witness :
  ∃ out c1,
    transform_customers_with_billing [row_ann; cust_ann] [bill_ann]
    = Io (Return out) []
    ∧ out !! 0%nat = Some c1
    ∧ c1 !! "phone_number" = Some (VStr "0113")
    ∧ c1 !! "email" = Some (VStr "ann@example.org").
Proof.
  destruct (X10_billing_phone_and_frame [row_ann; cust_ann] [bill_ann])
    as (out & Hrun & Hout).
  { repeat constructor; eexists; reflexivity. }
  destruct (Hout 0%nat row_ann (VStr "A. Lee") eq_refl eq_refl)
    as (c1 & Hc1 & Hkeep & _ & Hframe).
  exists out, c1. split_and!; [exact Hrun | exact Hc1 | |].
  - rewrite (Hkeep eq_refl). reflexivity.
  - rewrite Hframe; [reflexivity|].
    intros Hin. unfold billing_fields in Hin.
    repeat (apply elem_of_cons in Hin as [Hin|Hin]; [discriminate Hin|]).
    by apply elem_of_nil in Hin.
Defined.

Lemma py_or_absorb (a b : value) : py_or (py_or a b) b = py_or a b.
Proof. unfold py_or. destruct (truthy a) eqn:Ha; [by rewrite Ha|]. by destruct (truthy b). Qed.

Lemma billing_update_ext (c1 c2 : record) b :
  py_or (get_none c1 "phone_number") (bget b Billing.phone_number)
  = py_or (get_none c2 "phone_number") (bget b Billing.phone_number) →
  billing_update c1 b = billing_update c2 b.
Proof. unfold billing_update. by intros ->. Qed.

Lemma with_billing_twice m (cust cust' : record) :
  with_billing m cust = Return cust' → with_billing m cust' = Return cust'.
Proof.
  unfold with_billing, item.
  destruct (cust !! "name") as [n|] eqn:Hn; simpl; [|done]. intros [= <-].
  assert ((billing_update cust (billing_for m n) ∪ cust) !! "name" = Some n)
    as Hn'.
  { rewrite lookup_union_r; [done|]. apply billing_update_other.
    unfold billing_fields. intros Hin.
    repeat (apply elem_of_cons in Hin as [Hin|Hin]; [discriminate Hin|]).
    by apply elem_of_nil in Hin. }
  rewrite Hn'. simpl. f_equal.
  assert (billing_update (billing_update cust (billing_for m n) ∪ cust)
                         (billing_for m n)
          = billing_update cust (billing_for m n)) as ->.
  { apply billing_update_ext. unfold get_none at 1, get.
    rewrite (lookup_union_Some_l _ _ _ _ (billing_update_phone _ _)). simpl.
    apply py_or_absorb. }
  by rewrite (assoc_L (∪)), (idemp_L (∪)).
Qed.

(** X11.  The join is idempotent: joining its own output with the same
    billing records again changes nothing. *)
Theorem X11_billing_join_idempotent (basic out : list record)
    (billing : list Billing.t) :
  result (transform_customers_with_billing basic billing) = Return out →
  transform_customers_with_billing out billing = Io (Return out) [].
Proof.
  unfold transform_customers_with_billing, lift. simpl.
  generalize (billing_map billing) as m. intros m. revert out.
  induction basic as [|cust basic IH]; intros out; simpl.
  - by intros [= <-].
  - intros (cust' & Hc & (rest & Hrest & [= <-])%outcome_bind_return
           )%outcome_bind_return.
    simpl. rewrite (with_billing_twice _ _ _ Hc). simpl.
    specialize (IH rest Hrest). injection IH as ->. done.
Qed.

Lemma X11_billing_join_idempotent_witness :
  transform_customers_with_billing
    [billing_update cust_ann (Some bill_ann) ∪ cust_ann] [bill_ann_old; bill_ann]
  = Io (Return [billing_update cust_ann (Some bill_ann) ∪ cust_ann]) [].
Proof.
  apply (X11_billing_join_idempotent [cust_ann]). reflexivity.
Defined.

(** X12.  The join raises exactly when some customer record has no
    [name] field, and then the [KeyError] of line 195. *)
Theorem X12_billing_join_raises (basic : list record)
    (billing : list Billing.t) (e : exn) :
  result (transform_customers_with_billing basic billing) = Raise e ↔
  e = KeyError "name" ∧ ∃ cust, cust ∈ basic ∧ cust !! "name" = None.
Proof.
  unfold transform_customers_with_billing, lift. simpl.
  generalize (billing_map billing) as m. intros m.
  induction basic as [|cust basic IH]; simpl.
  - split; [done|]. by intros (_ & c & ?%elem_of_nil & _).
  - unfold with_billing at 1, item.
    destruct (cust !! "name") as [n|] eqn:Hn; simpl.
    + destruct (with_billing_loop m basic) as [rest|e'] eqn:Hrest; simpl.
      * split; [done|]. intros (-> & c & [->|Hin]%elem_of_cons & Hc); [congruence|].
        assert (Return rest = Raise (KeyError "name")) as Habs; [|done].
        { apply IH. eauto. }
      * split.
        -- intros Heq. destruct (proj1 IH Heq) as (-> & c & Hin & Hc).
           split; [done|]. exists c. split; [by right | done].
        -- intros (He & c & [->|Hin]%elem_of_cons & Hc); [congruence|].
           apply IH. eauto.
    + split.
      * intros [= <-]. split; [done|]. exists cust. split; [left | done].
      * by intros (-> & _).
Qed.

Lemma X12_billing_join_raises_witness :
  result (transform_customers_with_billing [cust_ann; nameless] [bill_ann])
  = Raise (KeyError "name").
Proof.
  apply (X12_billing_join_raises [cust_ann; nameless] [bill_ann]).
  split; [reflexivity|]. exists nameless. split; [|reflexivity].
  apply elem_of_cons. right. apply elem_of_cons. left. reflexivity.
Defined.

(** ** More on the transformation of employees *)

Lemma employee_info_dom vehicles salaries emp employee_id r :
  employee_info vehicles salaries emp employee_id = Return r →
  dom r = employee_fields.
Proof.
  unfold employee_info.
  intros (age & _ & (retired & _ & (dependants & _ & [= <-])%outcome_bind_return
    )%outcome_bind_return)%outcome_bind_return.
  by rewrite !dom_union_L, !dom_insert_L, !dom_empty_L.
Qed.

Lemma flag_employee_dom by_id emp emp' :
  flag_employee by_id emp = Return emp' →
  dom emp' = {[ "flagged_prompts" ]} ∪ dom emp.
Proof.
  unfold flag_employee. intros (eid & _ & [= <-])%outcome_bind_return.
  by rewrite dom_insert_L.
Qed.

(** X13.  The records that [transform_employees] returns have exactly the
    sixteen fields of lines 223-250, whatever columns the CSV has.  They
    all have an [employee_id], so that [merge_flagged_prompts] accepts
    them without a [KeyError], and the records it returns have exactly
    the attributes of the entity [Employee]. *)
Theorem X13_employees_ready_to_load (employee_csv : list record)
    (vehicle_data : list Vehicle.t) (salary_data : list record)
    (unified : list record) (prompts : list Prompt.t) :
  result (transform_employees employee_csv vehicle_data salary_data)
    = Return unified →
  Forall (λ r : record, dom r = employee_fields) unified
  ∧ ∃ out, merge_flagged_prompts unified prompts = Io (Return out) []
           ∧ length out = length unified
           ∧ Forall (λ r : record, dom r = employee_attributes) out.
Proof.
  intros (salaries & _ & Hbuilt & _)%transform_employees_return.
  assert (Forall (λ r : record, dom r = employee_fields) unified) as Hdom.
  { clear -Hbuilt. induction Hbuilt as [|emp r emps rs Hb _ IH]; [done|].
    constructor; [|done]. by eapply employee_info_dom. }
  split; [done|].
  destruct (flag_employees_total (group_prompts prompts) unified)
    as (out & Hrun & Hall).
  { eapply Forall_impl; [exact Hdom|]. intros r Hr. simpl in Hr.
    apply elem_of_dom. rewrite Hr. unfold employee_fields. set_solver. }
  exists out. unfold merge_flagged_prompts, lift. rewrite Hrun.
  split; [done|]. split; [symmetry; by eapply Forall2_length|].
  clear Hrun Hbuilt. induction Hall as [|r r' rs rs' Hr _ IH]; [done|].
  apply Forall_cons in Hdom as [Hr0 Hrs]. constructor; [|by apply IH].
  rewrite (flag_employee_dom _ _ _ Hr), Hr0. done.
Qed.

Lemma X13_employees_ready_to_load_witness :
  ∃ unified out,
    result (transform_employees [emp_e1; emp_no_id] [other_vehicle] [other_salary])
      = Return unified
    ∧ Forall (λ r : record, dom r = employee_fields) unified
    ∧ merge_flagged_prompts unified [prompt_e1] = Io (Return out) []
    ∧ Forall (λ r : record, dom r = employee_attributes) out.
Proof.
  eexists.
  destruct (X13_employees_ready_to_load [emp_e1; emp_no_id] [other_vehicle]
              [other_salary] _ [prompt_e1] eq_refl)
    as (Hdom & out & Hrun & _ & Hout).
  exists out. split_and!; [reflexivity | exact Hdom | exact Hrun | exact Hout].
Defined.

Lemma employee_record (employee_csv : list record)
    (vehicle_data : list Vehicle.t) (salary_data : list record)
    (salaries : gmap string record) (emp : record) (eid : string) :
  Forall csv_row employee_csv → emp ∈ employee_csv →
  emp !! "employee_id" = Some (VStr eid) → eid ≠ "" →
  salary_dict salary_data = Return salaries →
  ∃ out r,
    result (transform_employees employee_csv vehicle_data salary_data)
      = Return out
    ∧ r ∈ out
    ∧ employee_info (vehicle_dict vehicle_data) salaries emp (VStr eid)
      = Return r.
Proof.
  intros Hrows Hin Hid Hne Hdict.
  destruct (employees_loop_csv_rows (vehicle_dict vehicle_data) salaries
              employee_csv Hrows) as [out Hout].
  assert (result (transform_employees employee_csv vehicle_data salary_data)
          = Return out) as Hrun.
  { unfold transform_employees. rewrite Hdict. simpl. done. }
  apply employees_loop_return in Hout as [Hbuilt _].
  assert (get emp "employee_id" (VStr "") = VStr eid) as Hget.
  { unfold get. by rewrite Hid. }
  assert (emp ∈ filter identified employee_csv) as Hin'.
  { apply list_elem_of_filter. split; [|done].
    unfold identified. rewrite Hget. simpl.
    by destruct (String.eqb_spec eid ""). }
  apply list_elem_of_lookup in Hin' as [i Hi].
  destruct (Forall2_lookup_l _ _ _ _ _ Hbuilt Hi) as (r & Hr & Hb).
  exists out, r. split; [done|]. split; [by eapply list_elem_of_lookup_2|].
  unfold built_from in Hb. by rewrite Hget in Hb.
Qed.

Lemma salary_dict_from_total (salary_data : list record) m :
  Forall (λ s : record, is_Some (s !! "employee_id")) salary_data →
  ∃ m', salary_dict_from m salary_data = Return m'.
Proof.
  intros Hall. revert m.
  induction Hall as [|s l [v Hv] _ IH]; intros m; simpl; [by exists m|].
  unfold item. rewrite Hv. simpl. apply IH.
Qed.

Lemma salary_dict_from_app (l1 l2 : list record) m :
  salary_dict_from m (l1 ++ l2)
  = salary_dict_from m l1 ≫= λ m', salary_dict_from m' l2.
Proof.
  revert m. induction l1 as [|s l1 IH]; intros m; simpl; [done|].
  destruct (item s "employee_id"); simpl; [apply IH | done].
Qed.

Lemma salary_dict_last (before after : list record) (s : record) v :
  Forall (λ s : record, is_Some (s !! "employee_id")) before →
  s !! "employee_id" = Some v →
  Forall (salary_of_other (py_str v)) after →
  ∃ m, salary_dict (before ++ s :: after) = Return m
       ∧ m !! py_str v = Some s.
Proof.
  intros Hbefore Hv Hafter. unfold salary_dict.
  destruct (salary_dict_from_total before ∅ Hbefore) as [m1 H1].
  rewrite salary_dict_from_app, H1. simpl. unfold item. rewrite Hv. simpl.
  assert (<[py_str v := s]> m1 !! py_str v = Some s) as Hm
    by apply lookup_insert_eq.
  revert Hm. generalize (<[py_str v := s]> m1) as m.
  induction Hafter as [|s' l (v' & Hv' & Hne) _ IH]; intros m Hm; simpl.
  - by exists m.
  - unfold item. rewrite Hv'. simpl. apply IH. by rewrite lookup_insert_ne.
Qed.

(** X14.  The salary join compares the id of the CSV row with [str] of
    the id of the salary record (lines 210 and 245), so that a JSON number finds
    the row whose id is its decimal text.  For a row of id [str(v)], the
    salary, pension and commute distance are those of the last salary
    record of id [v]; a field this record lacks is 0. *)
Theorem X14_salary_joined_by_str (employee_csv : list record)
    (vehicle_data : list Vehicle.t) (before after : list record)
    (s emp : record) (v : value) :
  Forall csv_row employee_csv → emp ∈ employee_csv →
  emp !! "employee_id" = Some (VStr (py_str v)) → py_str v ≠ "" →
  Forall (λ s : record, is_Some (s !! "employee_id")) before →
  s !! "employee_id" = Some v →
  Forall (salary_of_other (py_str v)) after →
  ∃ out r,
    result (transform_employees employee_csv vehicle_data (before ++ s :: after))
      = Return out
    ∧ r ∈ out
    ∧ r !! "employee_id" = Some (VStr (py_str v))
    ∧ r !! "salary" = Some (get s "salary" (VInt 0))
    ∧ r !! "pension" = Some (get s "pension" (VInt 0))
    ∧ r !! "commute_distance" = Some (get s "commute_distance" (VInt 0)).
Proof.
  intros Hrows Hin Hid Hne Hbefore Hv Hafter.
  destruct (salary_dict_last before after s v Hbefore Hv Hafter)
    as (salaries & Hdict & Hs).
  destruct (employee_record employee_csv vehicle_data _ salaries emp (py_str v)
              Hrows Hin Hid Hne Hdict) as (out & r & Hrun & Hr & Hinfo).
  exists out, r. split; [done|]. split; [done|].
  unfold employee_info in Hinfo.
  apply outcome_bind_return in Hinfo as (age & _ & Hinfo).
  apply outcome_bind_return in Hinfo as (retired & _ & Hinfo).
  apply outcome_bind_return in Hinfo as (dependants & _ & [= <-]).
  unfold salary_for. rewrite Hs. simpl.
  split_and!; by simplify_map_eq.
Qed.

Lemma X14_salary_joined_by_str_witness :
  ∃ out r,
    result (transform_employees [emp_e1; emp_7] [] [salary_7; other_salary_9])
      = Return out
    ∧ r ∈ out
    ∧ r !! "employee_id" = Some (VStr "7")
    ∧ r !! "salary" = Some (VFloat 50000.5%float)
    ∧ r !! "pension" = Some (VInt 1200)
    ∧ r !! "commute_distance" = Some (VInt 0).
Proof.
  apply (X14_salary_joined_by_str [emp_e1; emp_7] [] [] [other_salary_9]
           salary_7 emp_7 (VInt 7)).
  - repeat constructor; intros k v Hkv; unfold emp_e1, emp_7 in Hkv.
    + apply lookup_insert_Some in Hkv as [[_ <-]|[_ Hkv]]; [eauto|].
      apply lookup_insert_Some in Hkv as [[_ <-]|[_ Hkv]]; [eauto|].
      apply lookup_insert_Some in Hkv as [[_ <-]|[_ Hkv]]; [eauto|].
      discriminate Hkv.
    + apply lookup_insert_Some in Hkv as [[_ <-]|[_ Hkv]]; [eauto|].
      apply lookup_insert_Some in Hkv as [[_ <-]|[_ Hkv]]; [eauto|].
      apply lookup_insert_Some in Hkv as [[_ <-]|[_ Hkv]]; [eauto|].
      discriminate Hkv.
  - apply elem_of_cons. right. apply elem_of_cons. left. reflexivity.
  - reflexivity.
  - discriminate.
  - constructor.
  - reflexivity.
  - repeat constructor. exists (VStr "9"). split; [reflexivity | discriminate].
Defined.

Lemma salary_dict_from_Raise (salary_data : list record) m s :
  s ∈ salary_data → s !! "employee_id" = None →
  salary_dict_from m salary_data = Raise (KeyError "employee_id").
Proof.
  intros Hin Hs. revert m.
  induction salary_data as [|s' l IH]; intros m; [by apply elem_of_nil in Hin|].
  simpl. unfold item.
  destruct (s' !! "employee_id") as [v|] eqn:Hv; simpl; [|done].
  apply elem_of_cons in Hin as [->|Hin]; [congruence|]. by apply IH.
Qed.

(** X15.  A salary record without [employee_id] makes
    [transform_employees] raise the [KeyError] of line 210, before any
    employee is read: nothing is printed, not even for the rows without
    id. *)
Theorem X15_salary_without_id_raises (employee_csv : list record)
    (vehicle_data : list Vehicle.t) (salary_data : list record) (s : record) :
  s ∈ salary_data → s !! "employee_id" = None →
  transform_employees employee_csv vehicle_data salary_data
  = Io (Raise (KeyError "employee_id")) [].
Proof.
  intros Hin Hs. unfold transform_employees, salary_dict.
  by rewrite (salary_dict_from_Raise _ _ s Hin Hs).
Qed.

Lemma X15_salary_without_id_raises_witness :
  transform_employees [emp_no_id; emp_e1] [] [salary_7; salary_no_id]
  = Io (Raise (KeyError "employee_id")) [].
Proof.
  apply (X15_salary_without_id_raises _ _ _ salary_no_id); [|reflexivity].
  apply elem_of_cons. right. apply elem_of_cons. left. reflexivity.
Defined.

(** X16.  The vehicle join takes the last vehicle record filed under the
    full name of the employee (lines 209 and 236); its registration, make and
    model are copied as they are, [None] included (the default [""] is
    for an employee without vehicle only), with its year. *)
Theorem X16_vehicle_joined_by_full_name (employee_csv : list record)
    (before after : list Vehicle.t) (veh : Vehicle.t)
    (salary_data : list record) (emp : record) (eid : string) :
  Forall csv_row employee_csv → emp ∈ employee_csv →
  emp !! "employee_id" = Some (VStr eid) → eid ≠ "" →
  Forall (λ s : record, is_Some (s !! "employee_id")) salary_data →
  Vehicle.FullName veh = full_name emp →
  Forall (λ v', Vehicle.FullName v' ≠ Vehicle.FullName veh) after →
  ∃ out r,
    result (transform_employees employee_csv (before ++ veh :: after) salary_data)
      = Return out
    ∧ r ∈ out
    ∧ r !! "employee_id" = Some (VStr eid)
    ∧ r !! "vehicle_registration"
      = Some (opt_value (Vehicle.RegistrationNumber veh))
    ∧ r !! "vehicle_make" = Some (opt_value (Vehicle.Make veh))
    ∧ r !! "vehicle_model" = Some (opt_value (Vehicle.Model veh))
    ∧ r !! "vehicle_year" = Some (VInt (Vehicle.Year veh)).
Proof.
  intros Hrows Hin Hid Hne Hsal Hname Hafter.
  destruct (salary_dict_from_total salary_data ∅ Hsal) as [salaries Hdict].
  destruct (employee_record employee_csv (before ++ veh :: after) salary_data
              salaries emp eid Hrows Hin Hid Hne Hdict)
    as (out & r & Hrun & Hr & Hinfo).
  exists out, r. split; [done|]. split; [done|].
  unfold employee_info in Hinfo. fold (full_name emp) in Hinfo.
  apply outcome_bind_return in Hinfo as (age & _ & Hinfo).
  apply outcome_bind_return in Hinfo as (retired & _ & Hinfo).
  apply outcome_bind_return in Hinfo as (dependants & _ & [= <-]).
  rewrite <- Hname. unfold vehicle_dict.
  rewrite (foldl_insert_last Vehicle.FullName before after veh ∅ Hafter).
  simpl. split_and!; by simplify_map_eq.
Qed.

Lemma X16_vehicle_joined_by_full_name_witness :
  ∃ out r,
    result (transform_employees [emp_7] [old_vehicle; new_vehicle; other_vehicle_b] [])
      = Return out
    ∧ r ∈ out
    ∧ r !! "vehicle_registration" = Some (VStr "NEW 2")
    ∧ r !! "vehicle_make" = Some VNone
    ∧ r !! "vehicle_year" = Some (VInt 2021).
Proof.
  destruct (X16_vehicle_joined_by_full_name [emp_7] [old_vehicle]
              [other_vehicle_b] new_vehicle [] emp_7 "7")
    as (out & r & Hrun & Hr & _ & Hreg & Hmake & _ & Hyear).
  - repeat constructor; intros k v Hkv; unfold emp_7 in Hkv.
    apply lookup_insert_Some in Hkv as [[_ <-]|[_ Hkv]]; [eauto|].
    apply lookup_insert_Some in Hkv as [[_ <-]|[_ Hkv]]; [eauto|].
    apply lookup_insert_Some in Hkv as [[_ <-]|[_ Hkv]]; [eauto|].
    discriminate Hkv.
  - left.
  - reflexivity.
  - discriminate.
  - constructor.
  - reflexivity.
  - repeat constructor. discriminate.
  - exists out, r. split_and!; [exact Hrun | exact Hr | exact Hreg | exact Hmake | exact Hyear].
Defined.

(** ** More on the loading of customers *)

Section More_on_customers.
Context {pony : Pony}.

(** The three ways in which [load_customer] returns. *)
Lemma load_customer_return (c : record) st st' :
  load_customer c st = Return st' →
  (has_name c = false ∧ st' = st)
  ∨ (has_name c = true
     ∧ ∃ row, Customer_new c (rows_of st) = Return row
              ∧ st' = Loading (rows_of st ++ [row])
                              (loaded st + 1) (updated st))
  ∨ (has_name c = true
     ∧ ∃ s i existing u,
         email_key c = Some s
         ∧ Customer.rows_with_email s 0 (rows_of st) = [i]
         ∧ rows_of st !! i = Some existing
         ∧ Customer_values existing c = Return u
         ∧ st' = Loading (<[i := u ∪ existing]> (rows_of st))
                         (loaded st) (updated st + 1)).
Proof.
  destruct (has_name c) eqn:Hname;
    [|rewrite load_customer_skip by done; intros [= <-]; by left].
  destruct (truthy (get_none c "email")) eqn:Hemail.
  - intros Hstep.
    destruct (load_customer_cases c st st' Hname Hemail Hstep)
      as (s & Hkey & [(i & existing & u & Hi & Hex & Hu & ->)
                     |(row & Hnone & Hnew & ->)]).
    + right. right. split; [done|]. by exists s, i, existing, u.
    + right. left. split; [done|]. by exists row.
  - unfold load_customer. fold (has_name c). rewrite Hname, Hemail. simpl.
    unfold Customer.create.
    destruct (Customer_new c (rows_of st)) as [row|]; [|done].
    intros [= <-]. right. left. split; [done|]. by exists row.
Qed.

Lemma load_customer_counts (c : record) st st' :
  load_customer c st = Return st' →
  loaded st ≤ loaded st' ∧ updated st ≤ updated st'
  ∧ loaded st' + updated st'
    = loaded st + updated st + (if has_name c then 1 else 0)
  ∧ Z.of_nat (length (rows_of st'))
    = Z.of_nat (length (rows_of st)) + (loaded st' - loaded st).
Proof.
  intros [[-> ->]|[[-> (row & _ & ->)]
                  |[-> (s & i & existing & u & _ & _ & _ & _ & ->)]]
         ]%load_customer_return; simpl.
  - lia.
  - rewrite length_app. simpl. lia.
  - rewrite length_insert. lia.
Qed.

Lemma load_customers_loop_counts (cs : list record) st st' :
  load_customers_loop cs st = Return st' →
  loaded st ≤ loaded st' ∧ updated st ≤ updated st'
  ∧ loaded st' + updated st'
    = loaded st + updated st + Z.of_nat (length (filter has_name cs))
  ∧ Z.of_nat (length (rows_of st'))
    = Z.of_nat (length (rows_of st)) + (loaded st' - loaded st).
Proof.
  revert st. induction cs as [|c cs IH]; intros st; simpl.
  - intros [= <-]. lia.
  - intros (st1 & H1 & Hrest)%outcome_bind_return.
    apply load_customer_counts in H1. apply IH in Hrest.
    destruct (has_name c) eqn:Hc.
    + rewrite filter_cons_True by (by apply Is_true_true_2).
      simpl length. lia.
    + rewrite filter_cons_False by (by apply Is_true_false_2). lia.
Qed.

(** X17.  The two counters of [load_customers] (lines 267-278): every
    record with a name is counted once, as added or as updated; the
    records without name are not counted; the table grows by the number
    of records added, and this is what line 278 logs. *)
Theorem X17_load_customers_counts (customers : list record)
    (rows rows' : Customer.table) :
  result (load_customers customers rows) = Return rows' →
  ∃ added updated_ : Z,
    load_customers customers rows
    = Io (Return rows') [customers_logged added updated_]
    ∧ 0 ≤ added ∧ 0 ≤ updated_
    ∧ added + updated_ = Z.of_nat (length (filter has_name customers))
    ∧ Z.of_nat (length rows') = Z.of_nat (length rows) + added.
Proof.
  unfold load_customers, lift, emit, customers_logged.
  destruct (load_customers_loop customers (Loading rows 0 0)) as [st|e] eqn:Hst;
    [|done].
  unfold mbind, io_bind, mret, io_ret. simpl. intros [= <-].
  exists (loaded st), (updated st). split; [done|].
  apply load_customers_loop_counts in Hst. simpl in Hst. lia.
Qed.




End More_on_customers.

Lemma X17_load_customers_counts_witness :
  ∃ added updated_ : Z,
    load_customers (pony := plain)
      [cust_no_name; cust_new; cust_anon; cust_anon] [row_ann]
    = Io (Return [cust_new ∪ row_ann; cust_anon; cust_anon])
         [customers_logged added updated_]
    ∧ 0 ≤ added ∧ 0 ≤ updated_
    ∧ added + updated_
      = Z.of_nat (length (filter has_name
                            [cust_no_name; cust_new; cust_anon; cust_anon]))
    ∧ 3 = 1 + added.
Proof.
  apply (X17_load_customers_counts (pony := plain)
           [cust_no_name; cust_new; cust_anon; cust_anon] [row_ann]
           [cust_new ∪ row_ann; cust_anon; cust_anon]).
  reflexivity.
Defined.


(** ** More on the loading of employees *)

Section More_on_employees.
Context {pony : Pony}.

Lemma load_employee_return (e : record) st st' :
  load_employee e st = Return st' →
  (has_id e = false ∧ st' = st)
  ∨ (has_id e = true
     ∧ ∃ k, id_key e = Some k
       ∧ ((∃ existing u,
             rows_of st !! k = Some existing
             ∧ Employee_values existing e = Return u
             ∧ st' = Loading (<[k := u ∪ existing]> (rows_of st))
                             (loaded st) (updated st + 1))
          ∨ (∃ row,
               rows_of st !! k = None
               ∧ Employee_new e = Return row
               ∧ st' = Loading (<[k := row]> (rows_of st))
                               (loaded st + 1) (updated st)))).
Proof.
  destruct (has_id e) eqn:Hid;
    [|rewrite load_employee_skip by done; intros [= <-]; by left].
  intros Hstep. right. split; [done|].
  by apply load_employee_cases.
Qed.

Lemma load_employee_counts (e : record) st st' :
  load_employee e st = Return st' →
  loaded st ≤ loaded st' ∧ updated st ≤ updated st'
  ∧ loaded st' + updated st'
    = loaded st + updated st + (if has_id e then 1 else 0)
  ∧ Z.of_nat (size (rows_of st'))
    = Z.of_nat (size (rows_of st)) + (loaded st' - loaded st).
Proof.
  intros [[-> ->]|[-> (k & _ & [(existing & u & Hk & _ & ->)
                                |(row & Hk & _ & ->)])]
         ]%load_employee_return; simpl.
  - lia.
  - rewrite map_size_insert_Some by eauto. lia.
  - rewrite map_size_insert_None by done. lia.
Qed.

Lemma load_employees_loop_counts (es : list record) st st' :
  load_employees_loop es st = Return st' →
  loaded st ≤ loaded st' ∧ updated st ≤ updated st'
  ∧ loaded st' + updated st'
    = loaded st + updated st + Z.of_nat (length (filter has_id es))
  ∧ Z.of_nat (size (rows_of st'))
    = Z.of_nat (size (rows_of st)) + (loaded st' - loaded st).
Proof.
  revert st. induction es as [|e es IH]; intros st; simpl.
  - intros [= <-]. lia.
  - intros (st1 & H1 & Hrest)%outcome_bind_return.
    apply load_employee_counts in H1. apply IH in Hrest.
    destruct (has_id e) eqn:Hid.
    + rewrite filter_cons_True by (by apply Is_true_true_2).
      simpl length. lia.
    + rewrite filter_cons_False by (by apply Is_true_false_2). lia.
Qed.

Lemma load_employees_counts (employees : list record)
    (rows rows' : Employee.table) :
  result (load_employees employees rows) = Return rows' →
  ∃ added updated_ : Z,
    load_employees employees rows
    = Io (Return rows') [employees_logged added updated_]
    ∧ 0 ≤ added ∧ 0 ≤ updated_
    ∧ added + updated_ = Z.of_nat (length (filter has_id employees))
    ∧ Z.of_nat (size rows') = Z.of_nat (size rows) + added.
Proof.
  unfold load_employees, lift, emit, employees_logged.
  destruct (load_employees_loop employees (Loading rows 0 0)) as [st|x] eqn:Hst;
    [|done].
  unfold mbind, io_bind, mret, io_ret. simpl. intros [= <-].
  exists (loaded st), (updated st). split; [done|].
  apply load_employees_loop_counts in Hst. simpl in Hst. lia.
Qed.

(** X20.  The two counters of [load_employees] (lines 282-294): when it
    returns, every record with an id was counted once, as added or as
    updated; the records without id were not counted; the table has grown
    by the number of records added, and this is what line 294 logs. *)
Theorem X20_load_employees_counts (employees : list record)
    (rows rows' : Employee.table) :
  result (load_employees employees rows) = Return rows' →
  ∃ added updated_ : Z,
    load_employees employees rows
    = Io (Return rows') [employees_logged added updated_]
    ∧ 0 ≤ added ∧ 0 ≤ updated_
    ∧ added + updated_ = Z.of_nat (length (filter has_id employees))
    ∧ Z.of_nat (size rows') = Z.of_nat (size rows) + added.
Proof. apply load_employees_counts. Qed.





End More_on_employees.

Lemma X20_load_employees_counts_witness :
  ∃ added updated_ : Z,
    load_employees (pony := plain) [emp_no_id; emp_7; emp_e1; emp_7]
      {[ "E1" := emp_e1 ]}
    = Io (Return {[ "7" := emp_7; "E1" := emp_e1 ]})
         [employees_logged added updated_]
    ∧ 0 ≤ added ∧ 0 ≤ updated_
    ∧ added + updated_
      = Z.of_nat (length (filter has_id [emp_no_id; emp_7; emp_e1; emp_7]))
    ∧ Z.of_nat (size ({[ "7" := emp_7; "E1" := emp_e1 ]} : Employee.table))
      = Z.of_nat (size ({[ "E1" := emp_e1 ]} : Employee.table)) + added.
Proof.
  apply (X20_load_employees_counts (pony := plain)
           [emp_no_id; emp_7; emp_e1; emp_7] {[ "E1" := emp_e1 ]}
           {[ "7" := emp_7; "E1" := emp_e1 ]}).
  vm_compute. reflexivity.
Defined.


(** ** The employees, from the rows of the CSV file to the table *)

Lemma built_from_has_id vehicles salaries (emp r : record) :
  csv_row emp → identified emp → built_from vehicles salaries emp r →
  has_id r = true ∧ ∃ s, r !! "employee_id" = Some (VStr s).
Proof.
  intros Hrow Hid Hbuilt. apply employee_info_id in Hbuilt.
  destruct (csv_row_get emp "employee_id" "" Hrow) as [s Hs].
  unfold identified in Hid. rewrite Hs in Hbuilt, Hid.
  split; [|by exists s].
  unfold has_id, get_none, get. rewrite Hbuilt. simpl.
  by apply Is_true_true_1.
Qed.

Lemma flag_employee_id by_id (emp emp' : record) :
  flag_employee by_id emp = Return emp' →
  emp' !! "employee_id" = emp !! "employee_id".
Proof.
  unfold flag_employee. intros (eid & _ & [= <-])%outcome_bind_return.
  by rewrite lookup_insert_ne.
Qed.

Lemma csv_row_empty : csv_row ∅.
Proof. intros k v Hkv. by rewrite lookup_empty in Hkv. Qed.

Lemma csv_row_insert k s (r : record) :
  csv_row r → csv_row (<[k := VStr s]> r).
Proof.
  intros Hr k' v [[_ <-]|[_ Hkv]]%lookup_insert_Some; [eauto|].
  by apply (Hr k' v).
Qed.

Lemma filter_has_id_all (l : list record) :
  Forall (λ r : record, has_id r = true) l → filter has_id l = l.
Proof.
  induction 1 as [|r l Hr _ IH]; [done|].
  rewrite filter_cons_True by (by apply Is_true_true_2). by rewrite IH.
Qed.

Section Employees_pipeline.
Context {pony : Pony}.

(** X22.  For rows as [csv.DictReader] gives them when no line is short
    and salary records that all have an id, the two transformation steps
    of [run_etl] on the employees (line 308) return:
    [transform_employees] prints a line for each row without id,
    [merge_flagged_prompts] prints nothing, and they give a record for
    each row with an id; every record they give has an id, so that
    [load_employees] (line 312) skips none, and when it returns it has
    counted each of them as added or updated. *)
Theorem X22_employees_pipeline (employee_csv : list record)
    (vehicle_data : list Vehicle.t) (salary_data : list record)
    (prompts : list Prompt.t) :
  Forall csv_row employee_csv →
  Forall (λ s : record, is_Some (s !! "employee_id")) salary_data →
  ∃ unified employees : list record,
    transform_employees employee_csv vehicle_data salary_data
    = Io (Return unified)
         (PrintSkipping <$> filter (λ e, ¬ identified e) employee_csv)
    ∧ merge_flagged_prompts unified prompts = Io (Return employees) []
    ∧ length employees = length (filter identified employee_csv)
    ∧ Forall (λ e : record, has_id e = true) employees
    ∧ ∀ staff staff' : Employee.table,
        result (load_employees employees staff) = Return staff' →
        ∃ added updated_ : Z,
          load_employees employees staff
          = Io (Return staff') [employees_logged added updated_]
          ∧ 0 ≤ added ∧ 0 ≤ updated_
          ∧ added + updated_
            = Z.of_nat (length (filter identified employee_csv)).
Proof.
  intros Hrows Hsal.
  destruct (salary_dict_from_total salary_data ∅ Hsal) as [salaries Hdict].
  destruct (employees_loop_csv_rows (vehicle_dict vehicle_data) salaries
              employee_csv Hrows) as [unified Hout].
  assert (result (transform_employees employee_csv vehicle_data salary_data)
          = Return unified) as Hrun.
  { change (salary_dict salary_data = Return salaries) in Hdict.
    unfold transform_employees. rewrite Hdict. simpl. done. }
  destruct (transform_employees_return _ _ _ _ Hrun)
    as (salaries' & Hdict' & Hbuilt & Htrace).
  assert (Forall (λ r : record,
                    has_id r = true ∧ ∃ s, r !! "employee_id" = Some (VStr s))
                 unified) as Hids.
  { apply Forall_forall. intros r Hr.
    apply list_elem_of_lookup in Hr as [i Hi].
    destruct (Forall2_lookup_r _ _ _ _ _ Hbuilt Hi) as (emp & Hemp & Hb).
    apply list_elem_of_lookup_2 in Hemp.
    apply list_elem_of_filter in Hemp as [Hid Hin].
    apply (built_from_has_id (vehicle_dict vehicle_data) salaries'
             emp r); [|done|done].
    by apply (proj1 (Forall_forall _ _) Hrows). }
  destruct (flag_employees_total (group_prompts prompts) unified)
    as (employees & Hflag & Hall).
  { eapply Forall_impl; [exact Hids|]. intros r [_ [s ->]]. eauto. }
  assert (Forall (λ r : record, has_id r = true) employees) as Hids'.
  { apply Forall_forall. intros r Hr.
    apply list_elem_of_lookup in Hr as [i Hi].
    destruct (Forall2_lookup_r _ _ _ _ _ Hall Hi) as (emp & Hemp & Hf).
    apply list_elem_of_lookup_2 in Hemp.
    destruct (proj1 (Forall_forall _ _) Hids emp Hemp) as [Hid _].
    apply flag_employee_id in Hf.
    unfold has_id, get_none, get in *. by rewrite Hf. }
  assert (length employees = length (filter identified employee_csv)) as Hlen.
  { by rewrite (Forall2_length _ _ _ Hbuilt), (Forall2_length _ _ _ Hall). }
  exists unified, employees.
  split; [|split; [|split; [done|split; [done|]]]].
  - rewrite <- Hrun, <- Htrace.
    by destruct (transform_employees employee_csv vehicle_data salary_data).
  - unfold merge_flagged_prompts, lift. by rewrite Hflag.
  - intros staff staff' Hload.
    destruct (load_employees_counts employees staff staff' Hload)
      as (added & updated_ & Hio & Ha & Hu & Hsum & _).
    exists added, updated_. split; [done|]. split; [done|]. split; [done|].
    rewrite filter_has_id_all in Hsum by done. lia.
Qed.

End Employees_pipeline.

Lemma X22_employees_pipeline_witness :
  ∃ unified employees : list record,
    transform_employees [emp_7; emp_no_id; emp_e1] [old_vehicle] [salary_7]
    = Io (Return unified)
         (PrintSkipping
            <$> filter (λ e, ¬ identified e) [emp_7; emp_no_id; emp_e1])
    ∧ merge_flagged_prompts unified [prompt_e1] = Io (Return employees) []
    ∧ length employees
      = length (filter identified [emp_7; emp_no_id; emp_e1])
    ∧ Forall (λ e : record, has_id e = true) employees
    ∧ ∀ staff staff' : Employee.table,
        result (load_employees (pony := plain) employees staff)
        = Return staff' →
        ∃ added updated_ : Z,
          load_employees (pony := plain) employees staff
          = Io (Return staff') [employees_logged added updated_]
          ∧ 0 ≤ added ∧ 0 ≤ updated_
          ∧ added + updated_
            = Z.of_nat
                (length (filter identified [emp_7; emp_no_id; emp_e1])).
Proof.
  apply (X22_employees_pipeline (pony := plain)
           [emp_7; emp_no_id; emp_e1] [old_vehicle] [salary_7] [prompt_e1]).
  - repeat apply Forall_cons_2; try apply Forall_nil_2;
      repeat apply csv_row_insert; apply csv_row_empty.
  - repeat apply Forall_cons_2; try apply Forall_nil_2. by eexists.
Defined.

(** ** Records that the ORM refuses *)

Lemma customers_loop_email_none k d cs d' :
  customers_loop d cs = Return d' →
  (∀ c, c ∈ cs → customer_key c = Return (Some k) →
        get_none c "email" = VNone ∧ c !! "name" = None) →
  (∀ r, od_lookup k d = Some r →
        r !! "email" = Some VNone ∧ r !! "name" = Some (VStr k)) →
  ∀ r, od_lookup k d' = Some r →
       r !! "email" = Some VNone ∧ r !! "name" = Some (VStr k).
Proof.
  revert d. induction cs as [|c cs IH]; intros d; simpl.
  - by intros [= <-].
  - intros (o & Hkey & Hrun)%outcome_bind_return Hcs Hd.
    assert (∀ c', c' ∈ cs → customer_key c' = Return (Some k) →
                  get_none c' "email" = VNone ∧ c' !! "name" = None) as Hcs'.
    { intros c' Hin. apply Hcs. by right. }
    destruct o as [k0|]; [|by apply (IH d)].
    apply (IH _ Hrun Hcs'). intros r.
    destruct (decide (k0 = k)) as [->|Hne];
      [|rewrite customers_merge_lookup_ne by done; apply Hd].
    rewrite customers_merge_lookup_eq. intros [= <-].
    destruct (Hcs c (list_elem_of_here _ _) Hkey) as [Hemail Hname].
    assert (default (customer_defaults k c) (od_lookup k d) !! "email"
            = Some VNone
            ∧ default (customer_defaults k c) (od_lookup k d) !! "name"
              = Some (VStr k)) as [He Hn].
    { destruct (od_lookup k d) as [r|]; simpl; [by apply Hd|].
      unfold customer_defaults. rewrite Hemail. by simplify_map_eq. }
    split.
    + unfold get_none, get in Hemail.
      destruct (c !! "email") as [v|] eqn:Hv.
      * simpl in Hemail. subst v. by apply lookup_union_Some_l.
      * by rewrite lookup_union_r.
    + by rewrite lookup_union_r.
Qed.

Lemma with_billing_loop_return m (basic out : list record) :
  with_billing_loop m basic = Return out →
  Forall2 (λ cust cust', with_billing m cust = Return cust') basic out.
Proof.
  revert out. induction basic as [|cust basic IH]; intros out; simpl.
  - intros [= <-]. constructor.
  - intros (cust' & Hc & (rest' & Hrest & [= <-])%outcome_bind_return
      )%outcome_bind_return.
    constructor; [done | by apply IH].
Qed.

Section Refused.
Context {pony : Pony}.

Lemma load_customers_loop_refused (cs : list record) (c : record) st :
  (∀ rows, ∃ x, Customer_new c rows = Raise x) →
  c ∈ cs → has_name c = true → truthy (get_none c "email") = false →
  ∃ x, load_customers_loop cs st = Raise x.
Proof.
  intros Hnew Hin Hname Hemail. revert st.
  induction cs as [|c0 cs IH]; intros st; [by apply elem_of_nil in Hin|].
  simpl. destruct (load_customer c0 st) as [st1|x] eqn:H0;
    [|by exists x].
  simpl. apply elem_of_cons in Hin as [->|Hin]; [|by apply IH].
  exfalso. unfold load_customer in H0. fold (has_name c0) in H0.
  rewrite Hname, Hemail in H0. simpl in H0. unfold Customer.create in H0.
  destruct (Hnew (rows_of st)) as [x Hx]. by rewrite Hx in H0.
Qed.

Lemma load_employees_loop_refused (es : list record) (e : record) st :
  (∃ x, Employee_new e = Raise x) →
  (∀ existing, ∃ x, Employee_values existing e = Raise x) →
  e ∈ es → has_id e = true →
  ∃ x, load_employees_loop es st = Raise x.
Proof.
  intros [x0 Hnew] Hset Hin Hid. revert st.
  induction es as [|e0 es IH]; intros st; [by apply elem_of_nil in Hin|].
  simpl. destruct (load_employee e0 st) as [st1|x] eqn:H0;
    [|by exists x].
  simpl. apply elem_of_cons in Hin as [->|Hin]; [|by apply IH].
  exfalso.
  apply (load_employee_cases e0 st st1 Hid) in H0
    as (k & _ & [(existing & u & _ & Hu & _)|(row & _ & Hrow & _)]).
  - destruct (Hset existing) as [x Hx]. congruence.
  - congruence.
Qed.

(** X25.  A customer that no source gives an email cannot be loaded by an
    ORM that refuses [None] for [email].  When every record of the key [k]
    in the two sources has no [name] field and no email, or [None] for it,
    and the two transformation steps return, the record that
    [transform_customers] returns for [k] has
    ['email': None] (line 185), [transform_customers_with_billing] leaves
    it so, and [load_customers] hands it to the constructor without a
    lookup (lines 270 and 275): the load raises. *)
Theorem X25_customer_without_email_refused (csv_data json_data : list record)
    (billing : list Billing.t) (k : string) (c : record)
    (basic customers : list record) (rows : Customer.table) :
  (∀ (c' : record) rows', c' !! "email" = Some VNone →
                ∃ x, Customer_new c' rows' = Raise x) →
  c ∈ csv_data ++ json_data → customer_key c = Return (Some k) → k ≠ "" →
  (∀ c', c' ∈ csv_data ++ json_data → customer_key c' = Return (Some k) →
         get_none c' "email" = VNone ∧ c' !! "name" = None) →
  result (transform_customers csv_data json_data) = Return basic →
  result (transform_customers_with_billing basic billing) = Return customers →
  (∃ r, r ∈ basic ∧ r !! "name" = Some (VStr k)
        ∧ r !! "email" = Some VNone)
  ∧ (∃ r, r ∈ customers ∧ r !! "name" = Some (VStr k)
          ∧ r !! "email" = Some VNone)
  ∧ ∃ x, load_customers customers rows = Io (Raise x) [].
Proof.
  intros Hnew Hin Hkey Hk Hall Hbasic Hcust.
  unfold transform_customers, lift, customers_dict in Hbasic.
  destruct (customers_loop [] (csv_data ++ json_data)) as [d|] eqn:Hd;
    [|done].
  simpl in Hbasic. injection Hbasic as <-.
  destruct (customers_loop_keys [] _ d Hd (NoDup_nil_2)) as (_ & Hkeys & _).
  assert (k ∈ map fst d) as Hkd.
  { apply Hkeys. right. by exists c. }
  destruct (od_lookup k d) as [r|] eqn:Hr;
    [|by apply od_lookup_None in Hr].
  destruct (customers_loop_email_none k [] _ d Hd Hall) with (r := r)
    as [He Hn]; [done | done |].
  assert (r ∈ od_values d) as Hrin.
  { apply od_lookup_elem_of in Hr. unfold od_values.
    apply list_elem_of_fmap. by exists (k, r). }
  unfold transform_customers_with_billing, lift in Hcust.
  destruct (with_billing_loop (billing_map billing) (od_values d))
    as [out|] eqn:Hout; [|done].
  simpl in Hcust. injection Hcust as <-.
  apply with_billing_loop_return in Hout.
  apply list_elem_of_lookup in Hrin as [i Hi].
  destruct (Forall2_lookup_l _ _ _ _ _ Hout Hi) as (r' & Hi' & Hb).
  unfold with_billing, item in Hb. rewrite Hn in Hb. simpl in Hb.
  injection Hb as <-.
  set (r' := billing_update r (billing_for (billing_map billing) (VStr k)) ∪ r)
    in *.
  assert (r' !! "name" = Some (VStr k) ∧ r' !! "email" = Some VNone)
    as [Hn' He'].
  { unfold r'. rewrite !lookup_union_r; [done|..];
      apply billing_update_other; unfold billing_fields; intros H;
      repeat (apply elem_of_cons in H as [H|H]; [discriminate H|]);
      by apply elem_of_nil in H. }
  split; [|split].
  - exists r. split; [by eapply list_elem_of_lookup_2 | done].
  - exists r'. split; [by eapply list_elem_of_lookup_2 | done].
  - destruct (load_customers_loop_refused out r' (Loading rows 0 0))
      as [x Hx].
    + intros rows'. by apply Hnew.
    + by eapply list_elem_of_lookup_2.
    + unfold has_name, get_none, get. rewrite Hn'. simpl.
      by destruct (String.eqb_spec k "").
    + unfold get_none, get. by rewrite He'.
    + exists x. unfold load_customers, lift. by rewrite Hx.
Qed.

(** X26.  An employee whose vehicle has no make cannot be loaded by an
    ORM that refuses [None] for [vehicle_make].  For rows as
    [csv.DictReader] gives them and salary records that all have an id,
    when the last vehicle record of the full name of a row has [None] for
    [Make] (the element is missing, line 146), the two transformation
    steps return and give the record of this row ['vehicle_make': None]
    (line 239); the load then raises, at the constructor or at the
    assignment (lines 288 and 291). *)
Theorem X26_employee_without_make_refused (employee_csv : list record)
    (before after : list Vehicle.t) (veh : Vehicle.t)
    (salary_data : list record) (prompts : list Prompt.t)
    (emp : record) (eid : string) (staff : Employee.table) :
  (∀ e : record, e !! "vehicle_make" = Some VNone →
       (∃ x, Employee_new e = Raise x)
       ∧ ∀ existing, ∃ x, Employee_values existing e = Raise x) →
  Forall csv_row employee_csv → emp ∈ employee_csv →
  emp !! "employee_id" = Some (VStr eid) → eid ≠ "" →
  Forall (λ s : record, is_Some (s !! "employee_id")) salary_data →
  Vehicle.FullName veh = full_name emp →
  Forall (λ v', Vehicle.FullName v' ≠ Vehicle.FullName veh) after →
  Vehicle.Make veh = None →
  ∃ (unified employees : list record) (e : record) x,
    result (transform_employees employee_csv (before ++ veh :: after)
              salary_data) = Return unified
    ∧ merge_flagged_prompts unified prompts = Io (Return employees) []
    ∧ e ∈ employees
    ∧ e !! "employee_id" = Some (VStr eid)
    ∧ e !! "vehicle_make" = Some VNone
    ∧ load_employees employees staff = Io (Raise x) [].
Proof.
  intros Horm Hrows Hin Hid Hne Hsal Hname Hafter Hmake.
  destruct (salary_dict_from_total salary_data ∅ Hsal) as [salaries Hdict].
  destruct (employee_record employee_csv (before ++ veh :: after) salary_data
              salaries emp eid Hrows Hin Hid Hne Hdict)
    as (unified & r & Hrun & Hr & Hinfo).
  pose proof (employee_info_id _ _ _ _ _ Hinfo) as Hrid.
  assert (r !! "vehicle_make" = Some VNone) as Hrmake.
  { unfold employee_info in Hinfo. fold (full_name emp) in Hinfo.
    apply outcome_bind_return in Hinfo as (age & _ & Hinfo).
    apply outcome_bind_return in Hinfo as (retired & _ & Hinfo).
    apply outcome_bind_return in Hinfo as (dependants & _ & [= <-]).
    rewrite <- Hname. unfold vehicle_dict.
    rewrite (foldl_insert_last Vehicle.FullName before after veh ∅ Hafter).
    rewrite Hmake. by simplify_map_eq. }
  destruct (transform_employees_return _ _ _ _ Hrun)
    as (salaries' & Hdict' & Hbuilt & _).
  destruct (flag_employees_total (group_prompts prompts) unified)
    as (employees & Hflag & Hall).
  { apply Forall_forall. intros r0 Hr0.
    apply list_elem_of_lookup in Hr0 as [i Hi].
    destruct (Forall2_lookup_r _ _ _ _ _ Hbuilt Hi) as (emp0 & Hemp0 & Hb).
    apply list_elem_of_lookup_2 in Hemp0.
    apply list_elem_of_filter in Hemp0 as [Hid0 Hin0].
    destruct (built_from_has_id (vehicle_dict (before ++ veh :: after))
                salaries' emp0 r0) as [_ [s ->]]; [|done|done|by eauto].
    by apply (proj1 (Forall_forall _ _) Hrows). }
  apply list_elem_of_lookup in Hr as [i Hi].
  destruct (Forall2_lookup_l _ _ _ _ _ Hall Hi) as (e & Hie & He).
  assert (e ∈ employees) as Hein by (by eapply list_elem_of_lookup_2).
  assert (e !! "employee_id" = Some (VStr eid)) as Heid.
  { by rewrite (flag_employee_id _ _ _ He). }
  assert (e !! "vehicle_make" = Some VNone) as Hemake.
  { unfold flag_employee in He.
    apply outcome_bind_return in He as (eid' & _ & [= <-]).
    by rewrite lookup_insert_ne. }
  destruct (Horm e Hemake) as [Hnew Hset].
  destruct (load_employees_loop_refused employees e (Loading staff 0 0)
              Hnew Hset Hein) as [x Hx].
  { unfold has_id, get_none, get. rewrite Heid. simpl.
    by destruct (String.eqb_spec eid ""). }
  exists unified, employees, e, x. split_and!; try done.
  - unfold merge_flagged_prompts, lift. by rewrite Hflag.
  - unfold load_employees, lift. by rewrite Hx.
Qed.

End Refused.

Lemma X25_customer_without_email_refused_witness :
  (∃ r, r ∈ [dee_csv ∪ customer_defaults "Dee Fox" dee_csv]
        ∧ r !! "name" = Some (VStr "Dee Fox")
        ∧ r !! "email" = Some VNone)
  ∧ (∃ r, r ∈ [billing_update
                 (dee_csv ∪ customer_defaults "Dee Fox" dee_csv) None
               ∪ (dee_csv ∪ customer_defaults "Dee Fox" dee_csv)]
          ∧ r !! "name" = Some (VStr "Dee Fox")
          ∧ r !! "email" = Some VNone)
  ∧ ∃ x,
      load_customers (pony := not_null)
        [billing_update
           (dee_csv ∪ customer_defaults "Dee Fox" dee_csv) None
         ∪ (dee_csv ∪ customer_defaults "Dee Fox" dee_csv)] [row_bob]
      = Io (Raise x) [].
Proof.
  apply (X25_customer_without_email_refused (pony := not_null)
           [dee_csv] [] [] "Dee Fox" dee_csv).
  - intros c' rows' Hc'. exists ValueError. simpl. by rewrite Hc'.
  - left.
  - reflexivity.
  - discriminate.
  - intros c' [->|[]%elem_of_nil]%elem_of_cons _. by split.
  - reflexivity.
  - reflexivity.
Defined.

Lemma X26_employee_without_make_refused_witness :
  ∃ (unified employees : list record) (e : record) x,
    result (transform_employees [emp_7] ([old_vehicle] ++ new_vehicle :: [])
              [salary_7]) = Return unified
    ∧ merge_flagged_prompts unified [prompt_e1] = Io (Return employees) []
    ∧ e ∈ employees
    ∧ e !! "employee_id" = Some (VStr "7")
    ∧ e !! "vehicle_make" = Some VNone
    ∧ load_employees (pony := not_null) employees ∅ = Io (Raise x) [].
Proof.
  apply (X26_employee_without_make_refused (pony := not_null)
           [emp_7] [old_vehicle] [] new_vehicle [salary_7] [prompt_e1]
           emp_7 "7" ∅).
  - intros e He. simpl. rewrite He. split; [by exists ValueError|].
    intros _. by exists ValueError.
  - repeat apply Forall_cons_2; try apply Forall_nil_2;
      repeat apply csv_row_insert; apply csv_row_empty.
  - left.
  - reflexivity.
  - discriminate.
  - repeat apply Forall_cons_2; try apply Forall_nil_2. by eexists.
  - reflexivity.
  - apply Forall_nil_2.
  - reflexivity.
Defined.

(** ** More on the extraction *)

Section More_on_extraction.
Context {parsers : Parsers}.

Lemma scan_line_NoDup st raw st' :
  scan_line st raw = Return st' →
  NoDup (map fst (by_id st)) → NoDup (map fst (by_id st')).
Proof.
  unfold scan_line. cbv zeta. intros Hstep Hnd.
  destruct (Py.startswith (Py.strip raw) "Employee ID:").
  { apply outcome_bind_return in Hstep as (cid & _ & [= <-]). simpl.
    unfold od_setdefault. destruct (od_lookup cid (by_id st)); simpl; [done|].
    by apply od_set_NoDup. }
  destruct (Py.startswith (Py.strip raw) "Timestamp:"
            && id_truthy (current_id st)).
  { apply outcome_bind_return in Hstep as (items & _ & Hstep).
    apply outcome_bind_return in Hstep as (ts & _ & [= <-]). simpl.
    by apply od_set_NoDup. }
  destruct (Py.startswith (Py.strip raw) "Prompt:"
            && id_truthy (current_id st)).
  { apply outcome_bind_return in Hstep as (p & _ & Hstep).
    apply outcome_bind_return in Hstep as (items & _ & Hstep).
    destruct (set_last_prompt p items); [|done].
    injection Hstep as <-. simpl. by apply od_set_NoDup. }
  by injection Hstep as <-.
Qed.

Lemma scan_lines_NoDup lines st st' :
  scan_lines st lines = Return st' →
  NoDup (map fst (by_id st)) → NoDup (map fst (by_id st')).
Proof.
  revert st. induction lines as [|raw lines IH]; intros st; simpl.
  - by intros [= <-].
  - intros (st1 & H1 & Hrest)%outcome_bind_return Hnd.
    apply (IH st1 Hrest). by apply (scan_line_NoDup st raw).
Qed.

(** X23.  The list that [extract_flagged_prompts] returns is made of one
    group per employee id (lines 166-168): the prompts of an id come
    together, also when the file has several "Employee ID:" lines for
    it. *)
Theorem X23_flagged_prompts_grouped (fs : filesystem) (path : string)
    (prompts : list Prompt.t) :
  result (extract_flagged_prompts fs path) = Return prompts →
  ∃ groups : odict (list flagged),
    NoDup (map fst groups) ∧ prompts = tagged groups.
Proof.
  unfold extract_flagged_prompts. intros Hrun.
  destruct (result (lines_or_empty <$> extract_file fs path "txt"))
    as [lines|e] eqn:Hlines.
  - rewrite (io_bind_Return _ _ lines Hlines) in Hrun. simpl in Hrun.
    destruct (scan_lines (Scan [] None) lines) as [st|e] eqn:Hscan.
    + unfold lift in Hrun. simpl in Hrun. injection Hrun as <-.
      exists (by_id st). split; [|done].
      apply (scan_lines_NoDup lines _ st Hscan). constructor.
    + done.
  - by rewrite (io_bind_Raise _ _ e Hlines) in Hrun.
Qed.

(** X24.  [extract_file] catches [FileNotFoundError] only (line 102):
    when the file is there and its text does not parse, the error of the
    parser leaves each extractor, and nothing is logged or printed; the
    line "Failed to parse XML file or file is empty." of
    [extract_vehicles] is not printed then. *)
Theorem X24_parse_error_propagates (fs : filesystem) (path content : string)
    (e : exn) :
  fs !! path = Some content →
  (csv_DictReader content = Raise e →
   extract_customers_csv fs path = Io (Raise e) [])
  ∧ (json_load content = Raise e →
     extract_customers_json fs path = Io (Raise e) []
     ∧ extract_file_json fs path = Io (Raise e) [])
  ∧ (ET_parse content = Raise e →
     extract_customers_billing fs path = Io (Raise e) []
     ∧ extract_vehicles fs path = Io (Raise e) []).
Proof.
  intros Hfile. split; [|split]; intros Hparse.
  - unfold extract_customers_csv, extract_file. rewrite Hfile. simpl.
    by rewrite Hparse.
  - unfold extract_customers_json, extract_file_json, extract_file.
    rewrite Hfile. simpl. by rewrite Hparse.
  - unfold extract_customers_billing, extract_vehicles, extract_file.
    rewrite Hfile. simpl. by rewrite Hparse.
Qed.

End More_on_extraction.

Lemma X23_flagged_prompts_grouped_witness :
  ∃ groups : odict (list flagged),
    NoDup (map fst groups)
    ∧ [Prompt.mk "E1" "10:00" ""; Prompt.mk "E1" "12:00" "";
       Prompt.mk "E2" "11:00" ""] = tagged groups.
Proof.
  apply (X23_flagged_prompts_grouped (parsers := rejecting_parsers)
           three_blocks "flagged.txt").
  vm_compute. reflexivity.
Defined.

Lemma X24_parse_error_propagates_witness :
  extract_customers_csv (parsers := failing_parsers ValueError)
    {[ "data" := "<" ]} "data" = Io (Raise ValueError) []
  ∧ extract_customers_json (parsers := failing_parsers ValueError)
      {[ "data" := "<" ]} "data" = Io (Raise ValueError) []
  ∧ extract_file_json (parsers := failing_parsers ValueError)
      {[ "data" := "<" ]} "data" = Io (Raise ValueError) []
  ∧ extract_customers_billing (parsers := failing_parsers ValueError)
      {[ "data" := "<" ]} "data" = Io (Raise ValueError) []
  ∧ extract_vehicles (parsers := failing_parsers ValueError)
      {[ "data" := "<" ]} "data" = Io (Raise ValueError) [].
Proof.
  destruct (X24_parse_error_propagates (parsers := failing_parsers ValueError)
              {[ "data" := "<" ]} "data" "<" ValueError)
    as (Hcsv & Hjson & Hxml); [reflexivity|].
  destruct (Hjson eq_refl) as [Hj1 Hj2]. destruct (Hxml eq_refl) as [Hx1 Hx2].
  split; [exact (Hcsv eq_refl)|]. split; [exact Hj1|]. split; [exact Hj2|].
  split; [exact Hx1 | exact Hx2].
Defined.
